(** * Bank Australia CSV importer: the row classifier and the ledger cache

    A shallow embedding of [src/bank_australia.ts], [src/actual.ts] and
    [dist/utils.js].  JavaScript strings are modelled as Rocq strings of
    8-bit code units (the bank export is ASCII text; case conversion is the
    ASCII one), JavaScript numbers as IEEE-754 binary64 floats, the
    [Map<string, UUID>] account mapping as a [gmap], exceptions as an error
    result and the [Actual] object as an explicitly threaded state.  The
    functions of [date-fns], of [@actual-app/api] and of the JavaScript
    runtime that the code calls but does not define are the fields of the
    [Host] class. *)

From Stdlib Require Import String Ascii ZArith List Bool Lia.
From Stdlib Require Import Floats.PrimFloat.
From stdpp Require Import base option list gmap strings sorting.
Import ListNotations.
Local Open Scope string_scope.
Local Open Scope list_scope.

(** ** JavaScript strings *)

Module JsString.

Definition code (c : ascii) : nat := nat_of_ascii c.

Definition between (lo hi : nat) (c : ascii) : bool :=
  (lo <=? code c)%nat && (code c <=? hi)%nat.

Definition isDigit : ascii -> bool := between 48 57.
Definition isUpper : ascii -> bool := between 65 90.
Definition isLower : ascii -> bool := between 97 122.

(** [\w] is [[A-Za-z0-9_]]. *)
Definition isWord (c : ascii) : bool :=
  isUpper c || isLower c || isDigit c || (code c =? 95)%nat.

(** [\s], and the characters that [trim] strips: tab, line feed, vertical
    tab, form feed, carriage return, space and no-break space. *)
Definition isSpace (c : ascii) : bool :=
  between 9 13 c || (code c =? 32)%nat || (code c =? 160)%nat.

(** [.] is anything but a line terminator. *)
Definition isDot (c : ascii) : bool :=
  negb ((code c =? 10)%nat || (code c =? 13)%nat).

Definition toUpperChar (c : ascii) : ascii :=
  if isLower c then ascii_of_nat (code c - 32) else c.
Definition toLowerChar (c : ascii) : ascii :=
  if isUpper c then ascii_of_nat (code c + 32) else c.

Fixpoint mapChars (f : ascii -> ascii) (s : string) : string :=
  match s with
  | EmptyString => EmptyString
  | String c s' => String (f c) (mapChars f s')
  end.

Definition toUpperCase : string -> string := mapChars toUpperChar.
Definition toLowerCase : string -> string := mapChars toLowerChar.

(** [s.startsWith(p)] *)
Fixpoint startsWith (s p : string) {struct p} : bool :=
  match p, s with
  | EmptyString, _ => true
  | String a p', String b s' => if Ascii.eqb a b then startsWith s' p' else false
  | String _ _, EmptyString => false
  end.

(** [s.charAt(0)] and [s.substring(1)] *)
Definition charAt0 (s : string) : string :=
  match s with
  | EmptyString => EmptyString
  | String c _ => String c EmptyString
  end.
Definition substring1 (s : string) : string :=
  match s with
  | EmptyString => EmptyString
  | String _ s' => s'
  end.

(** The first [n] code units of [s]. *)
Fixpoint take (n : nat) (s : string) : string :=
  match n, s with
  | S n', String c s' => String c (take n' s')
  | _, _ => EmptyString
  end.

(** [s.split(sep)] for a one-character separator: never empty. *)
Fixpoint split (sep : ascii) (s : string) : list string :=
  match s with
  | EmptyString => [EmptyString]
  | String c s' =>
      if Ascii.eqb c sep then EmptyString :: split sep s'
      else match split sep s' with
           | [] => [String c EmptyString]
           | p :: ps => String c p :: ps
           end
  end.

Fixpoint trimStart (s : string) : string :=
  match s with
  | String c s' => if isSpace c then trimStart s' else s
  | EmptyString => EmptyString
  end.

(** [trimEnd] keeps a character when it is not a space or when something
    is kept after it. *)
Fixpoint trimEnd (s : string) : string :=
  match s with
  | EmptyString => EmptyString
  | String c s' =>
      match trimEnd s' with
      | EmptyString => if isSpace c then EmptyString else String c EmptyString
      | t => String c t
      end
  end.

Definition trim (s : string) : string := trimEnd (trimStart s).

(** [parts.join(sep)] *)
Fixpoint join (sep : string) (parts : list string) : string :=
  match parts with
  | [] => EmptyString
  | [p] => p
  | p :: ps => p +:+ sep +:+ join sep ps
  end.

(** A string is truthy when it is not empty. *)
Definition truthy (s : string) : bool :=
  match s with EmptyString => false | _ => true end.

(** How a possibly undefined string prints inside a template literal. *)
Definition interpolate (o : option string) : string :=
  match o with Some s => s | None => "undefined" end.

End JsString.

(** ** Regular expressions

    A backtracking matcher with the priorities of ECMAScript: alternatives
    left to right, greedy quantifiers longest first, lazy ones shortest
    first, an iteration of a quantifier that consumes nothing fails, and a
    lookahead is matched once and not re-entered. *)

Module RegExp.
Import JsString.

Inductive regex : Type :=
| Eps
| Chr (p : ascii -> bool)
| Seq (r1 r2 : regex)
| Alt (r1 r2 : regex)
| Star (greedy : bool) (r : regex)
| Group (i : nat) (r : regex)
| Ahead (r : regex).

Definition captures := list (nat * string).

Fixpoint Lit (s : string) : regex :=
  match s with
  | EmptyString => Eps
  | String c s' => Seq (Chr (Ascii.eqb c)) (Lit s')
  end.

Definition Plus (r : regex) : regex := Seq r (Star true r).
Definition Opt (r : regex) : regex := Alt r Eps.
Definition anyOf (ps : list (ascii -> bool)) : ascii -> bool :=
  fun c => existsb (fun p => p c) ps.
Definition oneOf (s : string) : ascii -> bool :=
  fun c => existsb (Ascii.eqb c) (list_ascii_of_string s).

Definition cont := string -> captures -> option (captures * string).

(** [run r s caps k] matches [r] at the start of [s] and hands what is
    left of [s] to the continuation [k]; [None] asks for backtracking. *)
Fixpoint run (r : regex) (s : string) (caps : captures) (k : cont)
  : option (captures * string) :=
  match r with
  | Eps => k s caps
  | Chr p =>
      match s with
      | String c s' => if p c then k s' caps else None
      | EmptyString => None
      end
  | Seq r1 r2 => run r1 s caps (fun s1 caps1 => run r2 s1 caps1 k)
  | Alt r1 r2 =>
      match run r1 s caps k with
      | Some m => Some m
      | None => run r2 s caps k
      end
  | Star greedy r1 =>
      (fix loop (n : nat) (s : string) (caps : captures) {struct n}
         : option (captures * string) :=
         match n with
         | O => k s caps
         | S n' =>
             let again (_ : unit) :=
               run r1 s caps (fun s1 caps1 =>
                 if (String.length s1 <? String.length s)%nat
                 then loop n' s1 caps1 else None) in
             if greedy then
               match again tt with
               | Some m => Some m
               | None => k s caps
               end
             else
               match k s caps with
               | Some m => Some m
               | None => again tt
               end
         end) (S (String.length s)) s caps
  | Group i r1 =>
      run r1 s caps (fun s1 caps1 =>
        k s1 ((i, take (String.length s - String.length s1) s) :: caps1))
  | Ahead r1 =>
      match run r1 s caps (fun s1 caps1 => Some (caps1, s1)) with
      | Some (caps1, _) => k s caps1
      | None => None
      end
  end.

(** A successful match: the captures and the text after the match. *)
Definition matchAt (r : regex) (s : string) : option (captures * string) :=
  run r s [] (fun s1 caps1 => Some (caps1, s1)).

(** [r.exec(s)] and [s.match(r)] for a regex without flags: the match at
    the leftmost position that has one. *)
Fixpoint exec (r : regex) (s : string) : option captures :=
  match matchAt r s with
  | Some (caps, _) => Some caps
  | None =>
      match s with
      | EmptyString => None
      | String _ s' => exec r s'
      end
  end.

(** [matches[i]]: [None] is [undefined]. *)
Fixpoint group (i : nat) (caps : captures) : option string :=
  match caps with
  | [] => None
  | (j, v) :: rest => if (i =? j)%nat then Some v else group i rest
  end.

(** [s.replace(r, f)] for a regex with the [g] flag and a callback on the
    matched text.  An empty match is replaced and one character is then
    copied, as [lastIndex] moves on by one. *)
Fixpoint replaceFrom (fuel : nat) (r : regex) (f : string -> string) (s : string)
  : string :=
  match fuel with
  | O => s
  | S fuel' =>
      match matchAt r s with
      | Some (_, rest) =>
          let n := (String.length s - String.length rest)%nat in
          match n, s with
          | O, String c s' => f EmptyString +:+ String c (replaceFrom fuel' r f s')
          | O, EmptyString => f EmptyString
          | _, _ => f (take n s) +:+ replaceFrom fuel' r f rest
          end
      | None =>
          match s with
          | EmptyString => EmptyString
          | String c s' => String c (replaceFrom fuel' r f s')
          end
      end
  end.

Definition replaceAll (r : regex) (f : string -> string) (s : string) : string :=
  replaceFrom (S (String.length s)) r f s.

End RegExp.

(** ** Values, results and the data model *)

Abbreviation UUID := string (only parsing).

(** A thrown JavaScript exception.  The code throws [new Error(message)]
    only; a [TypeError] is what the runtime raises when a method is called on
    [undefined]. *)
Inductive exn : Type :=
| Error (message : string)
| TypeError (message : string).

Inductive result (A : Type) : Type :=
| Returns (a : A)
| Throws (e : exn).
Arguments Returns {A} a.
Arguments Throws {A} e.

(** The value of a [Date]: its time value in milliseconds, or [NaN]. *)
Inductive Date : Type :=
| InvalidDate
| TimeValue (t : Z).

(** [interface ICategory] of [src/actual.ts].  The group id is the value of
    [incomeCategoryGroupId] or [defaultCategoryGroupId], whose type is
    [UUID | undefined]. *)
Record ICategory : Type := mkCategory {
  cat_id : option UUID;
  cat_name : string;
  cat_group_id : option UUID;
  cat_is_income : option bool
}.

(** [interface IPayee]; its [name] is [payee_nm] here, as [payee_name] is a
    field of the transaction. *)
Record IPayee : Type := mkPayee {
  payee_id : option UUID;
  payee_nm : string;
  payee_category : option UUID;
  transfer_acct : option UUID
}.

(** [interface ITransaction]; [subtransactions] is never set by the importer
    and is left out. *)
Record ITransaction : Type := mkTransaction {
  id : option UUID;
  account : UUID;
  date : Date;
  amount : option float;
  payee : option UUID;
  payee_name : option string;
  imported_payee : option string;
  category : option UUID;
  notes : option string;
  imported_id : option string;
  transfer_id : option string;
  cleared : option bool
}.

(** [interface CSVDataRow]: one record of the export, all fields strings. *)
Record CSVDataRow : Type := mkRow {
  Account_number : string;
  Transaction_type : string;
  Effective_date : string;
  Create_date : string;
  Reference_no : string;
  Debit_amount : string;
  Credit_amount : string;
  Balance_after_transfer : string;
  Description : string;
  Long_description : string;
  Cheque_number : string;
  Merchant_name : string;
  Category_list : string
}.

(** What the importer asks of the ledger's taxonomy, in order: a search of
    the cached categories by name, and a remote [createCategory] call. *)
Inductive event : Type :=
| FindCategory (name : string)
| CreateCategory (c : ICategory)
| CreateInherited (key : string).

(** The state of the [Actual] object that the classifier reads and writes;
    [trace] records the taxonomy accesses made so far. *)
Record Actual : Type := mkActual {
  isInitialised : bool;
  payees : list IPayee;
  categories : list ICategory;
  defaultCategoryGroupId : option UUID;
  incomeCategoryGroupId : option UUID;
  trace : list event
}.

(** The functions the code calls and does not define. *)
Class Host : Type := {
  (** [parse(dateString, formatString, new Date())] of date-fns.  With a
      fixed, well-formed format string it does not throw: a string that does
      not match the format yields an Invalid Date. *)
  parse : string -> string -> Date;
  (** [getHours] and [setHours] on a valid time value, in the local time
      zone of the process. *)
  localHours : Z -> Z;
  withLocalHours : Z -> Z -> Date;
  (** the global [parseFloat] *)
  parseFloat : string -> float;
  (** [utils.amountToInteger] of [@actual-app/api] *)
  amountToInteger : float -> float;
  (** [createCategory] of [@actual-app/api]: the id the ledger gives the new
      category, or the failure of the call; it may depend on what was asked
      before. *)
  createCategory : list event -> ICategory -> result UUID;
  (** The same call when the value sent is not a category at all (see
      [CategoryOverrides_get]): the id it returns and the name under which
      the value then sits in the category cache. *)
  createInherited : list event -> string -> result (UUID * ICategory)
}.

(** Computations on the [Actual] object that may throw. *)
Definition M (A : Type) : Type := Actual -> result A * Actual.

Definition ret {A} (a : A) : M A := fun st => (Returns a, st).
Definition throw {A} (e : exn) : M A := fun st => (Throws e, st).
Definition bind {A B} (m : M A) (f : A -> M B) : M B :=
  fun st =>
    match m st with
    | (Returns a, st') => f a st'
    | (Throws e, st') => (Throws e, st')
    end.
Definition gets {A} (f : Actual -> A) : M A := fun st => (Returns (f st), st).
Definition modify (f : Actual -> Actual) : M unit := fun st => (Returns tt, f st).
Definition liftResult {A} (r : result A) : M A := fun st => (r, st).

Notation "'let*' x ':=' m 'in' k" := (bind m (fun x => k))
  (at level 10, x name, m at level 100, k at level 200).
Notation "'do' m 'then' k" := (bind m (fun _ => k))
  (at level 10, m at level 100, k at level 200).

Definition log (e : event) : M unit :=
  modify (fun st =>
    mkActual (isInitialised st) (payees st) (categories st)
             (defaultCategoryGroupId st) (incomeCategoryGroupId st)
             (trace st ++ [e])).

Definition pushCategory (c : ICategory) : M unit :=
  modify (fun st =>
    mkActual (isInitialised st) (payees st) (categories st ++ [c])
             (defaultCategoryGroupId st) (incomeCategoryGroupId st)
             (trace st)).

(** [!x] for an optional id: [undefined] and the empty string are falsy. *)
Definition falsy (o : option UUID) : bool :=
  match o with
  | Some s => negb (JsString.truthy s)
  | None => true
  end.

(** ** [dist/utils.js] *)

Section Utils.
Context `{env : Host}.

Definition dateFormat : string := "h:mma EEE d MMMM, yyyy".

(** [date.getHours()]: [NaN] on an Invalid Date. *)
Definition getHours (d : Date) : option Z :=
  match d with
  | InvalidDate => None
  | TimeValue t => Some (localHours t)
  end.

(** [date.setHours(h)]: the time value becomes [NaN] when it already is or
    when [h] is. *)
Definition setHours (d : Date) (h : option Z) : Date :=
  match d, h with
  | TimeValue t, Some h' => withLocalHours t h'
  | _, _ => InvalidDate
  end.

Definition extractDate (dateString : string) : Date :=
  let date := parse dateString dateFormat in
  setHours date (Z.add 10 <$> getHours date).

(** The regex [/\w\S*/g] *)
Definition wordRe : RegExp.regex :=
  RegExp.Seq (RegExp.Chr JsString.isWord)
             (RegExp.Star true (RegExp.Chr (fun c => negb (JsString.isSpace c)))).

Definition toTitleCase (str : string) : string :=
  RegExp.replaceAll wordRe
    (fun txt => JsString.toUpperCase (JsString.charAt0 txt)
                +:+ JsString.toLowerCase (JsString.substring1 txt))
    str.

End Utils.

(** ** [src/actual.ts] *)

Section ActualApi.
Context `{env : Host}.

Definition findCategory (name : string) : M (option ICategory) :=
  do log (FindCategory name) then
  gets (fun st => List.find (fun c => String.eqb (cat_name c) name) (categories st)).

(** [payees.find(p => p.transfer_acct === actualAccountId)] *)
Definition transferPayeeOf (st : Actual) (actualAccountId : UUID) : option IPayee :=
  List.find (fun p => match transfer_acct p with
                      | Some a => String.eqb a actualAccountId
                      | None => false
                      end) (payees st).

Definition findTransferPayee (actualAccountId : UUID) : M (option IPayee) :=
  gets (fun st => transferPayeeOf st actualAccountId).

Definition notInitialised : exn :=
  Error "Actual not initialised, call initialiseActual() first".

(** [createCategoryAsync(category: ICategory | string)] *)
Definition createCategoryAsync (category : ICategory + string) : M ICategory :=
  let* init := gets isInitialised in
  if negb init then throw notInitialised else
  let* category :=
    match category with
    | inr name =>
        let* dflt := gets defaultCategoryGroupId in
        let* inc := gets incomeCategoryGroupId in
        if falsy dflt then
          throw (Error "No default category group ID found, cannot create category")
        else if falsy inc then
          throw (Error "No income category group ID found, cannot create category")
        else
          ret (mkCategory None name
                 (if String.eqb name "Interest" then inc else dflt) None)
    | inl c => ret c
    end in
  let* tr := gets trace in
  do log (CreateCategory category) then
  let* newCategoryId := liftResult (createCategory tr category) in
  let category :=
    mkCategory (Some newCategoryId) (cat_name category)
               (cat_group_id category) (cat_is_income category) in
  do pushCategory category then
  ret category.

(** [createCategoryAsync] when it is handed an inherited member of the
    overrides object instead of a name: the value is not a string, so it is
    sent to the ledger as it is and then pushed on the cache. *)
Definition createInheritedAsync (key : string) : M ICategory :=
  let* init := gets isInitialised in
  if negb init then throw notInitialised else
  let* tr := gets trace in
  do log (CreateInherited key) then
  let* r := liftResult (createInherited tr key) in
  let category :=
    mkCategory (Some (fst r)) (cat_name (snd r))
               (cat_group_id (snd r)) (cat_is_income (snd r)) in
  do pushCategory category then
  ret category.

End ActualApi.

(** ** [src/bank_australia.ts] *)

Module Patterns.
Import JsString RegExp.

Definition digits : regex := Plus (Chr isDigit).
Definition words : regex := Plus (Chr isWord).
Definition wordsAndSpaces : regex := Plus (Chr (anyOf [isWord; isSpace])).
Definition anything : regex := Star true (Chr isDot).
Definition seq (rs : list regex) : regex := fold_right Seq Eps rs.

(** [/Transfer to \w+ ([0-9]+)/] *)
Definition transferTo : regex :=
  seq [Lit "Transfer to "; words; Lit " "; Group 1 digits].

(** [/Ext TFR - NET# (\d+) to \d+ ([A-z\s]+) (?:[A-Z]+) - .*/] *)
Definition extTransfer : regex :=
  seq [Lit "Ext TFR - NET# "; Group 1 digits; Lit " to "; digits; Lit " ";
       Group 2 (Plus (Chr (anyOf [between 65 122; isSpace]))); Lit " ";
       Plus (Chr isUpper); Lit " - "; anything].

(** [/Net tfr to \w+ (\d+)\. Rec No.: (\d+), .*/]; the dot of [No.] is not
    escaped and stands for any character. *)
Definition netTfrTo : regex :=
  seq [Lit "Net tfr to "; words; Lit " "; Group 1 digits; Lit ". Rec No";
       Chr isDot; Lit ": "; Group 2 digits; Lit ", "; anything].

(** [/Osko Payment To ([\w\s]+) (?:[\w@.]+|Account [\w\s-]+|[\+\d-]+) Ref#(\d+)/] *)
Definition oskoTo : regex :=
  seq [Lit "Osko Payment To "; Group 1 wordsAndSpaces; Lit " ";
       Alt (Plus (Chr (anyOf [isWord; oneOf "@."])))
         (Alt (Seq (Lit "Account ") (Plus (Chr (anyOf [isWord; isSpace; oneOf "-"]))))
              (Plus (Chr (anyOf [oneOf "+"; isDigit; oneOf "-"]))));
       Lit " Ref#"; Group 2 digits].

(** [/Direct Debit ([\w\s]+) - .*/] *)
Definition directDebit : regex :=
  seq [Lit "Direct Debit "; Group 1 wordsAndSpaces; Lit " - "; anything].

(** [/Osko Payment From ([\w\s]+)/] *)
Definition oskoFrom : regex :=
  seq [Lit "Osko Payment From "; Group 1 wordsAndSpaces].

(** [/Direct Credit (.+) - .*/] *)
Definition directCredit : regex :=
  seq [Lit "Direct Credit "; Group 1 (Plus (Chr isDot)); Lit " - "; anything].

(** [/Internet BPay to ([\w\s]+) - Biller Code (\d+) - Receipt No (\d+)/] *)
Definition bpay : regex :=
  seq [Lit "Internet BPay to "; Group 1 wordsAndSpaces; Lit " - Biller Code ";
       Group 2 digits; Lit " - Receipt No "; Group 3 digits].

(** [/VISA(?: Refund)?-(.*?)( HTTP| WWW|#)/] *)
Definition visa : regex :=
  seq [Lit "VISA"; Opt (Lit " Refund"); Lit "-";
       Group 1 (Star false (Chr isDot));
       Group 2 (Alt (Lit " HTTP") (Alt (Lit " WWW") (Lit "#")))].

(** [/\*([\w]*[A-Z\. ]* )(?=\d|[A-Z][a-z])/], written here with a blank
    before the parenthesis that closes the group: a star, then the group
    of word characters followed by capitals, dots and spaces, then a
    lookahead for a digit or a capital and a small letter. *)
Definition gateway : regex :=
  seq [Lit "*";
       Group 1 (Seq (Star true (Chr isWord))
                    (Star true (Chr (anyOf [isUpper; oneOf ". "]))));
       Ahead (Alt (Chr isDigit) (Seq (Chr isUpper) (Chr isLower)))].

(** [/Ref\.(\d+)/] *)
Definition referenceNumber : regex :=
  seq [Lit "Ref."; Group 1 digits].

End Patterns.

(** [BankAustralia.PayeeName] *)
Definition PayeeName : string := "Bank Australia".

(** What indexing the [CategoryOverrides] object with a key gives: the
    string of an entry of the table, or a member that every JavaScript
    object inherits, which is a function or an object and never a string. *)
Inductive member : Type :=
| Entry (value : string)
| Inherited (key : string).

Definition inheritedKeys : list string :=
  ["constructor"; "hasOwnProperty"; "isPrototypeOf"; "propertyIsEnumerable";
   "toLocaleString"; "toString"; "valueOf"; "__proto__"; "__defineGetter__";
   "__defineSetter__"; "__lookupGetter__"; "__lookupSetter__"].

(** [BankAustralia.CategoryOverrides[key]]; [None] is [undefined]. *)
Definition CategoryOverrides_get (key : string) : option member :=
  if String.eqb key "Liquor Store, Restricted" then Some (Entry "Groceries")
  else if existsb (String.eqb key) inheritedKeys then Some (Inherited key)
  else None.

(** Copies of a transaction with one more field, as [{...transaction, f: v}]. *)
Definition with_payee (v : option UUID) (t : ITransaction) : ITransaction :=
  mkTransaction (id t) (account t) (date t) (amount t) v (payee_name t)
    (imported_payee t) (category t) (notes t) (imported_id t) (transfer_id t)
    (cleared t).
Definition with_payee_name (v : option string) (t : ITransaction) : ITransaction :=
  mkTransaction (id t) (account t) (date t) (amount t) (payee t) v
    (imported_payee t) (category t) (notes t) (imported_id t) (transfer_id t)
    (cleared t).
Definition with_category (v : option UUID) (t : ITransaction) : ITransaction :=
  mkTransaction (id t) (account t) (date t) (amount t) (payee t) (payee_name t)
    (imported_payee t) v (notes t) (imported_id t) (transfer_id t) (cleared t).
Definition with_imported_id (v : option string) (t : ITransaction) : ITransaction :=
  mkTransaction (id t) (account t) (date t) (amount t) (payee t) (payee_name t)
    (imported_payee t) (category t) (notes t) v (transfer_id t) (cleared t).
Definition with_cleared (v : option bool) (t : ITransaction) : ITransaction :=
  mkTransaction (id t) (account t) (date t) (amount t) (payee t) (payee_name t)
    (imported_payee t) (category t) (notes t) (imported_id t) (transfer_id t) v.

(** The messages of the errors the classifier throws. *)
Definition AccountNotFoundError (accountNumber : option string) : exn :=
  Error ("Unable to find account with account number: "
         +:+ JsString.interpolate accountNumber).
Definition TransferPayeeNotFoundError (accountId : UUID) : exn :=
  Error ("Unable to find transfer payee for account: " +:+ accountId
         +:+ ", this should have been created when the account was created").
Definition ParseError (what narrative : string) : exn :=
  Error ("Unable to extract " +:+ what +:+ ": " +:+ narrative).
Definition UnhandledError (kind : string) (row : CSVDataRow) : exn :=
  Error ("Unhandled " +:+ kind +:+ " transaction type: " +:+ Description row
         +:+ " | " +:+ Long_description row).
Definition UnknownTypeError (row : CSVDataRow) : exn :=
  Error ("Unknown transaction type: " +:+ Transaction_type row).

Section BankAustralia.
Context `{env : Host}.
(** [this._idMapping] *)
Variable idMapping : gmap string UUID.

Import JsString.

(** [this._idMapping.get(key)] for a key that may be [undefined] *)
Definition idMapping_get (key : option string) : option UUID :=
  match key with
  | Some k => idMapping !! k
  | None => None
  end.

(** The destination of a transfer: the mapped account of the captured
    bank account number and the transfer payee of that account. *)
Definition resolveTransferPayee (bankAccountNumber : option string) : M IPayee :=
  let actualAccountId := idMapping_get bankAccountNumber in
  if falsy actualAccountId then throw (AccountNotFoundError bankAccountNumber) else
  let actualAccountId := default EmptyString actualAccountId in
  let* transferPayee := findTransferPayee actualAccountId in
  match transferPayee with
  | None => throw (TransferPayeeNotFoundError actualAccountId)
  | Some p => ret p
  end.

Definition interestLabels : list string :=
  ["Interest Credit"; "Credit Card Interest"; "Cash Advance Fee"].

Definition parseTransactionTypeAllAsync (row : CSVDataRow) (transaction : ITransaction)
  : M (option ITransaction) :=
  let long := Long_description row in
  let otherwise : M (option ITransaction) :=
    ret (Some (with_cleared (Some false) transaction)) in
  if String.eqb (Description row) "Internet Transfer" then
    if startsWith long "Transfer to " then
      match RegExp.exec Patterns.transferTo long with
      | None => throw (ParseError "bank account number from transfer" long)
      | Some matches =>
          let* transferPayee := resolveTransferPayee (RegExp.group 1 matches) in
          ret (Some (with_payee (payee_id transferPayee) transaction))
      end
    else if startsWith long "Received from" then ret None
    else otherwise
  else if existsb (String.eqb long) interestLabels then
    let* found := findCategory "Interest" in
    let* category :=
      match found with
      | Some c => ret c
      | None => createCategoryAsync (inr "Interest")
      end in
    ret (Some (with_category (cat_id category)
                 (with_payee_name (Some PayeeName) transaction)))
  else if String.eqb (Description row) "Internet Ext Transfer" then
    match RegExp.exec Patterns.extTransfer long with
    | None => throw (ParseError "reference and payee details from transfer" long)
    | Some matches =>
        ret (Some (with_imported_id (RegExp.group 1 matches)
                     (with_payee_name (RegExp.group 2 matches) transaction)))
    end
  else if startsWith long "Net tfr" then
    if startsWith long "Net tfr to" then
      match RegExp.exec Patterns.netTfrTo long with
      | None => throw (ParseError "reference and payee details from transfer" long)
      | Some matches =>
          let* transferPayee := resolveTransferPayee (RegExp.group 1 matches) in
          ret (Some (with_imported_id (RegExp.group 2 matches)
                       (with_payee (payee_id transferPayee) transaction)))
      end
    else if startsWith long "Net tfr received from" then ret None
    else otherwise
  else otherwise.

Definition parseTransactionTypeAllWdls (row : CSVDataRow) (transaction : ITransaction)
  : M (option ITransaction) :=
  let long := Long_description row in
  if startsWith long "Osko Payment To" then
    match RegExp.exec Patterns.oskoTo long with
    | None => throw (ParseError "payee name and reference number from Osko payment" long)
    | Some matches =>
        ret (Some (with_imported_id (RegExp.group 2 matches)
                     (with_payee_name (RegExp.group 1 matches) transaction)))
    end
  else if startsWith long "Direct Debit" then
    match RegExp.exec Patterns.directDebit long with
    | None => throw (ParseError "payee name from direct debit" long)
    | Some matches =>
        ret (Some (with_payee_name (RegExp.group 1 matches) transaction))
    end
  else throw (UnhandledError "all wdls" row).

Definition parseTransactionTypeAllDeposits (row : CSVDataRow) (transaction : ITransaction)
  : M (option ITransaction) :=
  let long := Long_description row in
  if startsWith long "Osko Payment From" then
    match RegExp.exec Patterns.oskoFrom long with
    | None => throw (ParseError "payee name from Osko payment" long)
    | Some matches =>
        ret (Some (with_payee_name (RegExp.group 1 matches) transaction))
    end
  else if startsWith long "Direct Credit" then
    match RegExp.exec Patterns.directCredit long with
    | None => throw (ParseError "payee name from direct credit" long)
    | Some matches =>
        ret (Some (with_payee_name (RegExp.group 1 matches) transaction))
    end
  else if startsWith long "SWIFT" then
    ret (Some (with_payee_name (Some (Description row)) transaction))
  else throw (UnhandledError "all deposits" row).

Definition parseTransactionTypeBPay (row : CSVDataRow) (transaction : ITransaction)
  : M (option ITransaction) :=
  let long := Long_description row in
  match RegExp.exec Patterns.bpay long with
  | None => throw (ParseError "payee name and reference number from BPay payment" long)
  | Some matches =>
      let payeeName := RegExp.group 1 matches in
      let billerCode := RegExp.group 2 matches in
      let receiptNumber := RegExp.group 3 matches in
      ret (Some (with_imported_id
                   (Some (interpolate billerCode +:+ "-" +:+ interpolate receiptNumber))
                   (with_payee_name payeeName transaction)))
  end.

(** [CategoryOverrides[categoryList] ?? categoryList.split(',').pop()?.trim()] *)
Definition visaCategoryName (categoryList : string) : member :=
  match CategoryOverrides_get categoryList with
  | Some v => v
  | None => Entry (trim (List.last (split "," categoryList) EmptyString))
  end.

(** The payee of a card purchase: the merchant name up to its first
    parenthesis, or the text that one of two patterns finds in the long
    description, in title case. *)
Definition visaPayeeName (row : CSVDataRow) : M string :=
  let merchantName := Merchant_name row in
  if truthy merchantName
     && negb (String.eqb merchantName "PayPal")
     && negb (String.eqb merchantName "Square")
  then ret (trim (List.hd EmptyString (split "(" merchantName)))
  else
    let regex :=
      if String.eqb merchantName "PayPal" || String.eqb merchantName "Square"
      then Patterns.gateway else Patterns.visa in
    match RegExp.exec regex (Long_description row) with
    | None => throw (ParseError "payee name from VISA payment" (Long_description row))
    | Some matches =>
        match RegExp.group 1 matches with
        | Some txt => ret (trim (toTitleCase txt))
        | None => throw (TypeError "Cannot read properties of undefined (reading 'replace')")
        end
    end.

(** [categories.find(c => c.name === category_name)], then the creation of
    the category when none was found and the name is not empty. *)
Definition visaCategory (category_name : member) : M (option ICategory) :=
  match category_name with
  | Entry name =>
      let* found := findCategory name in
      match found with
      | Some c => ret (Some c)
      | None =>
          if truthy name then
            let* c := createCategoryAsync (inr name) in ret (Some c)
          else ret None
      end
  | Inherited key =>
      let* c := createInheritedAsync key in ret (Some c)
  end.

Definition parseTransactionTypeVisaAsync (row : CSVDataRow) (transaction : ITransaction)
  : M (option ITransaction) :=
  let categoryList := Category_list row in
  let category_name := visaCategoryName categoryList in
  let* payee_name := visaPayeeName row in
  let* category := visaCategory category_name in
  let imported_id :=
    match RegExp.exec Patterns.referenceNumber (Long_description row) with
    | None => None
    | Some referenceNumberMatches => RegExp.group 1 referenceNumberMatches
    end in
  ret (Some (with_imported_id imported_id
               (with_category (match category with
                               | Some c => cat_id c
                               | None => None
                               end)
                  (with_payee_name (Some payee_name) transaction)))).

(** [debit === 0]: true of both zeros, false of [NaN]. *)
Definition isZero (x : float) : bool := PrimFloat.eqb x 0%float.

Definition csvDataRowToTransactionAsync (row : CSVDataRow) : M (option ITransaction) :=
  let date := extractDate (Effective_date row) in
  let debit := amountToInteger (parseFloat (Debit_amount row)) in
  let credit := amountToInteger (parseFloat (Credit_amount row)) in
  if isZero debit && isZero credit then ret None else
  let notes :=
    join "|" [Long_description row; Merchant_name row; Category_list row] in
  let imported_payee := Long_description row in
  let account := idMapping !! Account_number row in
  if falsy account then throw (AccountNotFoundError (Some (Account_number row))) else
  let account := default EmptyString account in
  let transaction :=
    mkTransaction None account date (Some (PrimFloat.sub credit debit)) None None
      (Some imported_payee) None (Some notes) None None (Some true) in
  let type := Transaction_type row in
  if String.eqb type "ALL" then parseTransactionTypeAllAsync row transaction
  else if String.eqb type "ALL WDLS" then parseTransactionTypeAllWdls row transaction
  else if String.eqb type "ALL DEPOSITS" then parseTransactionTypeAllDeposits row transaction
  else if String.eqb type "BPAY" then parseTransactionTypeBPay row transaction
  else if String.eqb type "VISA" then parseTransactionTypeVisaAsync row transaction
  else throw (UnknownTypeError row).

(** The loop of [importTransactionsAsync] over the rows of one file: the
    candidates in file order; the first row that throws ends it. *)
Fixpoint collectTransactions (csv : list CSVDataRow) : M (list ITransaction) :=
  match csv with
  | [] => ret []
  | row :: rest =>
      let* transaction := csvDataRowToTransactionAsync row in
      let* transactions := collectTransactions rest in
      ret (match transaction with
           | Some t => t :: transactions
           | None => transactions
           end)
  end.

(** The base candidate of a row, when the row gets as far as having one. *)
Definition baseTransaction (row : CSVDataRow) (account : UUID) : ITransaction :=
  let debit := amountToInteger (parseFloat (Debit_amount row)) in
  let credit := amountToInteger (parseFloat (Credit_amount row)) in
  mkTransaction None account (extractDate (Effective_date row))
    (Some (PrimFloat.sub credit debit)) None None
    (Some (Long_description row)) None
    (Some (join "|"
             [Long_description row; Merchant_name row; Category_list row]))
    None None (Some true).

End BankAustralia.

(** ** Notions used in the statements *)

(** [t] carries the fields of the base candidate that no branch sets. *)
Definition extends (base t : ITransaction) : Prop :=
  account t = account base /\ date t = date base /\ amount t = amount base /\
  imported_payee t = imported_payee base /\ notes t = notes base.

(** The taxonomy events that concern the category [name]. *)
Definition about (name : string) (e : event) : Prop :=
  e = FindCategory name \/
  exists group, e = CreateCategory (mkCategory None name group None).

(** The group that [createCategoryAsync] picks for a name. *)
Definition groupFor (name : string) (st : Actual) : option UUID :=
  if String.eqb name "Interest" then incomeCategoryGroupId st
  else defaultCategoryGroupId st.

(** The bank account number that the pattern of a transfer captures. *)
Definition destinationOf (pattern : RegExp.regex) (long : string) : option string :=
  RegExp.exec pattern long ≫= RegExp.group 1.

Section Runs.
Context `{env : Host}.
Variable idMapping : gmap string UUID.

(** The row throws [e] in the state [st], and so does the loop over any file
    in which the rows before it are classified and lead to [st]: no list of
    candidates comes out of it. *)
Definition abortsWith (row : CSVDataRow) (st : Actual) (e : exn) : Prop :=
  csvDataRowToTransactionAsync idMapping row st = (Throws e, st) /\
  forall before rest st0 ts,
    collectTransactions idMapping before st0 = (Returns ts, st) ->
    collectTransactions idMapping (before ++ row :: rest) st0 = (Throws e, st).

End Runs.

(** ** The matcher, seen from outside *)

Module RegExpSpec.
Import JsString RegExp.

(** The loop of [run] on a quantifier, with its fuel and the matcher of the
    quantified expression as arguments. *)
Definition starLoop (step : string -> captures -> cont -> option (captures * string))
    (greedy : bool) (k : cont) : nat -> string -> captures -> option (captures * string) :=
  fix loop (n : nat) (s : string) (caps : captures) {struct n}
    : option (captures * string) :=
    match n with
    | O => k s caps
    | S n' =>
        let again (_ : unit) :=
          step s caps (fun s1 caps1 =>
            if (String.length s1 <? String.length s)%nat
            then loop n' s1 caps1 else None) in
        if greedy then
          match again tt with
          | Some m => Some m
          | None => k s caps
          end
        else
          match k s caps with
          | Some m => Some m
          | None => again tt
          end
    end.

(** Every character of [s] is in the class [p]. *)
Fixpoint allChars (p : ascii -> bool) (s : string) : bool :=
  match s with
  | EmptyString => true
  | String c s' => p c && allChars p s'
  end.

(** A string of one or more characters of the class [p]. *)
Definition someChars (p : ascii -> bool) (s : string) : Prop :=
  s <> EmptyString /\ allChars p s = true.

(** [s] does not go on with a character of the class [p]. *)
Definition stopsAt (p : ascii -> bool) (s : string) : Prop :=
  match s with
  | EmptyString => True
  | String c _ => p c = false
  end.

End RegExpSpec.

(** ** More notions used in the statements *)

(** The fields that a branch may have set on a candidate: never a payee id
    together with a payee name, never the id or the transfer id; and a
    candidate that is not cleared has nothing extracted at all. *)
Definition wellShaped (t : ITransaction) : Prop :=
  id t = None /\ transfer_id t = None /\
  (payee t = None \/ payee_name t = None) /\
  (cleared t = Some true \/
   (cleared t = Some false /\ payee t = None /\ payee_name t = None /\
    category t = None /\ imported_id t = None)).

(** The base candidate has no field of a branch yet. *)
Definition blank (t : ITransaction) : Prop :=
  id t = None /\ transfer_id t = None /\ payee t = None /\ payee_name t = None /\
  category t = None /\ imported_id t = None /\ cleared t = Some true.

(** The ledger cache is as it was, but for the accesses recorded since. *)
Definition cacheKept (st st' : Actual) : Prop :=
  isInitialised st' = isInitialised st /\ payees st' = payees st /\
  defaultCategoryGroupId st' = defaultCategoryGroupId st /\
  incomeCategoryGroupId st' = incomeCategoryGroupId st /\
  categories st' = categories st /\
  exists new, trace st' = trace st ++ new.

(** The ledger cache is as it was, but for at most one category appended
    to it and the accesses recorded since. *)
Definition cacheGrows (st st' : Actual) : Prop :=
  isInitialised st' = isInitialised st /\ payees st' = payees st /\
  defaultCategoryGroupId st' = defaultCategoryGroupId st /\
  incomeCategoryGroupId st' = incomeCategoryGroupId st /\
  (exists added, categories st' = categories st ++ added /\ (length added <= 1)%nat) /\
  exists new, trace st' = trace st ++ new.

(** The category that a search of the cache by name gives. *)
Definition cached (st : Actual) (name : string) : option ICategory :=
  List.find (fun c => String.eqb (cat_name c) name) (categories st).

(** What stands for the recipient of an Osko payment between the name and
    the reference: an address (word characters, at signs and dots), an
    account (the word "Account" and word characters, blanks and dashes) or a
    phone number (digits, plus signs and dashes). *)
Definition recipient (via : string) : Prop :=
  RegExpSpec.someChars (RegExp.anyOf [JsString.isWord; RegExp.oneOf "@."]) via
  \/ (exists x, via = "Account " +:+ x /\
                RegExpSpec.someChars
                  (RegExp.anyOf [JsString.isWord; JsString.isSpace; RegExp.oneOf "-"]) x)
  \/ RegExpSpec.someChars (RegExp.anyOf [RegExp.oneOf "+"; JsString.isDigit; RegExp.oneOf "-"]) via.

(** The ASCII characters: on text made of them, [toUpperCase] and
    [toLowerCase] of [JsString] are those of JS. *)
Definition isAscii (c : ascii) : bool := (JsString.code c <? 128)%nat.

(** ** The formats of the account ids and the account mapping of [src/index.ts] *)

Module Formats.
Import JsString RegExp RegExpSpec.

(** [r{n}] *)
Fixpoint repeatN (n : nat) (r : regex) : regex :=
  match n with
  | O => Eps
  | S n' => Seq r (repeatN n' r)
  end.

(** [/^r$/.test(s)]: without the [m] flag, [^] holds at the start of the
    text only and [$] at its end only, so [r] has to match from the start
    and what it leaves has to be empty. *)
Definition testAnchored (r : regex) (s : string) : bool :=
  match run r s [] (fun s1 caps1 =>
          match s1 with
          | EmptyString => Some (caps1, s1)
          | String _ _ => None
          end) with
  | Some _ => true
  | None => false
  end.

(** [r.test(s)] *)
Definition test (r : regex) (s : string) : bool :=
  match exec r s with
  | Some _ => true
  | None => false
  end.

(** [[0-9a-fA-F]] *)
Definition isHex : ascii -> bool :=
  anyOf [isDigit; between 97 102; between 65 70].

(** The regex of [Actual.CheckAccountIdFormat], which has no anchors. *)
Definition uuidRe : regex :=
  Patterns.seq [repeatN 8 (Chr isHex); Lit "-"; repeatN 4 (Chr isHex); Lit "-";
                repeatN 4 (Chr isHex); Lit "-"; repeatN 4 (Chr isHex); Lit "-";
                repeatN 12 (Chr isHex)].

(** A string of exactly [n] characters of the class [p]. *)
Definition exactly (n : nat) (p : ascii -> bool) (s : string) : Prop :=
  String.length s = n /\ allChars p s = true.

(** The five groups of hexadecimal digits of a UUID, with their dashes. *)
Definition uuidShaped (u : string) : Prop :=
  exists a b c d e,
    u = a +:+ "-" +:+ b +:+ "-" +:+ c +:+ "-" +:+ d +:+ "-" +:+ e /\
    exactly 8 isHex a /\ exactly 4 isHex b /\ exactly 4 isHex c /\
    exactly 4 isHex d /\ exactly 12 isHex e.

End Formats.

Module BankAustraliaFormat.
Import JsString RegExp Formats.

(** [BankAustralia.CheckAccountIdFormat]; [None] is [undefined], which is
    what the second part of a mapping without [=] is. *)
Definition CheckAccountIdFormat (accountId : option string) : bool :=
  match accountId with
  | None => false
  | Some s => if negb (truthy s) then false else testAnchored (repeatN 8 (Chr isDigit)) s
  end.

End BankAustraliaFormat.

Module ActualFormat.
Import JsString RegExp Formats.

(** [Actual.CheckAccountIdFormat] *)
Definition CheckAccountIdFormat (accountId : option string) : bool :=
  match accountId with
  | None => false
  | Some s => if negb (truthy s) then false else test uuidRe s
  end.

End ActualFormat.

(** One pass of the loop of [src/index.ts] over the [--account-mapping]
    options: the pair of a mapping string, or [None] where the script prints
    an error and exits with status 1. *)
Definition parseMapping (mappingStr : string) : option (string * UUID) :=
  let parts := JsString.split "=" mappingStr in
  let bankAccountId := nth_error parts 0 in
  let actualAccountId := nth_error parts 1 in
  if negb (BankAustraliaFormat.CheckAccountIdFormat bankAccountId)
     || negb (ActualFormat.CheckAccountIdFormat actualAccountId)
  then None
  else
    match bankAccountId, actualAccountId with
    | Some b, Some a => Some (b, a)
    | _, _ => None
    end.

(** The loop itself, from the mapping built so far: [mapping.set] for each
    valid string, and no mapping at all once a string is not valid. *)
Fixpoint readMappings (accountMapping : list string) (mapping : gmap string UUID)
  : option (gmap string UUID) :=
  match accountMapping with
  | [] => Some mapping
  | mappingStr :: rest =>
      match parseMapping mappingStr with
      | None => None
      | Some (bankAccountId, actualAccountId) =>
          readMappings rest (<[bankAccountId := actualAccountId]> mapping)
      end
  end.

(** [s] has no character [sep]. *)
Definition noChar (sep : ascii) (s : string) : Prop :=
  RegExpSpec.allChars (fun c => negb (Ascii.eqb c sep)) s = true.

(** A pair of the account mapping whose two sides passed their checks. *)
Definition validPair (k : string) (v : UUID) : Prop :=
  Formats.exactly 8 JsString.isDigit k /\
  ActualFormat.CheckAccountIdFormat (Some v) = true.

(** ** The start of a session, [initialiseActualAsync] of [src/actual.ts] *)

(** [!c.is_income] and [!!c.is_income] *)
Definition isIncome (c : ICategory) : bool :=
  match cat_is_income c with
  | Some true => true
  | _ => false
  end.

(** [list.filter(p)[0].group_id]: a [TypeError] when nothing passes [p]. *)
Definition firstGroupId (p : ICategory -> bool) (l : list ICategory) : M (option UUID) :=
  match List.filter p l with
  | c :: _ => ret (cat_group_id c)
  | [] => throw (TypeError "Cannot read properties of undefined (reading 'group_id')")
  end.

(** What [initialiseActualAsync] does once the ledger has answered
    [getPayees] with [fetchedPayees] and [getCategories] with
    [fetchedCategories] ([None] is a missing answer): it keeps both, derives
    the two group ids from the categories and sets the flag.  The calls to
    the ledger before that, and the accounts, are not part of this state. *)
Definition initialiseFrom (fetchedPayees : list IPayee)
    (fetchedCategories : option (list ICategory)) : M unit :=
  do modify (fun st =>
       mkActual (isInitialised st) fetchedPayees (default [] fetchedCategories)
                (defaultCategoryGroupId st) (incomeCategoryGroupId st) (trace st)) then
  match fetchedCategories with
  | None => throw (Error "No categories found")
  | Some cats =>
      let* dflt := firstGroupId (fun c => negb (isIncome c)) cats in
      do modify (fun st =>
           mkActual (isInitialised st) (payees st) (categories st)
                    dflt (incomeCategoryGroupId st) (trace st)) then
      let* inc := firstGroupId isIncome cats in
      do modify (fun st =>
           mkActual (isInitialised st) (payees st) (categories st)
                    (defaultCategoryGroupId st) inc (trace st)) then
      modify (fun st =>
        mkActual true (payees st) (categories st)
                 (defaultCategoryGroupId st) (incomeCategoryGroupId st) (trace st))
  end.

(** ** The batches of [importTransactionsAsync] of [src/bank_australia.ts] *)

Module Batches.
Import JsString RegExpSpec.

(** The object that [reduce] fills: its own keys in the order they were
    created, each with its array of transactions. *)
Definition groups : Type := list (string * list ITransaction).

Fixpoint ownGet (acc : groups) (k : string) : option (list ITransaction) :=
  match acc with
  | [] => None
  | (k', g) :: rest => if String.eqb k' k then Some g else ownGet rest k
  end.

(** [acc[k].push(t)] on an own key *)
Fixpoint push (k : string) (t : ITransaction) (acc : groups) : groups :=
  match acc with
  | [] => []
  | (k', g) :: rest =>
      if String.eqb k' k then (k', g ++ [t]) :: rest else (k', g) :: push k t rest
  end.

(** The callback of [reduce].  A key that is not an own key but a member
    that every object inherits is truthy, so no array is made for it, and it
    has no [push]. *)
Definition groupStep (acc : groups) (transaction : ITransaction) : result groups :=
  let k := account transaction in
  match ownGet acc k with
  | Some _ => Returns (push k transaction acc)
  | None =>
      if existsb (String.eqb k) inheritedKeys
      then Throws (TypeError "acc[transaction.account].push is not a function")
      else Returns (acc ++ [(k, [transaction])])
  end.

Fixpoint reduce (transactions : list ITransaction) (acc : groups) : result groups :=
  match transactions with
  | [] => Returns acc
  | t :: rest =>
      match groupStep acc t with
      | Returns acc' => reduce rest acc'
      | Throws e => Throws e
      end
  end.

(** The number that a string of digits writes. *)
Fixpoint numberOf (n : N) (s : string) : N :=
  match s with
  | EmptyString => n
  | String c s' => numberOf (n * 10 + N.of_nat (code c - 48)) s'
  end.

(** An array index: the decimal writing, without leading zero, of a number
    below 2^32 - 1. *)
Definition isArrayIndex (k : string) : bool :=
  match k with
  | EmptyString => false
  | String c rest =>
      allChars isDigit k
      && (negb (Ascii.eqb c "0") || negb (truthy rest))
      && (numberOf 0 k <=? 4294967294)%N
  end.

Definition indexOrder (a b : string * list ITransaction) : Prop :=
  (numberOf 0 (fst a) <= numberOf 0 (fst b))%N.

#[export] Instance indexOrder_dec : RelDecision indexOrder.
Proof. intros a b. unfold indexOrder. apply N.le_dec. Defined.

(** The order in which [for (const accountId in ...)] visits the keys:
    array indices by their number, then the other keys as they were
    created. *)
Definition forIn (acc : groups) : groups :=
  merge_sort indexOrder (filter (fun kg => Is_true (isArrayIndex (fst kg))) acc)
  ++ filter (fun kg => ~ Is_true (isArrayIndex (fst kg))) acc.

(** The batches of a file, in the order they are submitted. *)
Definition groupTransactions (transactions : list ITransaction) : result groups :=
  match reduce transactions [] with
  | Returns acc => Returns (forIn acc)
  | Throws e => Throws e
  end.

(** The transactions of an account among those of the file, in file order. *)
Definition ofAccount (k : string) (transactions : list ITransaction) : list ITransaction :=
  List.filter (fun t => String.eqb (account t) k) transactions.

(** The accounts of the transactions, each once, in the order of their
    first transaction. *)
Fixpoint firstSeen (ks : list string) : list string :=
  match ks with
  | [] => []
  | k :: rest => k :: List.filter (fun k' => negb (String.eqb k' k)) (firstSeen rest)
  end.

End Batches.

(** What [reduce] keeps true of its accumulator, [seen] being the
    transactions it went through. *)
Definition grouped (seen : list ITransaction) (acc : Batches.groups) : Prop :=
  (forall k g, In (k, g) acc -> g <> [] /\ g = Batches.ofAccount k seen) /\
  List.NoDup (map fst acc) /\
  (forall t, In t seen -> In (account t) (map fst acc)) /\
  map fst acc = Batches.firstSeen (map account seen) /\
  (forall k, In k (map fst acc) -> existsb (String.eqb k) inheritedKeys = false).

(** [interface IAccount] of [src/actual.ts] *)
Record IAccount : Type := mkAccount {
  acc_id : option UUID;
  acc_name : string;
  acc_type : string;
  acc_offbudget : option bool;
  acc_closed : option bool
}.

(** A call of [importTransactions] of [@actual-app/api]. *)
Definition submission : Type := (option UUID * list ITransaction)%type.

Section Submission.
Context `{env : Host}.
(** [this._idMapping], [this._actual.accounts] and the function
    [importTransactions] of [@actual-app/api], whose answer is only logged. *)
Variable idMapping : gmap string UUID.
Variable accounts : list IAccount.
Variable importTransactions : option UUID -> list ITransaction -> result unit.

(** [this._accounts.find((a) => a.id === account || a.name === account)] *)
Definition findAccount (account : string) : option IAccount :=
  List.find (fun a =>
               match acc_id a with
               | Some i => String.eqb i account
               | None => false
               end || String.eqb (acc_name a) account) accounts.

(** [Actual.importTransactionsAsync] up to its call of the ledger: the
    account the batch goes to. *)
Definition accountFor (account : string) (st : Actual) : result IAccount :=
  if negb (isInitialised st) then Throws notInitialised
  else match findAccount account with
       | None => Throws (Error ("Account " +:+ account +:+ " not found"))
       | Some accountObj => Returns accountObj
       end.

(** The loop over the batches: the calls of the ledger that were made, in
    order, and how the loop ended. *)
Fixpoint submitAll (accountGroupedTransactions : Batches.groups) (st : Actual)
  : list submission * result unit :=
  match accountGroupedTransactions with
  | [] => ([], Returns tt)
  | (accountId, transactions) :: rest =>
      match accountFor accountId st with
      | Throws e => ([], Throws e)
      | Returns accountObj =>
          match importTransactions (acc_id accountObj) transactions with
          | Throws e => ([(acc_id accountObj, transactions)], Throws e)
          | Returns _ =>
              let (calls, r) := submitAll rest st in
              ((acc_id accountObj, transactions) :: calls, r)
          end
      end
  end.

(** [BankAustralia.importTransactionsAsync] on the rows of a file, between
    the reading of the file and the final sync: all rows are classified,
    then the candidates are grouped by account, then each batch is
    submitted. *)
Definition importRows (csv : list CSVDataRow) (st : Actual)
  : (list submission * result unit) * Actual :=
  match collectTransactions idMapping csv st with
  | (Throws e, st') => (([], Throws e), st')
  | (Returns transactions, st') =>
      match Batches.groupTransactions transactions with
      | Throws e => (([], Throws e), st')
      | Returns accountGroupedTransactions =>
          (submitAll accountGroupedTransactions st', st')
      end
  end.

End Submission.

(** ** A host, a ledger and rows for the examples *)

Module Sample.

Definition sampleDate : string := "12:00am Sat 31 December, 2022".

(** A host in the UTC time zone.  Its [parse] knows the date of the sample
    rows in the comment of [readCsv] (midnight UTC of 31 December 2022) and
    gives an Invalid Date for everything else; its [parseFloat] knows the
    amounts used below, on which [Math.round(n * 100)] is [n * 100]; its
    ledger names a new category after the category's name. *)
#[export] Instance host : Host := {|
  parse s _ := if String.eqb s sampleDate then TimeValue 1672444800000 else InvalidDate;
  localHours t := ((t / 3600000) mod 24)%Z;
  withLocalHours t h :=
    TimeValue (t - ((t / 3600000) mod 24) * 3600000 + h * 3600000)%Z;
  parseFloat s :=
    if String.eqb s "10.00" then 10%float
    else if String.eqb s "25.50" then 25.5%float
    else if String.eqb s "0.0" then 0%float
    else nan;
  amountToInteger n := (n * 100)%float;
  createCategory _ c := Returns ("id-of-" +:+ cat_name c);
  createInherited _ key := Throws (Error ("cannot create " +:+ key))
|}.

Definition cheque : UUID := "11111111-1111-1111-1111-111111111111".
Definition savings : UUID := "22222222-2222-2222-2222-222222222222".

Definition idMapping : gmap string UUID :=
  <["12345678" := cheque]> (<["55555555" := savings]> ∅).

Definition ledger : Actual := {|
  isInitialised := true;
  payees := [ mkPayee (Some "payee-woolworths") "Woolworths" None None;
              mkPayee (Some "payee-savings") "Savings" None (Some savings) ];
  categories := [ mkCategory (Some "cat-salary") "Salary" (Some "group-income") (Some true);
                  mkCategory (Some "cat-rent") "Rent" (Some "group-expense") None ];
  defaultCategoryGroupId := Some "group-expense";
  incomeCategoryGroupId := Some "group-income";
  trace := []
|}.

Definition row (acct type debit credit desc long merchant cats : string) : CSVDataRow :=
  mkRow acct type sampleDate sampleDate "" debit credit "-1234.12" desc long "0"
        merchant cats.

(** The row of the comment of [readCsv] that carries a balance only. *)
Definition balanceRow : CSVDataRow :=
  row "12345678" "ALL" "0.0" "0.0"
      "Purchase/Base Interest - Period End Balance: $1,111.11"
      "Purchase/Base Interest - Period End Balance: $1,111.11" "" "".

(** The same row in the export of an account that is not mapped. *)
Definition unmappedBalanceRow : CSVDataRow :=
  row "99999999" "ALL" "0.0" "0.0"
      "Purchase/Base Interest - Period End Balance: $1,111.11"
      "Purchase/Base Interest - Period End Balance: $1,111.11" "" "".

Definition unmappedRow : CSVDataRow :=
  row "99999999" "VISA" "10.00" "0.0" "PURCHASE"
      "VISA-MY SUPERMARKET 12345 SYDNEY AU#000000(Ref.1111111111) Android Pay"
      "My Supermarket (Sydney)" "Supermarket, Groceries".

Definition cloudflareNarrative : string :=
  "VISA-CLOUDFLARE HTTPSWWW.CLOUUSFRGN AMT-11.1111111#123455(Ref.0123456789)".

Definition cloudflareRow : CSVDataRow :=
  row "12345678" "VISA" "10.00" "0.0" "PURCHASE" cloudflareNarrative "" "".

Definition liquorRow : CSVDataRow :=
  row "12345678" "VISA" "25.50" "0.0" "PURCHASE"
      "VISA-THE BOTTLE SHOP 12345 SYDNEY AU#000000(Ref.2222222222)"
      "The Bottle Shop (Sydney)" "Liquor Store, Restricted".

(** A transfer to the savings account, as the bank exports it. *)
Definition transferRow : CSVDataRow :=
  row "12345678" "ALL" "10.00" "0.0" "Internet Transfer"
      "Transfer to SAV 55555555" "" "".

(** The same narrative under another short description. *)
Definition relabelledTransferRow : CSVDataRow :=
  row "12345678" "ALL" "10.00" "0.0" "Scheduled Transfer"
      "Transfer to SAV 55555555" "" "".

Definition transferToUnmappedRow : CSVDataRow :=
  row "12345678" "ALL" "10.00" "0.0" "Internet Transfer"
      "Transfer to SAV 77777777" "" "".

Definition receivedRow : CSVDataRow :=
  row "55555555" "ALL" "0.0" "10.00" "Internet Transfer"
      "Received from CHQ 12345678" "" "".

Definition relabelledReceivedRow : CSVDataRow :=
  row "55555555" "ALL" "0.0" "10.00" "Scheduled Transfer"
      "Received from CHQ 12345678" "" "".

Definition netReceivedRow : CSVDataRow :=
  row "55555555" "ALL" "0.0" "10.00" "Internet Transfer"
      "Net tfr received from CHQ 12345678" "" "".

(** A card purchase whose date column holds something else. *)
Definition undatedRow : CSVDataRow :=
  mkRow "12345678" "VISA" "31/12/2022" "31/12/2022" "" "10.00" "0.0" "-1234.12"
        "PURCHASE" cloudflareNarrative "0" "" "".

End Sample.

(** ** More rows, a command line and a ledger for the examples *)

Module Examples.
Import Sample.

Definition bpayRow : CSVDataRow :=
  row "12345678" "BPAY" "10.00" "0.0" "BPAY"
      "Internet BPay to Energy Co - Biller Code 12345 - Receipt No 987654321" "" "".

Definition interestRow : CSVDataRow :=
  row "55555555" "ALL" "0.0" "10.00" "Interest" "Interest Credit" "" "".

(** The first Osko payment of the comments of [parseTransactionTypeAllWdls],
    and the one of [parseTransactionTypeAllDeposits]. *)
Definition oskoRow : CSVDataRow :=
  row "12345678" "ALL WDLS" "10.00" "0.0" "Osko Payment"
      "Osko Payment To PERSON ONE person.one@example.com Ref#123456789" "" "".

Definition oskoFromRow : CSVDataRow :=
  row "55555555" "ALL DEPOSITS" "0.0" "10.00" "Osko Payment"
      "Osko Payment From PERSON ONE" "" "".

(** A row of type 'ALL' in which nothing is recognised. *)
Definition otherRow : CSVDataRow :=
  row "12345678" "ALL" "10.00" "0.0" "Fee" "Monthly account fee" "" "".

(** A card purchase exported with a truncated account number. *)
Definition truncatedRow : CSVDataRow :=
  row "1234" "VISA" "10.00" "0.0" "PURCHASE" cloudflareNarrative "" "".

(** The rows of a file, the first of which carries a balance only. *)
Definition file : list CSVDataRow :=
  [balanceRow; cloudflareRow; interestRow; transferRow; liquorRow].

(** The same file with a row of an unmapped account in it. *)
Definition brokenFile : list CSVDataRow :=
  [balanceRow; cloudflareRow] ++ unmappedRow :: [transferRow].

(** The [--account-mapping] options that give [Sample.idMapping]. *)
Definition accountMapping : list string :=
  ["12345678=11111111-1111-1111-1111-111111111111";
   "55555555=22222222-2222-2222-2222-222222222222"].

(** The ledger once "Groceries" has been created for [liquorRow]. *)
Definition ledgerWithGroceries : Actual :=
  Eval vm_compute in
    snd (csvDataRowToTransactionAsync (env:=host) idMapping liquorRow ledger).

Definition accounts : list IAccount :=
  [ mkAccount (Some cheque) "Cheque" "checking" None None;
    mkAccount (Some savings) "Savings" "savings" None None ].

(** A ledger that takes every batch. *)
Definition importTransactions (_ : option UUID) (_ : list ITransaction) : result unit :=
  Returns tt.

(** A state of the [Actual] object before the session starts. *)
Definition fresh : Actual :=
  mkActual false [] [] None None [].

(** Candidates as the classifier leaves them for the catch-all. *)
Definition candidate (acct : UUID) (narrative : string) : ITransaction :=
  mkTransaction None acct InvalidDate None None None (Some narrative) None
    (Some narrative) None None (Some false).

Definition candidates : list ITransaction :=
  [candidate cheque "a"; candidate savings "b"; candidate cheque "c"].

(** The second candidate is filed under the name of a member that every
    object inherits. *)
Definition misfiled : list ITransaction :=
  [candidate cheque "a"; candidate "constructor" "b"].

End Examples.

(** ** Reasoning about computations *)

Section Monad.
Context {A B : Type}.

Lemma bind_returns (m : M A) (f : A -> M B) st b st' :
  bind m f st = (Returns b, st') ->
  exists a st1, m st = (Returns a, st1) /\ f a st1 = (Returns b, st').
Proof.
  unfold bind. destruct (m st) as [[a|e] st1]; intros Hrun.
  - exists a, st1. split; [reflexivity | exact Hrun].
  - discriminate Hrun.
Qed.

Lemma ret_returns (a b : A) st st' :
  ret a st = (Returns b, st') -> a = b /\ st = st'.
Proof. unfold ret. intros Hrun. injection Hrun as -> ->. split; reflexivity. Qed.

Lemma throw_returns (e : exn) (a : A) st st' :
  throw e st = (Returns a, st') -> False.
Proof. unfold throw. discriminate. Qed.

Lemma gets_returns (f : Actual -> A) (a : A) st st' :
  gets f st = (Returns a, st') -> a = f st /\ st' = st.
Proof. unfold gets. intros Hrun. injection Hrun as <- <-. split; reflexivity. Qed.

End Monad.

(** Inversion of a run that returned: binds are split, returns are
    substituted, throws are contradictions and tests are split in cases. *)
Ltac inv_run :=
  repeat match goal with
  | Hrun : bind _ _ _ = (Returns _, _) |- _ =>
      apply bind_returns in Hrun; destruct Hrun as (? & ? & ? & Hrun)
  | Hrun : ret _ _ = (Returns _, _) |- _ =>
      apply ret_returns in Hrun; destruct Hrun as [? ?]; subst
  | Hrun : throw _ _ = (Returns _, _) |- _ =>
      exfalso; exact (throw_returns _ _ _ _ Hrun)
  | Hrun : (if ?b then _ else _) _ = (Returns _, _) |- _ =>
      destruct b eqn:?
  | Hrun : (match ?x with Some _ => _ | None => _ end) _ = (Returns _, _) |- _ =>
      destruct x eqn:?
  | Hrun : (match ?x with Entry _ => _ | Inherited _ => _ end) _ = (Returns _, _) |- _ =>
      destruct x eqn:?
  | Heq : Some _ = Some _ |- _ => injection Heq as Heq; subst
  | Heq : Some _ = None |- _ => discriminate Heq
  | Heq : None = Some _ |- _ => discriminate Heq
  end.

(** Comparisons of two literal strings are decided by evaluation. *)
Ltac eval_eqb :=
  repeat match goal with
  | |- context [String.eqb ?a ?b] =>
      let v := eval vm_compute in (String.eqb a b) in
      match v with
      | true => change (String.eqb a b) with true
      | false => change (String.eqb a b) with false
      end
  end;
  cbv iota.

Lemma extends_refl t : extends t t.
Proof. repeat split. Qed.

Lemma extends_with_payee base t v : extends base t -> extends base (with_payee v t).
Proof. intros Hext. exact Hext. Qed.
Lemma extends_with_payee_name base t v :
  extends base t -> extends base (with_payee_name v t).
Proof. intros Hext. exact Hext. Qed.
Lemma extends_with_category base t v :
  extends base t -> extends base (with_category v t).
Proof. intros Hext. exact Hext. Qed.
Lemma extends_with_imported_id base t v :
  extends base t -> extends base (with_imported_id v t).
Proof. intros Hext. exact Hext. Qed.
Lemma extends_with_cleared base t v :
  extends base t -> extends base (with_cleared v t).
Proof. intros Hext. exact Hext. Qed.

Create HintDb frame.
#[export] Hint Resolve extends_refl extends_with_payee extends_with_payee_name
  extends_with_category extends_with_imported_id extends_with_cleared : frame.

Section Frame.
Context `{env : Host}.
Variable idMapping : gmap string UUID.

Lemma all_extends row base st t st' :
  parseTransactionTypeAllAsync idMapping row base st = (Returns (Some t), st') ->
  extends base t.
Proof.
  unfold parseTransactionTypeAllAsync. cbv zeta. intros Hrun.
  inv_run; auto with frame.
Qed.

Lemma wdls_extends row base st t st' :
  parseTransactionTypeAllWdls row base st = (Returns (Some t), st') ->
  extends base t.
Proof.
  unfold parseTransactionTypeAllWdls. cbv zeta. intros Hrun.
  inv_run; auto with frame.
Qed.

Lemma deposits_extends row base st t st' :
  parseTransactionTypeAllDeposits row base st = (Returns (Some t), st') ->
  extends base t.
Proof.
  unfold parseTransactionTypeAllDeposits. cbv zeta. intros Hrun.
  inv_run; auto with frame.
Qed.

Lemma bpay_extends row base st t st' :
  parseTransactionTypeBPay row base st = (Returns (Some t), st') ->
  extends base t.
Proof.
  unfold parseTransactionTypeBPay. cbv zeta. intros Hrun.
  inv_run; auto with frame.
Qed.

Lemma visa_extends row base st t st' :
  parseTransactionTypeVisaAsync row base st = (Returns (Some t), st') ->
  extends base t.
Proof.
  unfold parseTransactionTypeVisaAsync. cbv zeta. intros Hrun.
  inv_run; auto with frame.
Qed.

(** Every candidate is the base candidate of its row with fields added by
    the branch of its transaction type. *)
Lemma candidate_extends_base row st t st' :
  csvDataRowToTransactionAsync idMapping row st = (Returns (Some t), st') ->
  exists account,
    idMapping !! Account_number row = Some account /\
    extends (baseTransaction row account) t.
Proof.
  unfold csvDataRowToTransactionAsync. cbv zeta. intros Hrun.
  destruct (isZero _ && isZero _) eqn:Hzero.
  { inv_run. }
  destruct (idMapping !! Account_number row) as [acct|] eqn:Hacct;
    [| inv_run; discriminate ].
  exists acct. split; [reflexivity|]. simpl default in Hrun.
  fold (baseTransaction row acct) in Hrun.
  destruct (falsy (Some acct)); [inv_run|].
  repeat match type of Hrun with
         | (if ?b then _ else _) _ = _ => destruct b
         end.
  - eapply all_extends; eassumption.
  - eapply wdls_extends; eassumption.
  - eapply deposits_extends; eassumption.
  - eapply bpay_extends; eassumption.
  - eapply visa_extends; eassumption.
  - inv_run.
Qed.

End Frame.

(** ** The pre-filter and the frame of the base candidate *)

Section Candidates.
Context `{env : Host}.
Variable idMapping : gmap string UUID.

(** C3.  A row whose debit amount and credit amount both convert to zero is
    suppressed: the classifier returns no candidate, throws nothing and
    leaves the ledger cache as it was, whatever the transaction type (and
    every other field) of the row is. *)
Theorem zero_amount_row_is_suppressed (row : CSVDataRow) (st : Actual) :
  isZero (amountToInteger (parseFloat (Debit_amount row))) = true ->
  isZero (amountToInteger (parseFloat (Credit_amount row))) = true ->
  csvDataRowToTransactionAsync idMapping row st = (Returns None, st).
Proof.
  intros Hdebit Hcredit. unfold csvDataRowToTransactionAsync. cbv zeta.
  rewrite Hdebit, Hcredit. reflexivity.
Qed.

(** C8.  Whenever a row produces a candidate, under any transaction type and
    any branch, the notes of the candidate are the long description, the
    merchant name and the category list of the row joined by pipes. *)
Theorem notes_are_the_pipe_join (row : CSVDataRow) (st st' : Actual) (t : ITransaction) :
  csvDataRowToTransactionAsync idMapping row st = (Returns (Some t), st') ->
  notes t = Some (Long_description row +:+ "|" +:+ Merchant_name row
                  +:+ "|" +:+ Category_list row).
Proof.
  intros Hrun. apply candidate_extends_base in Hrun.
  destruct Hrun as (acct & _ & Hext).
  destruct Hext as (_ & _ & _ & _ & Hnotes). rewrite Hnotes. reflexivity.
Qed.

(** C10.  Whenever a row produces a candidate, under any transaction type
    and any branch, the imported payee of the candidate is the long
    description of the row, unchanged. *)
Theorem imported_payee_is_the_narrative (row : CSVDataRow) (st st' : Actual)
    (t : ITransaction) :
  csvDataRowToTransactionAsync idMapping row st = (Returns (Some t), st') ->
  imported_payee t = Some (Long_description row).
Proof.
  intros Hrun. apply candidate_extends_base in Hrun.
  destruct Hrun as (acct & _ & Hext).
  destruct Hext as (_ & _ & _ & Hpayee & _). rewrite Hpayee. reflexivity.
Qed.

End Candidates.

Lemma zero_amount_row_is_suppressed_witness :
  csvDataRowToTransactionAsync (env:=Sample.host) Sample.idMapping Sample.balanceRow Sample.ledger
  = (Returns None, Sample.ledger).
Proof.
  apply (zero_amount_row_is_suppressed (env:=Sample.host) Sample.idMapping Sample.balanceRow Sample.ledger);
    vm_compute; reflexivity.
Defined.

Lemma notes_are_the_pipe_join_witness :
  exists t st',
    csvDataRowToTransactionAsync (env:=Sample.host) Sample.idMapping Sample.liquorRow Sample.ledger
    = (Returns (Some t), st') /\
    notes t = Some (Long_description Sample.liquorRow +:+ "|"
                    +:+ Merchant_name Sample.liquorRow +:+ "|"
                    +:+ Category_list Sample.liquorRow).
Proof.
  eexists _, _. split.
  - vm_compute. reflexivity.
  - eapply (notes_are_the_pipe_join (env:=Sample.host) Sample.idMapping Sample.liquorRow Sample.ledger).
    vm_compute. reflexivity.
Defined.

Lemma imported_payee_is_the_narrative_witness :
  exists t st',
    csvDataRowToTransactionAsync (env:=Sample.host) Sample.idMapping Sample.transferRow Sample.ledger
    = (Returns (Some t), st') /\
    imported_payee t = Some "Transfer to SAV 55555555".
Proof.
  eexists _, _. split.
  - vm_compute. reflexivity.
  - eapply (imported_payee_is_the_narrative (env:=Sample.host) Sample.idMapping Sample.transferRow
              Sample.ledger).
    vm_compute. reflexivity.
Defined.

(** ** The ledger cache *)

Section Ledger.
Context `{env : Host}.

(** All that [createCategoryAsync] does with a name, whether it returns or
    throws. *)
Lemma createCategoryAsync_effect (name : string) st r st' :
  createCategoryAsync (inr name) st = (r, st') ->
  let request := mkCategory None name (groupFor name st) None in
  match r with
  | Returns c =>
      cat_name c = name /\ cat_group_id c = groupFor name st /\
      falsy (groupFor name st) = false /\
      (exists newId, createCategory (trace st) request = Returns newId /\
                     cat_id c = Some newId) /\
      categories st' = categories st ++ [c] /\
      trace st' = trace st ++ [CreateCategory request]
  | Throws _ =>
      categories st' = categories st /\
      (trace st' = trace st \/ trace st' = trace st ++ [CreateCategory request])
  end.
Proof.
  unfold createCategoryAsync, groupFor, bind, gets, throw, ret, log, pushCategory,
    modify, liftResult.
  destruct (isInitialised st); simpl.
  2: { intros Hrun. injection Hrun as <- <-. auto. }
  destruct (falsy (defaultCategoryGroupId st)) eqn:Hdflt; simpl.
  { intros Hrun. injection Hrun as <- <-. auto. }
  destruct (falsy (incomeCategoryGroupId st)) eqn:Hinc; simpl.
  { intros Hrun. injection Hrun as <- <-. auto. }
  destruct (createCategory (trace st) _) as [newId|e] eqn:Hremote; simpl;
    intros Hrun; injection Hrun as <- <-; simpl.
  - repeat split; try reflexivity.
    + destruct (String.eqb name "Interest"); assumption.
    + exists newId. split; reflexivity.
  - auto.
Qed.


End Ledger.


(** ** Card purchases *)

Section Visa.
Context `{env : Host}.
Variable idMapping : gmap string UUID.

Lemma about_find name : about name (FindCategory name).
Proof. left. reflexivity. Qed.

Lemma about_create name group :
  about name (CreateCategory (mkCategory None name group None)).
Proof. right. exists group. reflexivity. Qed.

Lemma find_app_new {A} (p : A -> bool) (l : list A) (a : A) :
  List.find p l = None -> p a = true -> List.find p (l ++ [a]) = Some a.
Proof.
  induction l as [|b l IH]; simpl; intros Hnone Hp.
  - rewrite Hp. reflexivity.
  - destruct (p b); [discriminate Hnone | auto].
Qed.

(** Extracting the payee name leaves the ledger cache alone. *)
Lemma visaPayeeName_state row st r st' :
  visaPayeeName row st = (r, st') -> st' = st.
Proof.
  unfold visaPayeeName, ret, throw. cbv zeta.
  repeat match goal with
         | |- context [if ?b then _ else _] => destruct b
         | |- context [match ?x with Some _ => _ | None => _ end] => destruct x
         end;
    intros Hrun; injection Hrun as _ <-; reflexivity.
Qed.

(** Resolving a category name of the overrides table or of the category
    list: the cache is searched for that name, and the only category that
    may be created has that name. *)
Lemma visaCategory_effect (name : string) st r st' :
  visaCategory (Entry name) st = (r, st') ->
  (exists new, trace st' = trace st ++ new /\ Forall (about name) new) /\
  (exists added, categories st' = categories st ++ added /\
                 Forall (fun c => cat_name c = name) added) /\
  (forall found, r = Returns found -> name <> EmptyString ->
     exists c, found = Some c /\
       List.find (fun c => String.eqb (cat_name c) name) (categories st') = Some c).
Proof.
  unfold visaCategory, findCategory, bind, log, modify, gets. simpl.
  destruct (List.find _ (categories st)) as [c|] eqn:Hfind.
  - unfold ret. intros Hrun. injection Hrun as <- <-. simpl.
    split; [|split].
    + exists [FindCategory name]. split; [reflexivity|].
      constructor; [apply about_find | constructor].
    + exists []. rewrite app_nil_r. split; [reflexivity | constructor].
    + intros found Hfound _. injection Hfound as <-. exists c. split; [reflexivity|assumption].
  - destruct (JsString.truthy name) eqn:Hname.
    + destruct (createCategoryAsync (inr name) _) as [rc st1] eqn:Hcreate.
      apply createCategoryAsync_effect in Hcreate. cbv zeta in Hcreate.
      simpl in Hcreate.
      destruct rc as [c|e]; unfold ret; intros Hrun; injection Hrun as <- <-.
      * destruct Hcreate as (Hcname & _ & _ & _ & Hcats & Htrace).
        split; [|split].
        -- eexists. rewrite Htrace, <- app_assoc. split; [reflexivity|].
           constructor; [apply about_find|].
           constructor; [apply about_create | constructor].
        -- exists [c]. split; [assumption|].
           constructor; [assumption | constructor].
        -- intros found Hfound _. injection Hfound as <-. exists c.
           split; [reflexivity|]. rewrite Hcats.
           apply find_app_new; [assumption|].
           rewrite Hcname. apply String.eqb_refl.
      * destruct Hcreate as (Hcats & Htrace).
        split; [|split].
        -- destruct Htrace as [Htrace|Htrace]; rewrite Htrace.
           ++ exists [FindCategory name]. split; [reflexivity|].
              constructor; [apply about_find | constructor].
           ++ eexists. rewrite <- app_assoc. split; [reflexivity|].
              constructor; [apply about_find|].
              constructor; [apply about_create | constructor].
        -- exists []. rewrite app_nil_r. split; [assumption | constructor].
        -- intros found Hfound. discriminate Hfound.
    + unfold ret. intros Hrun. injection Hrun as <- <-. simpl.
      split; [|split].
      * exists [FindCategory name]. split; [reflexivity|].
        constructor; [apply about_find | constructor].
      * exists []. rewrite app_nil_r. split; [reflexivity | constructor].
      * intros found _ Hne. destruct name; [congruence | discriminate Hname].
Qed.

(** C5.  A card row whose category list is exactly "Liquor Store,
    Restricted" only ever searches the category cache for "Groceries" and
    only ever asks the ledger to create "Groceries": whatever the outcome,
    the taxonomy accesses of the row all concern "Groceries", and the cache
    grows by categories named "Groceries" only.  When the row yields a
    candidate, its category is the id of the category that the cache then
    holds under the name "Groceries". *)
Theorem liquor_store_is_filed_under_groceries (row : CSVDataRow) (st st' : Actual)
    (r : result (option ITransaction)) :
  Transaction_type row = "VISA" ->
  Category_list row = "Liquor Store, Restricted" ->
  csvDataRowToTransactionAsync idMapping row st = (r, st') ->
  (exists new, trace st' = trace st ++ new /\ Forall (about "Groceries") new) /\
  (exists added, categories st' = categories st ++ added /\
                 Forall (fun c => cat_name c = "Groceries") added) /\
  (forall t, r = Returns (Some t) ->
     exists c,
       List.find (fun c => String.eqb (cat_name c) "Groceries") (categories st') = Some c /\
       category t = cat_id c).
Proof.
  intros Htype Hcats.
  assert (Hquiet : forall (r0 : result (option ITransaction)),
             (forall t, r0 <> Returns (Some t)) ->
             (exists new, trace st = trace st ++ new /\ Forall (about "Groceries") new) /\
             (exists added, categories st = categories st ++ added /\
                            Forall (fun c => cat_name c = "Groceries") added) /\
             (forall t, r0 = Returns (Some t) ->
                exists c,
                  List.find (fun c => String.eqb (cat_name c) "Groceries") (categories st)
                  = Some c /\ category t = cat_id c)).
  { intros r0 Hr0. split; [|split].
    - exists []. rewrite app_nil_r. split; [reflexivity | constructor].
    - exists []. rewrite app_nil_r. split; [reflexivity | constructor].
    - intros t Ht. destruct (Hr0 t Ht). }
  unfold csvDataRowToTransactionAsync. cbv zeta. rewrite Htype. eval_eqb.
  destruct (isZero _ && isZero _).
  { unfold ret. intros Hrun. injection Hrun as <- <-. apply Hquiet. discriminate. }
  destruct (falsy (idMapping !! Account_number row)).
  { unfold throw. intros Hrun. injection Hrun as <- <-. apply Hquiet. discriminate. }
  cbv iota. unfold parseTransactionTypeVisaAsync. cbv zeta. rewrite Hcats.
  change (visaCategoryName "Liquor Store, Restricted") with (Entry "Groceries").
  unfold bind at 1.
  destruct (visaPayeeName row st) as [rp st1] eqn:Hpayee.
  apply visaPayeeName_state in Hpayee. subst st1.
  destruct rp as [name|e].
  2: { intros Hrun. injection Hrun as <- <-. apply Hquiet. discriminate. }
  unfold bind.
  destruct (visaCategory (Entry "Groceries") st) as [rc st1] eqn:Hcat.
  apply visaCategory_effect in Hcat. destruct Hcat as (Htrace & Hadded & Hfound).
  destruct rc as [found|e]; unfold ret; intros Hrun; injection Hrun as <- <-.
  - split; [assumption | split; [assumption|]].
    intros t Ht. injection Ht as <-.
    destruct (Hfound found eq_refl) as (c & -> & Hc); [discriminate|].
    exists c. split; [assumption | reflexivity].
  - split; [assumption | split; [assumption|]]. intros t Ht. discriminate Ht.
Qed.

Lemma exec_visa_cloudflare :
  RegExp.exec Patterns.visa Sample.cloudflareNarrative
  = Some [(2, " HTTP"); (1, "CLOUDFLARE")].
Proof. vm_compute. reflexivity. Qed.

Lemma exec_reference_cloudflare :
  RegExp.exec Patterns.referenceNumber Sample.cloudflareNarrative
  = Some [(1, "0123456789")].
Proof. vm_compute. reflexivity. Qed.

Lemma toTitleCase_cloudflare : JsString.trim (toTitleCase "CLOUDFLARE") = "Cloudflare".
Proof. vm_compute. reflexivity. Qed.

(** C6.  For a card row whose long description is the Cloudflare narrative
    of the source and whose merchant name is empty, the payee name is
    extracted in every ledger state, and it is "Cloudflare"; a candidate
    produced for the row has the payee name "Cloudflare" and the imported id
    "0123456789". *)
Theorem cloudflare_payee_and_reference (row : CSVDataRow) (st : Actual) :
  Transaction_type row = "VISA" ->
  Long_description row
  = "VISA-CLOUDFLARE HTTPSWWW.CLOUUSFRGN AMT-11.1111111#123455(Ref.0123456789)" ->
  Merchant_name row = "" ->
  visaPayeeName row st = (Returns "Cloudflare", st) /\
  forall t st',
    csvDataRowToTransactionAsync idMapping row st = (Returns (Some t), st') ->
    payee_name t = Some "Cloudflare" /\ imported_id t = Some "0123456789".
Proof.
  intros Htype Hlong Hmerchant.
  assert (Hpayee : forall st0, visaPayeeName row st0 = (Returns "Cloudflare", st0)).
  { intros st0. unfold visaPayeeName. cbv zeta. rewrite Hmerchant, Hlong.
    eval_eqb. change (JsString.truthy "") with false. cbn [andb orb negb].
    fold Sample.cloudflareNarrative. rewrite exec_visa_cloudflare.
    change (RegExp.group 1 [(2, " HTTP"); (1, "CLOUDFLARE")]) with (Some "CLOUDFLARE").
    cbv iota. rewrite toTitleCase_cloudflare. reflexivity. }
  split; [apply Hpayee|].
  intros t st'. unfold csvDataRowToTransactionAsync. cbv zeta.
  rewrite Htype. eval_eqb. intros Hrun.
  destruct (isZero _ && isZero _); [inv_run|].
  destruct (falsy _); [inv_run|].
  unfold parseTransactionTypeVisaAsync in Hrun. cbv zeta in Hrun.
  apply bind_returns in Hrun. destruct Hrun as (name & st1 & Hname & Hrun).
  rewrite Hpayee in Hname. injection Hname as <- <-.
  apply bind_returns in Hrun. destruct Hrun as (cat & st2 & _ & Hrun).
  apply ret_returns in Hrun. destruct Hrun as [Ht _]. injection Ht as <-.
  rewrite Hlong. fold Sample.cloudflareNarrative. rewrite exec_reference_cloudflare.
  split; reflexivity.
Qed.

End Visa.

Lemma liquor_store_is_filed_under_groceries_witness :
  exists t st',
    csvDataRowToTransactionAsync (env:=Sample.host) Sample.idMapping Sample.liquorRow
      Sample.ledger = (Returns (Some t), st') /\
    category t = Some "id-of-Groceries" /\
    trace st' = [FindCategory "Groceries";
                 CreateCategory (mkCategory None "Groceries" (Some "group-expense") None)].
Proof.
  destruct (liquor_store_is_filed_under_groceries (env:=Sample.host) Sample.idMapping
              Sample.liquorRow Sample.ledger
              (snd (csvDataRowToTransactionAsync (env:=Sample.host) Sample.idMapping
                      Sample.liquorRow Sample.ledger))
              (fst (csvDataRowToTransactionAsync (env:=Sample.host) Sample.idMapping
                      Sample.liquorRow Sample.ledger)))
    as (_ & _ & Hcandidate).
  - reflexivity.
  - reflexivity.
  - vm_compute. reflexivity.
  - eexists _, _. split; [vm_compute; reflexivity|].
    split; vm_compute; reflexivity.
Defined.

Lemma cloudflare_payee_and_reference_witness :
  exists t st',
    csvDataRowToTransactionAsync (env:=Sample.host) Sample.idMapping Sample.cloudflareRow
      Sample.ledger = (Returns (Some t), st') /\
    payee_name t = Some "Cloudflare" /\ imported_id t = Some "0123456789".
Proof.
  eexists _, _. split.
  - vm_compute. reflexivity.
  - eapply (cloudflare_payee_and_reference (env:=Sample.host) Sample.idMapping
              Sample.cloudflareRow Sample.ledger); try reflexivity.
    vm_compute. reflexivity.
Defined.

(** ** Transfers between mapped accounts *)

Lemma startsWith_inv (p s : string) :
  JsString.startsWith s p = true -> exists rest, s = p +:+ rest.
Proof.
  revert s. induction p as [|a p IH]; intros s Hstarts.
  - exists s. reflexivity.
  - destruct s as [|b s]; [discriminate Hstarts|]. simpl in Hstarts.
    destruct (Ascii.eqb a b) eqn:Hab; [|discriminate Hstarts].
    apply Ascii.eqb_eq in Hab. subst b.
    destruct (IH s Hstarts) as [rest ->]. exists rest. reflexivity.
Qed.

Lemma falsy_some (s : string) : s <> EmptyString -> falsy (Some s) = false.
Proof. destruct s; [congruence | reflexivity]. Qed.

(** Tests on strings with a literal prefix are decided by evaluation. *)
Ltac eval_tests :=
  repeat match goal with
  | |- context [JsString.startsWith ?a ?b] =>
      let v := eval vm_compute in (JsString.startsWith a b) in
      match v with
      | true => change (JsString.startsWith a b) with true
      | false => change (JsString.startsWith a b) with false
      end
  | |- context [existsb ?f ?l] =>
      let v := eval vm_compute in (existsb f l) in
      match v with
      | true => change (existsb f l) with true
      | false => change (existsb f l) with false
      end
  end;
  eval_eqb.

Section Transfers.
Context `{env : Host}.
Variable idMapping : gmap string UUID.

Lemma resolveTransferPayee_found st number destination p :
  idMapping !! number = Some destination -> destination <> EmptyString ->
  transferPayeeOf st destination = Some p ->
  resolveTransferPayee idMapping (Some number) st = (Returns p, st).
Proof.
  intros Hdest Hne Hfind. unfold resolveTransferPayee, idMapping_get. cbv zeta.
  rewrite Hdest, (falsy_some _ Hne).
  change (default EmptyString (Some destination)) with destination.
  unfold bind, findTransferPayee, gets.
  rewrite Hfind. reflexivity.
Qed.

Lemma resolveTransferPayee_unmapped st number :
  idMapping !! number = None ->
  resolveTransferPayee idMapping (Some number) st
  = (Throws (AccountNotFoundError (Some number)), st).
Proof.
  intros Hdest. unfold resolveTransferPayee, idMapping_get. cbv zeta.
  rewrite Hdest. reflexivity.
Qed.

(** C1, as the code has it.  An 'ALL' row with an amount that is not zero
    and a mapped account number, whose short description is exactly
    "Internet Transfer", whose long description starts with "Transfer to "
    and names a destination account that is mapped and has a transfer payee,
    produces a candidate, leaves the ledger cache unchanged, and the
    candidate has the id of that transfer payee as its payee, no category
    and the cleared flag set. *)
Theorem internet_transfer_to_mapped_account (row : CSVDataRow) (st : Actual)
    (number : string) (source destination : UUID) (transferPayee : IPayee) :
  Transaction_type row = "ALL" ->
  Description row = "Internet Transfer" ->
  JsString.startsWith (Long_description row) "Transfer to " = true ->
  isZero (amountToInteger (parseFloat (Debit_amount row)))
  && isZero (amountToInteger (parseFloat (Credit_amount row))) = false ->
  idMapping !! Account_number row = Some source -> source <> "" ->
  destinationOf Patterns.transferTo (Long_description row) = Some number ->
  idMapping !! number = Some destination -> destination <> "" ->
  transferPayeeOf st destination = Some transferPayee ->
  exists t,
    csvDataRowToTransactionAsync idMapping row st = (Returns (Some t), st) /\
    payee t = payee_id transferPayee /\ category t = None /\ cleared t = Some true.
Proof.
  intros Htype Hdesc Hstarts Hamount Hsource Hsrc Hnumber Hdest Hdst Hpayee.
  unfold csvDataRowToTransactionAsync. cbv zeta.
  rewrite Hamount, Hsource, (falsy_some _ Hsrc), Htype. eval_eqb.
  unfold parseTransactionTypeAllAsync. cbv zeta. rewrite Hdesc, Hstarts. eval_eqb.
  unfold destinationOf in Hnumber.
  destruct (RegExp.exec Patterns.transferTo (Long_description row)) as [matches|];
    [|discriminate Hnumber].
  simpl in Hnumber. rewrite Hnumber. unfold bind.
  rewrite (resolveTransferPayee_found st number destination transferPayee Hdest Hdst Hpayee).
  eexists. split; [reflexivity|]. repeat split.
Qed.

(** C2, as the code has it.  An 'ALL' row with a mapped account number is
    suppressed, with no error and no change of the ledger cache, when its
    short description is "Internet Transfer" and its long description
    starts with "Received from", and when its short description is neither
    "Internet Transfer" nor "Internet Ext Transfer" and its long description
    starts with "Net tfr received from". *)
Theorem received_transfers_are_suppressed (row : CSVDataRow) (st : Actual) :
  Transaction_type row = "ALL" ->
  falsy (idMapping !! Account_number row) = false ->
  (Description row = "Internet Transfer" /\
   JsString.startsWith (Long_description row) "Received from" = true)
  \/ (Description row <> "Internet Transfer" /\
      Description row <> "Internet Ext Transfer" /\
      JsString.startsWith (Long_description row) "Net tfr received from" = true) ->
  csvDataRowToTransactionAsync idMapping row st = (Returns None, st).
Proof.
  intros Htype Haccount Hshape.
  unfold csvDataRowToTransactionAsync. cbv zeta.
  destruct (isZero _ && isZero _); [reflexivity|].
  rewrite Haccount, Htype. eval_eqb.
  unfold parseTransactionTypeAllAsync. cbv zeta.
  destruct Hshape as [[Hdesc Hstarts] | (Hdesc & Hext & Hstarts)];
    apply startsWith_inv in Hstarts; destruct Hstarts as [rest Hlong];
    rewrite Hlong.
  - rewrite Hdesc. eval_tests. reflexivity.
  - apply String.eqb_neq in Hdesc, Hext. rewrite Hdesc, Hext. eval_tests. reflexivity.
Qed.

End Transfers.

(** ** Unmapped accounts and unparsable dates *)

Section Aborts.
Context `{env : Host}.
Variable idMapping : gmap string UUID.

Lemma collectTransactions_throws before row rest st0 ts st e st' :
  collectTransactions idMapping before st0 = (Returns ts, st) ->
  csvDataRowToTransactionAsync idMapping row st = (Throws e, st') ->
  collectTransactions idMapping (before ++ row :: rest) st0 = (Throws e, st').
Proof.
  revert st0 ts. induction before as [|first before IH]; intros st0 ts Hbefore Hrow.
  - apply ret_returns in Hbefore. destruct Hbefore as [_ ->].
    simpl. unfold bind at 1. rewrite Hrow. reflexivity.
  - simpl in Hbefore. apply bind_returns in Hbefore.
    destruct Hbefore as (t & st1 & Hfirst & Hbefore).
    apply bind_returns in Hbefore. destruct Hbefore as (ts' & st2 & Hbefore & Hret).
    apply ret_returns in Hret. destruct Hret as [_ ->].
    simpl. unfold bind at 1. rewrite Hfirst. unfold bind at 1.
    rewrite (IH st1 ts' Hbefore Hrow). reflexivity.
Qed.

(** C4, as the code has it.  A row whose amount is not zero and whose
    account number is absent from the mapping throws the error of an
    unmapped account, and so does an 'ALL' row of a mapped account whose
    amount is not zero and which is a transfer (short description "Internet
    Transfer" and long description starting with "Transfer to ", or another
    short description than "Internet Transfer" and "Internet Ext Transfer"
    and long description starting with "Net tfr to") to a destination
    account number that the pattern extracts and that is absent from the
    mapping.  The error ends the loop over the file. *)
Theorem unmapped_account_aborts (row : CSVDataRow) (st : Actual) :
  isZero (amountToInteger (parseFloat (Debit_amount row)))
  && isZero (amountToInteger (parseFloat (Credit_amount row))) = false ->
  (idMapping !! Account_number row = None ->
   abortsWith idMapping row st (AccountNotFoundError (Some (Account_number row)))) /\
  (forall number : string,
     falsy (idMapping !! Account_number row) = false ->
     Transaction_type row = "ALL" ->
     (Description row = "Internet Transfer" /\
      JsString.startsWith (Long_description row) "Transfer to " = true /\
      destinationOf Patterns.transferTo (Long_description row) = Some number)
     \/ (Description row <> "Internet Transfer" /\
         Description row <> "Internet Ext Transfer" /\
         JsString.startsWith (Long_description row) "Net tfr to" = true /\
         destinationOf Patterns.netTfrTo (Long_description row) = Some number) ->
     idMapping !! number = None ->
     abortsWith idMapping row st (AccountNotFoundError (Some number))).
Proof.
  intros Hamount.
  assert (Hloop : forall e,
             csvDataRowToTransactionAsync idMapping row st = (Throws e, st) ->
             abortsWith idMapping row st e).
  { intros e Hrow. split; [exact Hrow|].
    intros before rest st0 ts Hbefore.
    exact (collectTransactions_throws before row rest st0 ts st e st Hbefore Hrow). }
  split.
  - intros Haccount. apply Hloop.
    unfold csvDataRowToTransactionAsync. cbv zeta.
    rewrite Hamount, Haccount. reflexivity.
  - intros number Haccount Htype Hshape Hdest. apply Hloop.
    unfold csvDataRowToTransactionAsync. cbv zeta.
    rewrite Hamount, Haccount, Htype. eval_eqb.
    unfold parseTransactionTypeAllAsync. cbv zeta.
    destruct Hshape as [(Hdesc & Hstarts & Hnumber) | (Hdesc & Hext & Hstarts & Hnumber)];
      unfold destinationOf in Hnumber.
    + rewrite Hdesc, Hstarts. eval_eqb.
      destruct (RegExp.exec Patterns.transferTo (Long_description row)) as [matches|];
        [|discriminate Hnumber].
      simpl in Hnumber. rewrite Hnumber. unfold bind.
      rewrite (resolveTransferPayee_unmapped idMapping st number Hdest). reflexivity.
    + apply String.eqb_neq in Hdesc, Hext. rewrite Hdesc, Hext.
      destruct (RegExp.exec Patterns.netTfrTo (Long_description row)) as [matches|];
        [|discriminate Hnumber].
      simpl in Hnumber.
      destruct (startsWith_inv _ _ Hstarts) as [rest Hlong].
      replace (existsb (String.eqb (Long_description row)) (interestLabels))
        with false by (rewrite Hlong; vm_compute; reflexivity).
      replace (JsString.startsWith (Long_description row) "Net tfr")
        with true by (rewrite Hlong; vm_compute; reflexivity).
      rewrite Hstarts, Hnumber. unfold bind.
      rewrite (resolveTransferPayee_unmapped idMapping st number Hdest). reflexivity.
Qed.

End Aborts.

(** ** The claims of the specification on the sample rows *)

(** C1 as stated fails: a row of type 'ALL' whose long description starts
    with "Transfer to" and names a mapped destination that has a transfer
    payee, under a short description other than "Internet Transfer", yields a
    candidate with no payee that is not cleared. *)
Lemma transfer_to_under_another_description :
  Transaction_type Sample.relabelledTransferRow = "ALL" /\
  JsString.startsWith (Long_description Sample.relabelledTransferRow) "Transfer to" = true /\
  destinationOf Patterns.transferTo (Long_description Sample.relabelledTransferRow)
  = Some "55555555" /\
  Sample.idMapping !! "55555555" = Some Sample.savings /\
  transferPayeeOf Sample.ledger Sample.savings
  = Some (mkPayee (Some "payee-savings") "Savings" None (Some Sample.savings)) /\
  exists t,
    csvDataRowToTransactionAsync (env:=Sample.host) Sample.idMapping
      Sample.relabelledTransferRow Sample.ledger = (Returns (Some t), Sample.ledger) /\
    payee t = None /\ cleared t = Some false.
Proof.
  repeat (split; [vm_compute; reflexivity|]).
  eexists. split; [vm_compute; reflexivity|]. split; reflexivity.
Qed.

Lemma internet_transfer_to_mapped_account_witness :
  exists t,
    csvDataRowToTransactionAsync (env:=Sample.host) Sample.idMapping Sample.transferRow
      Sample.ledger = (Returns (Some t), Sample.ledger) /\
    payee t = Some "payee-savings" /\ category t = None /\ cleared t = Some true.
Proof.
  apply (internet_transfer_to_mapped_account (env:=Sample.host) Sample.idMapping
           Sample.transferRow Sample.ledger "55555555" Sample.cheque Sample.savings
           (mkPayee (Some "payee-savings") "Savings" None (Some Sample.savings)));
    try (vm_compute; reflexivity); discriminate.
Defined.

(** C2 as stated fails: a "Received from" row under a short description
    other than "Internet Transfer", and a "Net tfr received from" row under
    the short description "Internet Transfer", both yield a candidate, which
    is not cleared. *)
Lemma received_rows_that_are_imported :
  Transaction_type Sample.relabelledReceivedRow = "ALL" /\
  JsString.startsWith (Long_description Sample.relabelledReceivedRow) "Received from" = true /\
  Transaction_type Sample.netReceivedRow = "ALL" /\
  JsString.startsWith (Long_description Sample.netReceivedRow) "Net tfr received from" = true /\
  (exists t,
     csvDataRowToTransactionAsync (env:=Sample.host) Sample.idMapping
       Sample.relabelledReceivedRow Sample.ledger = (Returns (Some t), Sample.ledger) /\
     cleared t = Some false) /\
  (exists t,
     csvDataRowToTransactionAsync (env:=Sample.host) Sample.idMapping
       Sample.netReceivedRow Sample.ledger = (Returns (Some t), Sample.ledger) /\
     cleared t = Some false).
Proof.
  repeat (split; [vm_compute; reflexivity|]).
  split; eexists; (split; [vm_compute; reflexivity | reflexivity]).
Qed.

Lemma received_transfers_are_suppressed_witness :
  csvDataRowToTransactionAsync (env:=Sample.host) Sample.idMapping Sample.receivedRow
    Sample.ledger = (Returns None, Sample.ledger).
Proof.
  apply (received_transfers_are_suppressed (env:=Sample.host) Sample.idMapping
           Sample.receivedRow Sample.ledger).
  - reflexivity.
  - vm_compute. reflexivity.
  - left. split; [reflexivity | vm_compute; reflexivity].
Defined.

(** C4 as stated fails: a row of an account that is not in the mapping is
    skipped without an error when its amounts are zero. *)
Lemma unmapped_balance_row_is_skipped :
  Sample.idMapping !! Account_number Sample.unmappedBalanceRow = None /\
  csvDataRowToTransactionAsync (env:=Sample.host) Sample.idMapping
    Sample.unmappedBalanceRow Sample.ledger = (Returns None, Sample.ledger).
Proof. split; vm_compute; reflexivity. Qed.

Lemma unmapped_account_aborts_witness :
  abortsWith (env:=Sample.host) Sample.idMapping Sample.unmappedRow Sample.ledger
    (AccountNotFoundError (Some "99999999")) /\
  abortsWith (env:=Sample.host) Sample.idMapping Sample.transferToUnmappedRow Sample.ledger
    (AccountNotFoundError (Some "77777777")).
Proof.
  split.
  - refine (proj1 (unmapped_account_aborts (env:=Sample.host) Sample.idMapping
                     Sample.unmappedRow Sample.ledger _) _);
      vm_compute; reflexivity.
  - refine (proj2 (unmapped_account_aborts (env:=Sample.host) Sample.idMapping
                     Sample.transferToUnmappedRow Sample.ledger _)
                  "77777777" _ _ _ _).
    + vm_compute. reflexivity.
    + vm_compute. reflexivity.
    + reflexivity.
    + left. repeat split; vm_compute; reflexivity.
    + vm_compute. reflexivity.
Defined.

(** C9 does not hold of the code, which has no check of the date.  For the
    date column "31/12/2022", which [parse] answers with an Invalid Date,
    [extractDate] returns that Invalid Date as its value, and the row is
    classified into a candidate dated with it; nothing is thrown.  The
    documentation of [importTransactionsAsync] promises an error for any
    issue extracting information from a row, and every other extraction of
    the classifier throws when its pattern does not match. *)
Lemma mismatching_date_is_not_an_error :
  extractDate (env:=Sample.host) "31/12/2022" = InvalidDate /\
  exists t st',
    csvDataRowToTransactionAsync (env:=Sample.host) Sample.idMapping Sample.undatedRow
      Sample.ledger = (Returns (Some t), st') /\
    date t = InvalidDate.
Proof.
  split; [vm_compute; reflexivity|].
  eexists _, _. split; [vm_compute; reflexivity | reflexivity].
Qed.


(** ** What the matcher does on the shapes the patterns are made of *)

Section Matcher.
Import JsString RegExp RegExpSpec.

Lemma run_star (greedy : bool) (r : regex) s caps k :
  run (Star greedy r) s caps k
  = starLoop (run r) greedy k (S (String.length s)) s caps.
Proof. reflexivity. Qed.

Lemma run_seq (r1 r2 : regex) s caps k :
  run (Seq r1 r2) s caps k = run r1 s caps (fun s1 caps1 => run r2 s1 caps1 k).
Proof. reflexivity. Qed.

Lemma append_cons (x : ascii) (a b : string) : String x a +:+ b = String x (a +:+ b).
Proof. reflexivity. Qed.

Lemma append_assoc (a b c : string) : (a +:+ b) +:+ c = a +:+ (b +:+ c).
Proof.
  induction a as [|x a IH]; [reflexivity|].
  rewrite !append_cons, IH. reflexivity.
Qed.

Lemma length_append (a b : string) :
  String.length (a +:+ b) = (String.length a + String.length b)%nat.
Proof.
  induction a as [|x a IH]; [reflexivity|].
  rewrite append_cons. simpl. rewrite IH. reflexivity.
Qed.

Lemma take_append (v s : string) :
  take (String.length (v +:+ s) - String.length s) (v +:+ s) = v.
Proof.
  rewrite length_append.
  replace (String.length v + String.length s - String.length s)%nat
    with (String.length v) by lia.
  induction v as [|x v IH].
  - destruct s; reflexivity.
  - rewrite append_cons. simpl. rewrite IH. reflexivity.
Qed.

(** A literal consumes itself and nothing else. *)
Lemma run_lit (l : string) s caps k res :
  run (Lit l) s caps k = Some res ->
  exists s1, s = l +:+ s1 /\ k s1 caps = Some res.
Proof.
  revert s. induction l as [|c l IH]; intros s Hrun.
  - exists s. split; [reflexivity | exact Hrun].
  - simpl in Hrun. destruct s as [|c' s]; [discriminate Hrun|].
    destruct (Ascii.eqb c c') eqn:Hc; [|discriminate Hrun].
    apply Ascii.eqb_eq in Hc. subst c'.
    destruct (IH s Hrun) as (s1 & -> & Hk). exists s1. split; [reflexivity | exact Hk].
Qed.

Lemma run_lit_append (l : string) s1 caps k :
  run (Lit l) (l +:+ s1) caps k = k s1 caps.
Proof.
  induction l as [|c l IH]; [reflexivity|].
  simpl. rewrite Ascii.eqb_refl. exact IH.
Qed.

Lemma starLoop_S step greedy k n s caps :
  starLoop step greedy k (S n) s caps
  = if greedy then
      match step s caps (fun s1 caps1 =>
              if (String.length s1 <? String.length s)%nat
              then starLoop step greedy k n s1 caps1 else None) with
      | Some m => Some m
      | None => k s caps
      end
    else
      match k s caps with
      | Some m => Some m
      | None =>
          step s caps (fun s1 caps1 =>
            if (String.length s1 <? String.length s)%nat
            then starLoop step greedy k n s1 caps1 else None)
      end.
Proof. reflexivity. Qed.

Lemma run_chr_eq (p : ascii -> bool) s caps k :
  run (Chr p) s caps k
  = match s with
    | String c s' => if p c then k s' caps else None
    | EmptyString => None
    end.
Proof. reflexivity. Qed.

(** A quantified character class consumes characters of the class. *)
Lemma starLoop_chr (p : ascii -> bool) greedy k n s caps res :
  starLoop (run (Chr p)) greedy k n s caps = Some res ->
  exists v s1, s = v +:+ s1 /\ allChars p v = true /\ k s1 caps = Some res.
Proof.
  revert s. induction n as [|n IH]; intros s Hrun.
  - exists EmptyString, s. repeat split. exact Hrun.
  - assert (Hskip : k s caps = Some res ->
      exists v s1, s = v +:+ s1 /\ allChars p v = true /\ k s1 caps = Some res).
    { intros Hk. exists EmptyString, s. repeat split. exact Hk. }
    assert (Hmore : forall c s', s = String c s' -> p c = true ->
      starLoop (run (Chr p)) greedy k n s' caps = Some res ->
      exists v s1, s = v +:+ s1 /\ allChars p v = true /\ k s1 caps = Some res).
    { intros c s' -> Hp Hloop. destruct (IH s' Hloop) as (v & s1 & -> & Hall & Hk).
      exists (String c v), s1. simpl. rewrite Hp, Hall. repeat split. exact Hk. }
    rewrite starLoop_S, run_chr_eq in Hrun. destruct s as [|c s'].
    + destruct greedy; [apply Hskip; exact Hrun|].
      destruct (k EmptyString caps); [apply Hskip; exact Hrun | discriminate Hrun].
    + destruct (p c) eqn:Hp.
      2: { destruct greedy; [apply Hskip; exact Hrun|].
           destruct (k (String c s') caps); [apply Hskip; exact Hrun | discriminate Hrun]. }
      destruct (String.length s' <? String.length (String c s'))%nat.
      2: { destruct greedy; [apply Hskip; exact Hrun|].
           destruct (k (String c s') caps); [apply Hskip; exact Hrun | discriminate Hrun]. }
      destruct greedy.
      * destruct (starLoop (run (Chr p)) true k n s' caps) as [m|] eqn:Hloop.
        -- apply (Hmore c s' eq_refl Hp). rewrite Hloop. exact Hrun.
        -- apply Hskip. exact Hrun.
      * destruct (k (String c s') caps) as [m|] eqn:Hk.
        -- apply Hskip. exact Hrun.
        -- apply (Hmore c s' eq_refl Hp). exact Hrun.
Qed.

Lemma run_plus_chr (p : ascii -> bool) s caps k res :
  run (Plus (Chr p)) s caps k = Some res ->
  exists v s1, s = v +:+ s1 /\ someChars p v /\ k s1 caps = Some res.
Proof.
  unfold Plus. rewrite run_seq, run_chr_eq.
  destruct s as [|c s]; [discriminate|].
  destruct (p c) eqn:Hp; [|discriminate].
  rewrite run_star. intros Hrun. apply starLoop_chr in Hrun.
  destruct Hrun as (v & s1 & -> & Hall & Hk).
  exists (String c v), s1. split; [reflexivity|]. split; [|exact Hk].
  split; [discriminate|]. simpl. rewrite Hp, Hall. reflexivity.
Qed.

Lemma run_group_plus_chr (i : nat) (p : ascii -> bool) s caps k res :
  run (Group i (Plus (Chr p))) s caps k = Some res ->
  exists v s1, s = v +:+ s1 /\ someChars p v /\ k s1 ((i, v) :: caps) = Some res.
Proof.
  intros Hrun. change (run (Group i (Plus (Chr p))) s caps k)
    with (run (Plus (Chr p)) s caps (fun s1 caps1 =>
            k s1 ((i, take (String.length s - String.length s1) s) :: caps1))) in Hrun.
  apply run_plus_chr in Hrun. destruct Hrun as (v & s1 & -> & Hv & Hk).
  rewrite take_append in Hk. exists v, s1. repeat split; try apply Hv. exact Hk.
Qed.

Lemma run_star_chr (p : ascii -> bool) greedy s caps k res :
  run (Star greedy (Chr p)) s caps k = Some res ->
  exists v s1, s = v +:+ s1 /\ allChars p v = true /\ k s1 caps = Some res.
Proof. rewrite run_star. apply starLoop_chr. Qed.

Lemma run_chr (p : ascii -> bool) s caps k res :
  run (Chr p) s caps k = Some res ->
  exists c s1, s = String c s1 /\ p c = true /\ k s1 caps = Some res.
Proof.
  rewrite run_chr_eq. destruct s as [|c s1]; [discriminate|].
  destruct (p c) eqn:Hp; [|discriminate].
  intros Hk. exists c, s1. split; [reflexivity|]. split; [exact Hp | exact Hk].
Qed.

(** [exec] returns the captures of a match at some position. *)
Lemma exec_matchAt (r : regex) s caps :
  exec r s = Some caps ->
  exists before s1 rest, s = before +:+ s1 /\ matchAt r s1 = Some (caps, rest).
Proof.
  induction s as [|c s IH]; simpl.
  - destruct (matchAt r EmptyString) as [[caps' rest]|] eqn:Hm; [|discriminate].
    intros Heq. injection Heq as <-. exists EmptyString, EmptyString, rest.
    split; [reflexivity | exact Hm].
  - destruct (matchAt r (String c s)) as [[caps' rest]|] eqn:Hm.
    + intros Heq. injection Heq as <-. exists EmptyString, (String c s), rest.
      split; [reflexivity | exact Hm].
    + intros Hexec. destruct (IH Hexec) as (before & s1 & rest & -> & Hmatch).
      exists (String c before), s1, rest. split; [reflexivity | exact Hmatch].
Qed.

(** A match at the start of the text is the one [exec] returns. *)
Lemma exec_at_start (r : regex) s caps rest :
  matchAt r s = Some (caps, rest) -> exec r s = Some caps.
Proof. intros Hm. destruct s; simpl; rewrite Hm; reflexivity. Qed.

(** With a continuation that accepts whatever is left, a greedy quantified
    class consumes the whole run of characters of the class. *)
Lemma starLoop_chr_total (p : ascii -> bool) k n s caps :
  (forall s1 caps1, k s1 caps1 <> None) ->
  starLoop (run (Chr p)) true k n s caps <> None.
Proof.
  intros Hk. destruct n as [|n]; [apply Hk|].
  rewrite starLoop_S. destruct (run (Chr p) s caps _); [discriminate | apply Hk].
Qed.

Lemma starLoop_chr_max (p : ascii -> bool) k n s caps res :
  (forall s1 caps1, k s1 caps1 <> None) ->
  (String.length s < n)%nat ->
  starLoop (run (Chr p)) true k n s caps = Some res ->
  exists v s1, s = v +:+ s1 /\ allChars p v = true /\ stopsAt p s1 /\
               k s1 caps = Some res.
Proof.
  intros Htotal. revert s. induction n as [|n IH]; intros s Hfuel Hrun; [lia|].
  rewrite starLoop_S, run_chr_eq in Hrun.
  destruct s as [|c s'].
  - exists EmptyString, EmptyString. repeat split. exact Hrun.
  - destruct (p c) eqn:Hp.
    2: { exists EmptyString, (String c s'). repeat split; [exact Hp | exact Hrun]. }
    simpl in Hfuel.
    replace (String.length s' <? String.length (String c s'))%nat with true in Hrun
      by (symmetry; apply Nat.ltb_lt; simpl; lia).
    destruct (starLoop (run (Chr p)) true k n s' caps) as [m|] eqn:Hloop.
    + injection Hrun as ->.
      destruct (IH s' ltac:(lia) Hloop) as (v & s1 & -> & Hall & Hstop & Hk).
      exists (String c v), s1. simpl. rewrite Hp, Hall. repeat split; assumption.
    + exfalso. exact (starLoop_chr_total p k n s' caps Htotal Hloop).
Qed.

(** A greedy quantified class takes a run of the class that ends where the
    class ends, when what follows is accepted. *)
Lemma starLoop_chr_take (p : ascii -> bool) k n v s1 caps res :
  allChars p v = true -> stopsAt p s1 -> (String.length v < n)%nat ->
  k s1 caps = Some res ->
  starLoop (run (Chr p)) true k n (v +:+ s1) caps = Some res.
Proof.
  intros Hall Hstop. revert n Hall. induction v as [|c v IH]; intros n Hall Hfuel Hk.
  - destruct n as [|n]; [simpl in Hfuel; lia|].
    rewrite starLoop_S, run_chr_eq. change (EmptyString +:+ s1) with s1.
    destruct s1 as [|c s1]; [exact Hk|].
    simpl in Hstop. rewrite Hstop. exact Hk.
  - destruct n as [|n]; [simpl in Hfuel; lia|].
    simpl in Hall. apply andb_true_iff in Hall. destruct Hall as [Hp Hall].
    rewrite starLoop_S, run_chr_eq, append_cons, Hp.
    replace (String.length (v +:+ s1) <? String.length (String c (v +:+ s1)))%nat
      with true by (symmetry; apply Nat.ltb_lt; simpl; lia).
    simpl in Hfuel. rewrite (IH n Hall ltac:(lia) Hk). reflexivity.
Qed.

Lemma run_plus_chr_take (p : ascii -> bool) k v s1 caps res :
  someChars p v -> stopsAt p s1 -> k s1 caps = Some res ->
  run (Plus (Chr p)) (v +:+ s1) caps k = Some res.
Proof.
  intros [Hne Hall] Hstop Hk. destruct v as [|c v]; [congruence|].
  simpl in Hall. apply andb_true_iff in Hall. destruct Hall as [Hp Hall].
  unfold Plus. rewrite run_seq, run_chr_eq, append_cons, Hp, run_star.
  apply starLoop_chr_take; try assumption. rewrite length_append. lia.
Qed.

Lemma run_group_plus_chr_take (i : nat) (p : ascii -> bool) k v s1 caps res :
  someChars p v -> stopsAt p s1 -> k s1 ((i, v) :: caps) = Some res ->
  run (Group i (Plus (Chr p))) (v +:+ s1) caps k = Some res.
Proof.
  intros Hv Hstop Hk.
  change (run (Group i (Plus (Chr p))) (v +:+ s1) caps k)
    with (run (Plus (Chr p)) (v +:+ s1) caps (fun s2 caps2 =>
            k s2 ((i, take (String.length (v +:+ s1) - String.length s2) (v +:+ s1))
                  :: caps2))).
  apply run_plus_chr_take; try assumption. rewrite take_append. exact Hk.
Qed.

Lemma run_group_plus_chr_max (i : nat) (p : ascii -> bool) s caps k res :
  (forall s1 caps1, k s1 caps1 <> None) ->
  run (Group i (Plus (Chr p))) s caps k = Some res ->
  exists v s1, s = v +:+ s1 /\ someChars p v /\ stopsAt p s1 /\
               k s1 ((i, v) :: caps) = Some res.
Proof.
  intros Htotal Hrun.
  change (run (Group i (Plus (Chr p))) s caps k)
    with (run (Plus (Chr p)) s caps (fun s1 caps1 =>
            k s1 ((i, take (String.length s - String.length s1) s) :: caps1))) in Hrun.
  unfold Plus in Hrun. rewrite run_seq, run_chr_eq in Hrun.
  destruct s as [|c s]; [discriminate Hrun|].
  destruct (p c) eqn:Hp; [|discriminate Hrun].
  rewrite run_star in Hrun. apply starLoop_chr_max in Hrun; [| |lia].
  2: { intros s1 caps1. apply Htotal. }
  destruct Hrun as (v & s1 & -> & Hall & Hstop & Hk).
  rewrite <- append_cons, take_append in Hk.
  exists (String c v), s1. split; [reflexivity|]. split; [|split; assumption].
  split; [discriminate|]. simpl. rewrite Hp, Hall. reflexivity.
Qed.

(** [exec] finds a match when there is one at some position. *)
Lemma exec_finds (r : regex) before s1 :
  matchAt r s1 <> None -> exec r (before +:+ s1) <> None.
Proof.
  intros Hm. induction before as [|c before IH].
  - change (EmptyString +:+ s1) with s1.
    destruct (matchAt r s1) as [[caps rest]|] eqn:Hs1; [|congruence].
    rewrite (exec_at_start r s1 caps rest Hs1). discriminate.
  - rewrite append_cons. simpl.
    destruct (matchAt r (String c (before +:+ s1))) as [[caps rest]|]; [discriminate|].
    exact IH.
Qed.

End Matcher.

(** ** What the patterns extract *)

Section Extraction.
Import JsString RegExp RegExpSpec.

(** What is left of a match is accepted as it is. *)
Lemma accept_total : forall (s1 : string) (caps1 : captures), Some (caps1, s1) <> None.
Proof. discriminate. Qed.

(** The pattern of the reference number captures the whole run of digits
    after some "Ref." of the text. *)
Lemma referenceNumber_sound (long : string) (m : captures) :
  exec Patterns.referenceNumber long = Some m ->
  exists before v after,
    long = before +:+ "Ref." +:+ v +:+ after /\
    someChars isDigit v /\ stopsAt isDigit after /\ group 1 m = Some v.
Proof.
  intros Hexec. apply exec_matchAt in Hexec.
  destruct Hexec as (before & s1 & rest & -> & Hmatch).
  unfold matchAt, Patterns.referenceNumber, Patterns.seq, Patterns.digits in Hmatch.
  cbn [fold_right] in Hmatch. rewrite run_seq in Hmatch.
  apply run_lit in Hmatch. destruct Hmatch as (s2 & -> & Hmatch).
  rewrite run_seq in Hmatch. apply run_group_plus_chr_max in Hmatch.
  2: { intros s3 caps3. apply accept_total. }
  destruct Hmatch as (v & after & -> & Hv & Hstop & Hend).
  injection Hend as <- _.
  exists before, v, after. repeat split; try apply Hv; assumption.
Qed.

Lemma referenceNumber_complete (before after : string) (d : ascii) :
  isDigit d = true ->
  exec Patterns.referenceNumber (before +:+ "Ref." +:+ String d after) <> None.
Proof.
  intros Hd. apply exec_finds.
  unfold matchAt, Patterns.referenceNumber, Patterns.seq, Patterns.digits.
  cbn [fold_right]. rewrite run_seq, run_lit_append, run_seq.
  change (run (Group 1 (Plus (Chr isDigit))) (String d after) [] ?k)
    with (run (Plus (Chr isDigit)) (String d after) []
            (fun s1 caps1 =>
               k s1 ((1, take (String.length (String d after) - String.length s1)
                               (String d after)) :: caps1))).
  unfold Plus. rewrite run_seq, run_chr_eq, Hd, run_star.
  apply starLoop_chr_total. intros s1 caps1. apply accept_total.
Qed.

Lemma transferTo_sound (long : string) (m : captures) :
  exec Patterns.transferTo long = Some m ->
  exists before w number after,
    long = before +:+ "Transfer to " +:+ w +:+ " " +:+ number +:+ after /\
    someChars isWord w /\ someChars isDigit number /\ stopsAt isDigit after /\
    group 1 m = Some number.
Proof.
  intros Hexec. apply exec_matchAt in Hexec.
  destruct Hexec as (before & s1 & rest & -> & Hmatch).
  unfold matchAt, Patterns.transferTo, Patterns.seq, Patterns.digits, Patterns.words
    in Hmatch.
  cbn [fold_right] in Hmatch. rewrite run_seq in Hmatch.
  apply run_lit in Hmatch. destruct Hmatch as (s2 & -> & Hmatch).
  rewrite run_seq in Hmatch. apply run_plus_chr in Hmatch.
  destruct Hmatch as (w & s3 & -> & Hw & Hmatch).
  rewrite run_seq in Hmatch. apply run_lit in Hmatch.
  destruct Hmatch as (s4 & -> & Hmatch).
  rewrite run_seq in Hmatch. apply run_group_plus_chr_max in Hmatch.
  2: { intros s5 caps5. apply accept_total. }
  destruct Hmatch as (number & after & -> & Hnumber & Hstop & Hend).
  injection Hend as <- _.
  exists before, w, number, after. repeat split; try apply Hw; try apply Hnumber; assumption.
Qed.

Lemma bpay_sound (long : string) (m : captures) :
  exec Patterns.bpay long = Some m ->
  exists before name code receipt after,
    long = before +:+ "Internet BPay to " +:+ name +:+ " - Biller Code " +:+ code
           +:+ " - Receipt No " +:+ receipt +:+ after /\
    someChars (anyOf [isWord; isSpace]) name /\
    someChars isDigit code /\ someChars isDigit receipt /\ stopsAt isDigit after /\
    group 1 m = Some name /\ group 2 m = Some code /\ group 3 m = Some receipt.
Proof.
  intros Hexec. apply exec_matchAt in Hexec.
  destruct Hexec as (before & s1 & rest & -> & Hmatch).
  unfold matchAt, Patterns.bpay, Patterns.seq, Patterns.digits, Patterns.wordsAndSpaces
    in Hmatch.
  cbn [fold_right] in Hmatch. rewrite run_seq in Hmatch.
  apply run_lit in Hmatch. destruct Hmatch as (s2 & -> & Hmatch).
  rewrite run_seq in Hmatch. apply run_group_plus_chr in Hmatch.
  destruct Hmatch as (name & s3 & -> & Hname & Hmatch).
  rewrite run_seq in Hmatch. apply run_lit in Hmatch.
  destruct Hmatch as (s4 & -> & Hmatch).
  rewrite run_seq in Hmatch. apply run_group_plus_chr in Hmatch.
  destruct Hmatch as (code & s5 & -> & Hcode & Hmatch).
  rewrite run_seq in Hmatch. apply run_lit in Hmatch.
  destruct Hmatch as (s6 & -> & Hmatch).
  rewrite run_seq in Hmatch. apply run_group_plus_chr_max in Hmatch.
  2: { intros s7 caps7. apply accept_total. }
  destruct Hmatch as (receipt & after & -> & Hreceipt & Hstop & Hend).
  injection Hend as <- _.
  exists before, name, code, receipt, after.
  repeat split; try apply Hname; try apply Hcode; try apply Hreceipt; assumption.
Qed.

(** X1.  A long description made of "Transfer to ", a word, a blank and a
    bank account number (digits, followed by something that is not a
    digit) gives back that account number as the destination of the
    transfer. *)
Theorem transfer_narrative_round_trip (w number after : string) :
  someChars isWord w -> someChars isDigit number -> stopsAt isDigit after ->
  destinationOf Patterns.transferTo
    ("Transfer to " +:+ w +:+ " " +:+ number +:+ after) = Some number.
Proof.
  intros Hw Hnumber Hstop. unfold destinationOf.
  rewrite (exec_at_start Patterns.transferTo _ [(1, number)] after); [reflexivity|].
  unfold matchAt, Patterns.transferTo, Patterns.seq, Patterns.digits, Patterns.words.
  cbn [fold_right]. rewrite run_seq, run_lit_append, run_seq.
  apply run_plus_chr_take; [exact Hw | change (isWord " "%char = false); reflexivity |].
  rewrite run_seq, run_lit_append, run_seq.
  apply run_group_plus_chr_take; [exact Hnumber | exact Hstop | reflexivity].
Qed.

(** X2.  The destination that the pattern of a transfer extracts is a run
    of digits of the long description: the text has "Transfer to ", a word
    and a blank before it, and no digit right after it. *)
Theorem transfer_destination_is_a_number (long number : string) :
  destinationOf Patterns.transferTo long = Some number ->
  exists before w after,
    long = before +:+ "Transfer to " +:+ w +:+ " " +:+ number +:+ after /\
    someChars isWord w /\ someChars isDigit number /\ stopsAt isDigit after.
Proof.
  unfold destinationOf. intros Hdest.
  destruct (exec Patterns.transferTo long) as [m|] eqn:Hexec; [|discriminate Hdest].
  simpl in Hdest. apply transferTo_sound in Hexec.
  destruct Hexec as (before & w & n & after & Hlong & Hw & Hn & Hstop & Hgroup).
  rewrite Hgroup in Hdest. injection Hdest as <-.
  exists before, w, after. repeat split; try apply Hw; try apply Hn; assumption.
Qed.

End Extraction.

Lemma transfer_narrative_round_trip_witness :
  destinationOf Patterns.transferTo "Transfer to SAV 55555555. Monthly savings"
  = Some "55555555".
Proof.
  apply (transfer_narrative_round_trip "SAV" "55555555" ". Monthly savings").
  - split; [discriminate | reflexivity].
  - split; [discriminate | reflexivity].
  - reflexivity.
Defined.

Lemma transfer_destination_is_a_number_witness :
  exists before w after,
    Long_description Sample.transferRow
    = before +:+ "Transfer to " +:+ w +:+ " " +:+ "55555555" +:+ after /\
    RegExpSpec.someChars JsString.isWord w /\
    RegExpSpec.someChars JsString.isDigit "55555555" /\
    RegExpSpec.stopsAt JsString.isDigit after.
Proof.
  apply (transfer_destination_is_a_number (Long_description Sample.transferRow) "55555555").
  vm_compute. reflexivity.
Defined.

Section References.
Context `{env : Host}.
Variable idMapping : gmap string UUID.
Import JsString RegExp RegExpSpec.

(** What a card row and a BPAY row put in the candidate. *)
Lemma visa_candidate row st t st' :
  Transaction_type row = "VISA" ->
  csvDataRowToTransactionAsync idMapping row st = (Returns (Some t), st') ->
  imported_id t
  = match exec Patterns.referenceNumber (Long_description row) with
    | Some m => group 1 m
    | None => None
    end.
Proof.
  intros Htype. unfold csvDataRowToTransactionAsync. cbv zeta.
  rewrite Htype. eval_eqb. intros Hrun.
  destruct (isZero _ && isZero _); [inv_run|].
  destruct (falsy _); [inv_run|].
  unfold parseTransactionTypeVisaAsync in Hrun. cbv zeta in Hrun.
  apply bind_returns in Hrun. destruct Hrun as (name & st1 & _ & Hrun).
  apply bind_returns in Hrun. destruct Hrun as (cat & st2 & _ & Hrun).
  apply ret_returns in Hrun. destruct Hrun as [Ht _]. injection Ht as <-.
  reflexivity.
Qed.

Lemma bpay_candidate row st t st' :
  Transaction_type row = "BPAY" ->
  csvDataRowToTransactionAsync idMapping row st = (Returns (Some t), st') ->
  exists m,
    exec Patterns.bpay (Long_description row) = Some m /\
    payee_name t = group 1 m /\
    imported_id t = Some (interpolate (group 2 m) +:+ "-" +:+ interpolate (group 3 m)) /\
    payee t = None /\ category t = None /\ cleared t = Some true.
Proof.
  intros Htype. unfold csvDataRowToTransactionAsync. cbv zeta.
  rewrite Htype. eval_eqb. intros Hrun.
  destruct (isZero _ && isZero _); [inv_run|].
  destruct (falsy _); [inv_run|].
  unfold parseTransactionTypeBPay in Hrun. cbv zeta in Hrun.
  destruct (exec Patterns.bpay (Long_description row)) as [m|]; [|inv_run].
  apply ret_returns in Hrun. destruct Hrun as [Ht _]. injection Ht as <-.
  exists m. repeat split.
Qed.

(** X3.  The imported id of a card candidate is the reference number of the
    long description: when there is one, it is the whole run of digits that
    follows some "Ref." of the text; there is none only when no "Ref." of
    the text is followed by a digit. *)
Theorem card_imported_id_is_the_reference (row : CSVDataRow) (st st' : Actual)
    (t : ITransaction) :
  Transaction_type row = "VISA" ->
  csvDataRowToTransactionAsync idMapping row st = (Returns (Some t), st') ->
  (forall v, imported_id t = Some v ->
     exists before after,
       Long_description row = before +:+ "Ref." +:+ v +:+ after /\
       someChars isDigit v /\ stopsAt isDigit after) /\
  (imported_id t = None ->
   forall before d after,
     Long_description row = before +:+ "Ref." +:+ String d after -> isDigit d = false).
Proof.
  intros Htype Hrun. rewrite (visa_candidate row st t st' Htype Hrun).
  destruct (exec Patterns.referenceNumber (Long_description row)) as [m|] eqn:Hexec.
  - apply referenceNumber_sound in Hexec.
    destruct Hexec as (before & v & after & Hlong & Hv & Hstop & Hgroup).
    rewrite Hgroup. split.
    + intros v' Heq. injection Heq as <-. exists before, after. auto.
    + discriminate.
  - split; [discriminate|]. intros _ before d after Hlong.
    destruct (isDigit d) eqn:Hd; [|reflexivity].
    exfalso. apply (referenceNumber_complete before after d Hd).
    rewrite <- Hlong. exact Hexec.
Qed.

(** X4.  A BPAY candidate has the payee name, biller code and receipt
    number of an "Internet BPay to <name> - Biller Code <code> - Receipt No
    <receipt>" in the long description: the name is made of word characters
    and blanks, the imported id is the code, a dash and the receipt number,
    both runs of digits; it has no payee id and no category and is
    cleared. *)
Theorem bpay_candidate_fields (row : CSVDataRow) (st st' : Actual) (t : ITransaction) :
  Transaction_type row = "BPAY" ->
  csvDataRowToTransactionAsync idMapping row st = (Returns (Some t), st') ->
  exists before name code receipt after,
    Long_description row
    = before +:+ "Internet BPay to " +:+ name +:+ " - Biller Code " +:+ code
      +:+ " - Receipt No " +:+ receipt +:+ after /\
    someChars (anyOf [isWord; isSpace]) name /\
    someChars isDigit code /\ someChars isDigit receipt /\ stopsAt isDigit after /\
    payee_name t = Some name /\ imported_id t = Some (code +:+ "-" +:+ receipt) /\
    payee t = None /\ category t = None /\ cleared t = Some true.
Proof.
  intros Htype Hrun.
  destruct (bpay_candidate row st t st' Htype Hrun)
    as (m & Hexec & Hname & Hid & Hpayee & Hcat & Hcleared).
  apply bpay_sound in Hexec.
  destruct Hexec as (before & name & code & receipt & after & Hlong & Hn & Hc & Hr
                     & Hstop & Hg1 & Hg2 & Hg3).
  rewrite Hg1 in Hname. rewrite Hg2, Hg3 in Hid.
  exists before, name, code, receipt, after. repeat split; try apply Hn; try apply Hc;
    try apply Hr; assumption.
Qed.

End References.

Lemma card_imported_id_is_the_reference_witness :
  exists before after,
    Long_description Sample.cloudflareRow = before +:+ "Ref." +:+ "0123456789" +:+ after /\
    RegExpSpec.someChars JsString.isDigit "0123456789" /\
    RegExpSpec.stopsAt JsString.isDigit after.
Proof.
  refine (proj1 (card_imported_id_is_the_reference (env:=Sample.host) Sample.idMapping
                   Sample.cloudflareRow Sample.ledger _ _ _ _) "0123456789" _).
  - reflexivity.
  - vm_compute. reflexivity.
  - reflexivity.
Defined.

Lemma bpay_candidate_fields_witness :
  exists t st',
    csvDataRowToTransactionAsync (env:=Sample.host) Sample.idMapping Examples.bpayRow
      Sample.ledger = (Returns (Some t), st') /\
    exists before name code receipt after,
      Long_description Examples.bpayRow
      = before +:+ "Internet BPay to " +:+ name +:+ " - Biller Code " +:+ code
        +:+ " - Receipt No " +:+ receipt +:+ after /\
      RegExpSpec.someChars (RegExp.anyOf [JsString.isWord; JsString.isSpace]) name /\
      RegExpSpec.someChars JsString.isDigit code /\
      RegExpSpec.someChars JsString.isDigit receipt /\
      RegExpSpec.stopsAt JsString.isDigit after /\
      payee_name t = Some name /\ imported_id t = Some (code +:+ "-" +:+ receipt) /\
      payee t = None /\ category t = None /\ cleared t = Some true.
Proof.
  eexists _, _. split.
  - vm_compute. reflexivity.
  - refine (bpay_candidate_fields (env:=Sample.host) Sample.idMapping Examples.bpayRow
              Sample.ledger _ _ _ _).
    + reflexivity.
    + vm_compute. reflexivity.
Defined.


(** ** What every candidate looks like *)

Section Shape.
Context `{env : Host}.
Variable idMapping : gmap string UUID.

Ltac shape :=
  match goal with
  | Hblank : blank ?base |- _ =>
      destruct Hblank as (Hid & Htr & Hp & Hpn & Hc & Hi & Hcl);
      unfold wellShaped; simpl; rewrite ?Hid, ?Htr, ?Hp, ?Hpn, ?Hc, ?Hi, ?Hcl;
      repeat split; auto 6
  end.

Lemma all_shape row base st t st' :
  blank base ->
  parseTransactionTypeAllAsync idMapping row base st = (Returns (Some t), st') ->
  wellShaped t.
Proof.
  intros Hblank. unfold parseTransactionTypeAllAsync. cbv zeta. intros Hrun.
  inv_run; shape.
Qed.

Lemma other_shape row base st t st' :
  blank base ->
  parseTransactionTypeAllWdls row base st = (Returns (Some t), st')
  \/ parseTransactionTypeAllDeposits row base st = (Returns (Some t), st')
  \/ parseTransactionTypeBPay row base st = (Returns (Some t), st')
  \/ parseTransactionTypeVisaAsync row base st = (Returns (Some t), st') ->
  wellShaped t /\ cleared t = Some true /\ payee t = None.
Proof.
  intros Hblank.
  unfold parseTransactionTypeAllWdls, parseTransactionTypeAllDeposits,
    parseTransactionTypeBPay, parseTransactionTypeVisaAsync.
  cbv zeta. intros [Hrun | [Hrun | [Hrun | Hrun]]]; inv_run;
    (split; [shape | destruct Hblank as (_ & _ & Hp & _ & _ & _ & Hcl); split; assumption]).
Qed.

Lemma baseTransaction_blank row account : blank (baseTransaction row account).
Proof. repeat split. Qed.

(** A row that yields a candidate has an amount, a mapped account, and went
    through the parser of its transaction type with its base candidate. *)
Lemma candidate_dispatch row st t st' :
  csvDataRowToTransactionAsync idMapping row st = (Returns (Some t), st') ->
  isZero (amountToInteger (parseFloat (Debit_amount row)))
  && isZero (amountToInteger (parseFloat (Credit_amount row))) = false /\
  exists account,
    idMapping !! Account_number row = Some account /\ account <> EmptyString /\
    ((Transaction_type row = "ALL" /\
      parseTransactionTypeAllAsync idMapping row (baseTransaction row account) st
      = (Returns (Some t), st'))
     \/ (Transaction_type row <> "ALL" /\
         (parseTransactionTypeAllWdls row (baseTransaction row account) st
          = (Returns (Some t), st')
          \/ parseTransactionTypeAllDeposits row (baseTransaction row account) st
             = (Returns (Some t), st')
          \/ parseTransactionTypeBPay row (baseTransaction row account) st
             = (Returns (Some t), st')
          \/ parseTransactionTypeVisaAsync row (baseTransaction row account) st
             = (Returns (Some t), st')))).
Proof.
  unfold csvDataRowToTransactionAsync. cbv zeta. intros Hrun.
  destruct (isZero _ && isZero _) eqn:Hzero; [inv_run|].
  split; [reflexivity|].
  destruct (idMapping !! Account_number row) as [acct|] eqn:Hacct; [|inv_run; discriminate].
  exists acct. split; [reflexivity|].
  change (default EmptyString (Some acct)) with acct in Hrun.
  fold (baseTransaction row acct) in Hrun.
  destruct acct as [|c acct]; [inv_run; discriminate|].
  split; [discriminate|]. change (falsy (Some (String c acct))) with false in Hrun.
  cbv iota in Hrun.
  destruct (String.eqb (Transaction_type row) "ALL") eqn:Hall.
  { left. apply String.eqb_eq in Hall. split; assumption. }
  right. apply String.eqb_neq in Hall. split; [exact Hall|].
  repeat match type of Hrun with
         | (if ?b then _ else _) _ = _ => destruct b
         end; auto.
  inv_run.
Qed.

(** X5.  A candidate never has both a payee id and a payee name, and never
    an id or a transfer id of its own; a payee id is only ever set on a row
    of type 'ALL'. *)
Theorem candidate_has_one_kind_of_payee (row : CSVDataRow) (st st' : Actual)
    (t : ITransaction) :
  csvDataRowToTransactionAsync idMapping row st = (Returns (Some t), st') ->
  (payee t = None \/ payee_name t = None) /\
  (payee t <> None -> Transaction_type row = "ALL") /\
  id t = None /\ transfer_id t = None.
Proof.
  intros Hrun. apply candidate_dispatch in Hrun.
  destruct Hrun as (_ & account & _ & _ & [[Htype Hrun] | [Htype Hrun]]).
  - apply all_shape in Hrun; [|apply baseTransaction_blank].
    destruct Hrun as (Hid & Htr & Hone & _). auto.
  - apply other_shape in Hrun; [|apply baseTransaction_blank].
    destruct Hrun as ((Hid & Htr & Hone & _) & _ & Hpayee).
    repeat split; try assumption. intros Hsome. congruence.
Qed.

(** X6.  A candidate is cleared unless it is the catch-all of a row of type
    'ALL', and then nothing was extracted for it: it has no payee id, no
    payee name, no category and no imported id. *)
Theorem uncleared_candidate_is_unclassified (row : CSVDataRow) (st st' : Actual)
    (t : ITransaction) :
  csvDataRowToTransactionAsync idMapping row st = (Returns (Some t), st') ->
  cleared t = Some true \/
  (cleared t = Some false /\ Transaction_type row = "ALL" /\
   payee t = None /\ payee_name t = None /\ category t = None /\ imported_id t = None).
Proof.
  intros Hrun. apply candidate_dispatch in Hrun.
  destruct Hrun as (_ & account & _ & _ & [[Htype Hrun] | [Htype Hrun]]).
  - apply all_shape in Hrun; [|apply baseTransaction_blank].
    destruct Hrun as (_ & _ & _ & [Hcleared | Hnot]); [left; assumption|].
    right. destruct Hnot as (? & ? & ? & ? & ?). auto 7.
  - apply other_shape in Hrun; [|apply baseTransaction_blank].
    left. apply Hrun.
Qed.

(** X7.  A candidate belongs to the ledger account that the mapping gives
    for the account number of its row, which is not empty; its amount is the
    credit minus the debit, which are not both zero; and its date is the
    normalised effective date of the row. *)
Theorem candidate_account_and_amount (row : CSVDataRow) (st st' : Actual)
    (t : ITransaction) :
  csvDataRowToTransactionAsync idMapping row st = (Returns (Some t), st') ->
  let debit := amountToInteger (parseFloat (Debit_amount row)) in
  let credit := amountToInteger (parseFloat (Credit_amount row)) in
  idMapping !! Account_number row = Some (account t) /\ account t <> "" /\
  amount t = Some (PrimFloat.sub credit debit) /\
  isZero debit && isZero credit = false /\
  date t = extractDate (Effective_date row).
Proof.
  intros Hrun. cbv zeta. pose proof (candidate_dispatch _ _ _ _ Hrun) as Hdisp.
  destruct Hdisp as (Hamount & account & Hacct & Hne & _).
  apply candidate_extends_base in Hrun. destruct Hrun as (account' & Hacct' & Hext).
  rewrite Hacct in Hacct'. injection Hacct' as <-.
  destruct Hext as (Ha & Hd & Ham & _).
  rewrite Ha, Hd, Ham. repeat split; assumption.
Qed.

End Shape.

Lemma candidate_has_one_kind_of_payee_witness :
  exists t st',
    csvDataRowToTransactionAsync (env:=Sample.host) Sample.idMapping Sample.transferRow
      Sample.ledger = (Returns (Some t), st') /\
    (payee t = None \/ payee_name t = None) /\
    (payee t <> None -> Transaction_type Sample.transferRow = "ALL") /\
    id t = None /\ transfer_id t = None.
Proof.
  eexists _, _. split.
  - vm_compute. reflexivity.
  - refine (candidate_has_one_kind_of_payee (env:=Sample.host) Sample.idMapping
              Sample.transferRow Sample.ledger _ _ _).
    vm_compute. reflexivity.
Defined.

Lemma uncleared_candidate_is_unclassified_witness :
  exists t st',
    csvDataRowToTransactionAsync (env:=Sample.host) Sample.idMapping Examples.otherRow
      Sample.ledger = (Returns (Some t), st') /\
    (cleared t = Some true \/
     (cleared t = Some false /\ Transaction_type Examples.otherRow = "ALL" /\
      payee t = None /\ payee_name t = None /\ category t = None /\
      imported_id t = None)).
Proof.
  eexists _, _. split.
  - vm_compute. reflexivity.
  - refine (uncleared_candidate_is_unclassified (env:=Sample.host) Sample.idMapping
              Examples.otherRow Sample.ledger _ _ _).
    vm_compute. reflexivity.
Defined.

Lemma candidate_account_and_amount_witness :
  exists t st',
    csvDataRowToTransactionAsync (env:=Sample.host) Sample.idMapping Sample.liquorRow
      Sample.ledger = (Returns (Some t), st') /\
    Sample.idMapping !! Account_number Sample.liquorRow = Some (account t) /\
    account t <> "" /\
    amount t = Some (PrimFloat.sub 0 2550) /\
    isZero 2550 && isZero 0 = false /\
    date t = extractDate (env:=Sample.host) (Effective_date Sample.liquorRow).
Proof.
  eexists _, _. split.
  - vm_compute. reflexivity.
  - refine (candidate_account_and_amount (env:=Sample.host) Sample.idMapping
              Sample.liquorRow Sample.ledger _ _ _).
    vm_compute. reflexivity.
Defined.

(** ** Payments to and from other banks, and the rows that are skipped *)

Section Payments.
Context `{env : Host}.
Variable idMapping : gmap string UUID.
Import JsString RegExp RegExpSpec.

Lemma run_alt (r1 r2 : regex) s caps k res :
  run (Alt r1 r2) s caps k = Some res ->
  run r1 s caps k = Some res \/ run r2 s caps k = Some res.
Proof.
  simpl. destruct (run r1 s caps k) as [m|].
  - intros Hm. left. exact Hm.
  - intros Hm. right. exact Hm.
Qed.

(** The end of the pattern of an Osko payment: " Ref#" and the whole run
    of digits after it. *)
Lemma osko_reference s caps res :
  run (Seq (Lit " Ref#") (Seq (Group 2 (Plus (Chr isDigit))) Eps)) s caps
      (fun s1 caps1 => Some (caps1, s1)) = Some res ->
  exists ref after,
    s = " Ref#" +:+ ref +:+ after /\ someChars isDigit ref /\ stopsAt isDigit after /\
    res = ((2, ref) :: caps, after).
Proof.
  intros Hmatch. rewrite run_seq in Hmatch.
  apply run_lit in Hmatch. destruct Hmatch as (s2 & -> & Hmatch).
  rewrite run_seq in Hmatch. apply run_group_plus_chr_max in Hmatch.
  2: { intros s3 caps3. apply accept_total. }
  destruct Hmatch as (ref & after & -> & Href & Hstop & Hend).
  injection Hend as <-.
  exists ref, after. repeat split; try apply Href; assumption.
Qed.

Lemma oskoTo_sound (long : string) (m : captures) :
  exec Patterns.oskoTo long = Some m ->
  exists before name via ref after,
    long = before +:+ "Osko Payment To " +:+ name +:+ " " +:+ via +:+ " Ref#" +:+ ref
           +:+ after /\
    someChars (anyOf [isWord; isSpace]) name /\ recipient via /\
    someChars isDigit ref /\ stopsAt isDigit after /\
    group 1 m = Some name /\ group 2 m = Some ref.
Proof.
  intros Hexec. apply exec_matchAt in Hexec.
  destruct Hexec as (before & s1 & rest & -> & Hmatch).
  unfold matchAt, Patterns.oskoTo, Patterns.seq, Patterns.digits, Patterns.wordsAndSpaces
    in Hmatch.
  cbn [fold_right] in Hmatch. rewrite run_seq in Hmatch.
  apply run_lit in Hmatch. destruct Hmatch as (s2 & -> & Hmatch).
  rewrite run_seq in Hmatch. apply run_group_plus_chr in Hmatch.
  destruct Hmatch as (name & s3 & -> & Hname & Hmatch).
  rewrite run_seq in Hmatch. apply run_lit in Hmatch.
  destruct Hmatch as (s4 & -> & Hmatch).
  rewrite run_seq in Hmatch.
  assert (Hvia : exists via s5,
             s4 = via +:+ s5 /\ recipient via /\
             run (Seq (Lit " Ref#") (Seq (Group 2 (Plus (Chr isDigit))) Eps)) s5
                 [(1, name)] (fun s1 caps1 => Some (caps1, s1)) = Some (m, rest)).
  { apply run_alt in Hmatch. destruct Hmatch as [Hmatch | Hmatch].
    - apply run_plus_chr in Hmatch. destruct Hmatch as (via & s5 & -> & Hvia & Hmatch).
      exists via, s5. split; [reflexivity|]. split; [left; exact Hvia | exact Hmatch].
    - apply run_alt in Hmatch. destruct Hmatch as [Hmatch | Hmatch].
      + rewrite run_seq in Hmatch. apply run_lit in Hmatch.
        destruct Hmatch as (s5 & -> & Hmatch).
        apply run_plus_chr in Hmatch. destruct Hmatch as (x & s6 & -> & Hx & Hmatch).
        exists ("Account " +:+ x), s6. split; [rewrite append_assoc; reflexivity|].
        split; [right; left; exists x; split; [reflexivity | exact Hx] | exact Hmatch].
      + apply run_plus_chr in Hmatch. destruct Hmatch as (via & s5 & -> & Hvia & Hmatch).
        exists via, s5. split; [reflexivity|]. split; [right; right; exact Hvia | exact Hmatch]. }
  clear Hmatch. destruct Hvia as (via & s5 & -> & Hvia & Hmatch).
  apply osko_reference in Hmatch.
  destruct Hmatch as (ref & after & -> & Href & Hstop & Hend).
  injection Hend as -> _.
  exists before, name, via, ref, after. repeat split; try apply Hname; try apply Href; assumption.
Qed.

Lemma directDebit_sound (long : string) (m : captures) :
  exec Patterns.directDebit long = Some m ->
  exists before name after,
    long = before +:+ "Direct Debit " +:+ name +:+ " - " +:+ after /\
    someChars (anyOf [isWord; isSpace]) name /\ group 1 m = Some name.
Proof.
  intros Hexec. apply exec_matchAt in Hexec.
  destruct Hexec as (before & s1 & rest & -> & Hmatch).
  unfold matchAt, Patterns.directDebit, Patterns.seq, Patterns.wordsAndSpaces,
    Patterns.anything in Hmatch.
  cbn [fold_right] in Hmatch. rewrite run_seq in Hmatch.
  apply run_lit in Hmatch. destruct Hmatch as (s2 & -> & Hmatch).
  rewrite run_seq in Hmatch. apply run_group_plus_chr in Hmatch.
  destruct Hmatch as (name & s3 & -> & Hname & Hmatch).
  rewrite run_seq in Hmatch. apply run_lit in Hmatch.
  destruct Hmatch as (after & -> & Hmatch).
  rewrite run_seq in Hmatch. apply run_star_chr in Hmatch.
  destruct Hmatch as (v & s5 & _ & _ & Hend).
  injection Hend as <- _.
  exists before, name, after. repeat split; apply Hname.
Qed.

Lemma directCredit_sound (long : string) (m : captures) :
  exec Patterns.directCredit long = Some m ->
  exists before name after,
    long = before +:+ "Direct Credit " +:+ name +:+ " - " +:+ after /\
    someChars isDot name /\ group 1 m = Some name.
Proof.
  intros Hexec. apply exec_matchAt in Hexec.
  destruct Hexec as (before & s1 & rest & -> & Hmatch).
  unfold matchAt, Patterns.directCredit, Patterns.seq, Patterns.anything in Hmatch.
  cbn [fold_right] in Hmatch. rewrite run_seq in Hmatch.
  apply run_lit in Hmatch. destruct Hmatch as (s2 & -> & Hmatch).
  rewrite run_seq in Hmatch. apply run_group_plus_chr in Hmatch.
  destruct Hmatch as (name & s3 & -> & Hname & Hmatch).
  rewrite run_seq in Hmatch. apply run_lit in Hmatch.
  destruct Hmatch as (after & -> & Hmatch).
  rewrite run_seq in Hmatch. apply run_star_chr in Hmatch.
  destruct Hmatch as (v & s5 & _ & _ & Hend).
  injection Hend as <- _.
  exists before, name, after. repeat split; apply Hname.
Qed.

Lemma oskoFrom_sound (long : string) (m : captures) :
  exec Patterns.oskoFrom long = Some m ->
  exists before name after,
    long = before +:+ "Osko Payment From " +:+ name +:+ after /\
    someChars (anyOf [isWord; isSpace]) name /\
    stopsAt (anyOf [isWord; isSpace]) after /\ group 1 m = Some name.
Proof.
  intros Hexec. apply exec_matchAt in Hexec.
  destruct Hexec as (before & s1 & rest & -> & Hmatch).
  unfold matchAt, Patterns.oskoFrom, Patterns.seq, Patterns.wordsAndSpaces in Hmatch.
  cbn [fold_right] in Hmatch. rewrite run_seq in Hmatch.
  apply run_lit in Hmatch. destruct Hmatch as (s2 & -> & Hmatch).
  rewrite run_seq in Hmatch. apply run_group_plus_chr_max in Hmatch.
  2: { intros s3 caps3. apply accept_total. }
  destruct Hmatch as (name & after & -> & Hname & Hstop & Hend).
  injection Hend as <- _.
  exists before, name, after. repeat split; try apply Hname; assumption.
Qed.

(** X27.  A candidate of an 'ALL WDLS' row has no payee id and no category
    and is cleared, and it comes from one of two narratives.  Either the
    long description starts with "Osko Payment To" and contains "Osko
    Payment To <name> <recipient> Ref#<reference>", the name being made of
    word characters and blanks, the recipient an address, an account or a
    phone number, and the reference a whole run of digits: the payee name is
    that name and the imported id that reference.  Or it starts with "Direct
    Debit" and contains "Direct Debit <name> - ": the payee name is that
    name and there is no imported id. *)
Theorem withdrawal_candidate_fields (row : CSVDataRow) (st st' : Actual)
    (t : ITransaction) :
  Transaction_type row = "ALL WDLS" ->
  csvDataRowToTransactionAsync idMapping row st = (Returns (Some t), st') ->
  payee t = None /\ category t = None /\ cleared t = Some true /\
  ((startsWith (Long_description row) "Osko Payment To" = true /\
    exists before name via ref after,
      Long_description row
      = before +:+ "Osko Payment To " +:+ name +:+ " " +:+ via +:+ " Ref#" +:+ ref
        +:+ after /\
      someChars (anyOf [isWord; isSpace]) name /\ recipient via /\
      someChars isDigit ref /\ stopsAt isDigit after /\
      payee_name t = Some name /\ imported_id t = Some ref)
   \/ (startsWith (Long_description row) "Direct Debit" = true /\
       exists before name after,
         Long_description row = before +:+ "Direct Debit " +:+ name +:+ " - " +:+ after /\
         someChars (anyOf [isWord; isSpace]) name /\
         payee_name t = Some name /\ imported_id t = None)).
Proof.
  intros Htype. unfold csvDataRowToTransactionAsync. cbv zeta.
  rewrite Htype. eval_eqb. intros Hrun.
  destruct (isZero _ && isZero _); [inv_run|].
  destruct (falsy _); [inv_run|].
  unfold parseTransactionTypeAllWdls in Hrun. cbv zeta in Hrun.
  destruct (startsWith (Long_description row) "Osko Payment To") eqn:Hosko.
  - destruct (exec Patterns.oskoTo (Long_description row)) as [m|] eqn:Hexec; [|inv_run].
    apply ret_returns in Hrun. destruct Hrun as [Ht _]. injection Ht as <-.
    apply oskoTo_sound in Hexec.
    destruct Hexec as (before & name & via & ref & after & Hlong & Hname & Hvia & Href
                       & Hstop & Hg1 & Hg2).
    repeat split. left. split; [reflexivity|].
    exists before, name, via, ref, after. repeat split; try apply Hname; try apply Href;
      assumption.
  - destruct (startsWith (Long_description row) "Direct Debit") eqn:Hdebit; [|inv_run].
    destruct (exec Patterns.directDebit (Long_description row)) as [m|] eqn:Hexec; [|inv_run].
    apply ret_returns in Hrun. destruct Hrun as [Ht _]. injection Ht as <-.
    apply directDebit_sound in Hexec.
    destruct Hexec as (before & name & after & Hlong & Hname & Hg1).
    repeat split. right. split; [reflexivity|].
    exists before, name, after. repeat split; try apply Hname; assumption.
Qed.

(** X28.  A candidate of an 'ALL DEPOSITS' row has no payee id, no
    category and no imported id and is cleared, and it comes from one of
    three narratives.  The long description starts with "Osko Payment From"
    and the payee name is the whole run of word characters and blanks after
    some "Osko Payment From " in it; or it starts with "Direct Credit" and
    the payee name is a text without line break between some "Direct
    Credit " and some " - " in it; or it starts with "SWIFT" and the payee
    name is the short description of the row. *)
Theorem deposit_candidate_fields (row : CSVDataRow) (st st' : Actual)
    (t : ITransaction) :
  Transaction_type row = "ALL DEPOSITS" ->
  csvDataRowToTransactionAsync idMapping row st = (Returns (Some t), st') ->
  payee t = None /\ category t = None /\ imported_id t = None /\
  cleared t = Some true /\
  ((startsWith (Long_description row) "Osko Payment From" = true /\
    exists before name after,
      Long_description row = before +:+ "Osko Payment From " +:+ name +:+ after /\
      someChars (anyOf [isWord; isSpace]) name /\
      stopsAt (anyOf [isWord; isSpace]) after /\ payee_name t = Some name)
   \/ (startsWith (Long_description row) "Direct Credit" = true /\
       exists before name after,
         Long_description row = before +:+ "Direct Credit " +:+ name +:+ " - " +:+ after /\
         someChars isDot name /\ payee_name t = Some name)
   \/ (startsWith (Long_description row) "SWIFT" = true /\
       payee_name t = Some (Description row))).
Proof.
  intros Htype. unfold csvDataRowToTransactionAsync. cbv zeta.
  rewrite Htype. eval_eqb. intros Hrun.
  destruct (isZero _ && isZero _); [inv_run|].
  destruct (falsy _); [inv_run|].
  unfold parseTransactionTypeAllDeposits in Hrun. cbv zeta in Hrun.
  destruct (startsWith (Long_description row) "Osko Payment From") eqn:Hosko.
  - destruct (exec Patterns.oskoFrom (Long_description row)) as [m|] eqn:Hexec; [|inv_run].
    apply ret_returns in Hrun. destruct Hrun as [Ht _]. injection Ht as <-.
    apply oskoFrom_sound in Hexec.
    destruct Hexec as (before & name & after & Hlong & Hname & Hstop & Hg1).
    repeat split. left. split; [reflexivity|].
    exists before, name, after. repeat split; try apply Hname; assumption.
  - destruct (startsWith (Long_description row) "Direct Credit") eqn:Hcredit.
    + destruct (exec Patterns.directCredit (Long_description row)) as [m|] eqn:Hexec;
        [|inv_run].
      apply ret_returns in Hrun. destruct Hrun as [Ht _]. injection Ht as <-.
      apply directCredit_sound in Hexec.
      destruct Hexec as (before & name & after & Hlong & Hname & Hg1).
      repeat split. right. left. split; [reflexivity|].
      exists before, name, after. repeat split; try apply Hname; assumption.
    + destruct (startsWith (Long_description row) "SWIFT") eqn:Hswift; [|inv_run].
      apply ret_returns in Hrun. destruct Hrun as [Ht _]. injection Ht as <-.
      repeat split. right. right. split; reflexivity.
Qed.

(** X29.  A row is skipped without an error in three cases only, and the
    ledger cache is never touched for it: the row has no amount; or it is a
    row of type 'ALL' with the short description "Internet Transfer" whose
    long description starts with "Received from"; or it is a row of type
    'ALL' with another short description whose long description starts with
    "Net tfr received from". *)
Theorem skipped_rows (row : CSVDataRow) (st st' : Actual) :
  csvDataRowToTransactionAsync idMapping row st = (Returns None, st') ->
  st' = st /\
  (isZero (amountToInteger (parseFloat (Debit_amount row)))
   && isZero (amountToInteger (parseFloat (Credit_amount row))) = true
   \/ (Transaction_type row = "ALL" /\
       ((Description row = "Internet Transfer" /\
         startsWith (Long_description row) "Received from" = true)
        \/ (Description row <> "Internet Transfer" /\
            startsWith (Long_description row) "Net tfr received from" = true)))).
Proof.
  unfold csvDataRowToTransactionAsync. cbv zeta. intros Hrun.
  destruct (isZero _ && isZero _) eqn:Hzero.
  { apply ret_returns in Hrun. destruct Hrun as [_ ->]. split; [reflexivity | left; reflexivity]. }
  destruct (falsy _); [inv_run|].
  destruct (String.eqb (Transaction_type row) "ALL") eqn:Hall.
  - apply String.eqb_eq in Hall.
    unfold parseTransactionTypeAllAsync in Hrun. cbv zeta in Hrun.
    destruct (String.eqb (Description row) "Internet Transfer") eqn:Hdesc.
    + apply String.eqb_eq in Hdesc.
      destruct (startsWith (Long_description row) "Transfer to "); [inv_run|].
      destruct (startsWith (Long_description row) "Received from") eqn:Hreceived;
        [|inv_run].
      apply ret_returns in Hrun. destruct Hrun as [_ ->].
      split; [reflexivity|]. right. split; [exact Hall|]. left. split; [exact Hdesc | reflexivity].
    + apply String.eqb_neq in Hdesc.
      destruct (existsb _ interestLabels); [inv_run|].
      destruct (String.eqb (Description row) "Internet Ext Transfer"); [inv_run|].
      destruct (startsWith (Long_description row) "Net tfr"); [|inv_run].
      destruct (startsWith (Long_description row) "Net tfr to"); [inv_run|].
      destruct (startsWith (Long_description row) "Net tfr received from") eqn:Hreceived;
        [|inv_run].
      apply ret_returns in Hrun. destruct Hrun as [_ ->].
      split; [reflexivity|]. right. split; [exact Hall|]. right. split; [exact Hdesc | reflexivity].
  - unfold parseTransactionTypeAllWdls, parseTransactionTypeAllDeposits,
      parseTransactionTypeBPay, parseTransactionTypeVisaAsync in Hrun.
    cbv zeta in Hrun. inv_run.
Qed.

End Payments.

Lemma withdrawal_candidate_fields_witness :
  exists t st',
    csvDataRowToTransactionAsync (env:=Sample.host) Sample.idMapping Examples.oskoRow
      Sample.ledger = (Returns (Some t), st') /\
    payee t = None /\ category t = None /\ cleared t = Some true /\
    ((JsString.startsWith (Long_description Examples.oskoRow) "Osko Payment To" = true /\
      exists before name via ref after,
        Long_description Examples.oskoRow
        = before +:+ "Osko Payment To " +:+ name +:+ " " +:+ via +:+ " Ref#" +:+ ref
          +:+ after /\
        RegExpSpec.someChars (RegExp.anyOf [JsString.isWord; JsString.isSpace]) name /\
        recipient via /\
        RegExpSpec.someChars JsString.isDigit ref /\
        RegExpSpec.stopsAt JsString.isDigit after /\
        payee_name t = Some name /\ imported_id t = Some ref)
     \/ (JsString.startsWith (Long_description Examples.oskoRow) "Direct Debit" = true /\
         exists before name after,
           Long_description Examples.oskoRow
           = before +:+ "Direct Debit " +:+ name +:+ " - " +:+ after /\
           RegExpSpec.someChars (RegExp.anyOf [JsString.isWord; JsString.isSpace]) name /\
           payee_name t = Some name /\ imported_id t = None)).
Proof.
  eexists _, _. split.
  - vm_compute. reflexivity.
  - refine (withdrawal_candidate_fields (env:=Sample.host) Sample.idMapping
              Examples.oskoRow Sample.ledger _ _ _ _).
    + reflexivity.
    + vm_compute. reflexivity.
Defined.

Lemma deposit_candidate_fields_witness :
  exists t st',
    csvDataRowToTransactionAsync (env:=Sample.host) Sample.idMapping Examples.oskoFromRow
      Sample.ledger = (Returns (Some t), st') /\
    payee t = None /\ category t = None /\ imported_id t = None /\
    cleared t = Some true /\
    ((JsString.startsWith (Long_description Examples.oskoFromRow) "Osko Payment From" = true /\
      exists before name after,
        Long_description Examples.oskoFromRow
        = before +:+ "Osko Payment From " +:+ name +:+ after /\
        RegExpSpec.someChars (RegExp.anyOf [JsString.isWord; JsString.isSpace]) name /\
        RegExpSpec.stopsAt (RegExp.anyOf [JsString.isWord; JsString.isSpace]) after /\
        payee_name t = Some name)
     \/ (JsString.startsWith (Long_description Examples.oskoFromRow) "Direct Credit" = true /\
         exists before name after,
           Long_description Examples.oskoFromRow
           = before +:+ "Direct Credit " +:+ name +:+ " - " +:+ after /\
           RegExpSpec.someChars JsString.isDot name /\ payee_name t = Some name)
     \/ (JsString.startsWith (Long_description Examples.oskoFromRow) "SWIFT" = true /\
         payee_name t = Some (Description Examples.oskoFromRow))).
Proof.
  eexists _, _. split.
  - vm_compute. reflexivity.
  - refine (deposit_candidate_fields (env:=Sample.host) Sample.idMapping
              Examples.oskoFromRow Sample.ledger _ _ _ _).
    + reflexivity.
    + vm_compute. reflexivity.
Defined.

Lemma skipped_rows_witness :
  exists st',
    csvDataRowToTransactionAsync (env:=Sample.host) Sample.idMapping Sample.receivedRow
      Sample.ledger = (Returns None, st') /\
    st' = Sample.ledger /\
    (isZero 0 && isZero 1000 = true
     \/ (Transaction_type Sample.receivedRow = "ALL" /\
         ((Description Sample.receivedRow = "Internet Transfer" /\
           JsString.startsWith (Long_description Sample.receivedRow) "Received from" = true)
          \/ (Description Sample.receivedRow <> "Internet Transfer" /\
              JsString.startsWith (Long_description Sample.receivedRow)
                "Net tfr received from" = true)))).
Proof.
  eexists. split.
  - vm_compute. reflexivity.
  - refine (skipped_rows (env:=Sample.host) Sample.idMapping Sample.receivedRow
              Sample.ledger _ _).
    vm_compute. reflexivity.
Defined.

(** ** What classification does to the ledger cache *)

Section Cache.
Context `{env : Host}.
Variable idMapping : gmap string UUID.

Lemma bind_run {A B} (m : M A) (f : A -> M B) st r st' :
  bind m f st = (r, st') ->
  (exists e, m st = (Throws e, st') /\ r = Throws e)
  \/ (exists a st1, m st = (Returns a, st1) /\ f a st1 = (r, st')).
Proof.
  unfold bind. destruct (m st) as [[a|e] st1]; intros Hrun.
  - right. exists a, st1. split; [reflexivity | exact Hrun].
  - left. exists e. injection Hrun as <- <-. split; reflexivity.
Qed.

Lemma cacheKept_refl st : cacheKept st st.
Proof. repeat split. exists []. rewrite app_nil_r. reflexivity. Qed.

Lemma cacheKept_grows st st' : cacheKept st st' -> cacheGrows st st'.
Proof.
  intros (Hi & Hp & Hd & Hinc & Hc & Ht). repeat split; try assumption.
  exists []. rewrite app_nil_r. split; [assumption | simpl; lia].
Qed.

Lemma cacheKept_then_grows st st1 st2 :
  cacheKept st st1 -> cacheGrows st1 st2 -> cacheGrows st st2.
Proof.
  intros (Hi & Hp & Hd & Hinc & Hc & new1 & Ht)
         (Hi' & Hp' & Hd' & Hinc' & (added & Hc' & Hlen) & new2 & Ht').
  repeat split; try congruence.
  - exists added. split; [congruence | assumption].
  - exists (new1 ++ new2). rewrite Ht', Ht, app_assoc. reflexivity.
Qed.

Lemma cacheGrows_then_kept st st1 st2 :
  cacheGrows st st1 -> cacheKept st1 st2 -> cacheGrows st st2.
Proof.
  intros (Hi & Hp & Hd & Hinc & (added & Hc & Hlen) & new1 & Ht)
         (Hi' & Hp' & Hd' & Hinc' & Hc' & new2 & Ht').
  repeat split; try congruence.
  - exists added. split; [congruence | assumption].
  - exists (new1 ++ new2). rewrite Ht', Ht, app_assoc. reflexivity.
Qed.

Lemma findCategory_run name st :
  findCategory name st
  = (Returns (cached st name),
     mkActual (isInitialised st) (payees st) (categories st)
       (defaultCategoryGroupId st) (incomeCategoryGroupId st)
       (trace st ++ [FindCategory name])).
Proof. reflexivity. Qed.

Lemma findCategory_kept name st r st' :
  findCategory name st = (r, st') -> r = Returns (cached st name) /\ cacheKept st st'.
Proof.
  rewrite findCategory_run. intros Hrun. injection Hrun as <- <-.
  split; [reflexivity|]. repeat split. exists [FindCategory name]. reflexivity.
Qed.

(** The goals that unfolding [cacheGrows] on an explicit state leaves. *)
Ltac grows_done :=
  unfold cacheGrows, cacheKept; simpl; repeat split; try congruence;
  first [ exists []; rewrite app_nil_r; first [ split; [reflexivity | simpl; lia] | reflexivity ]
        | eexists; first [ split; [reflexivity | simpl; lia] | reflexivity ] ].

Lemma createCategoryAsync_grows category st r st' :
  createCategoryAsync category st = (r, st') -> cacheGrows st st'.
Proof.
  unfold createCategoryAsync, bind, gets, throw, ret, log, pushCategory, modify, liftResult.
  destruct (isInitialised st) eqn:Hinit; simpl.
  2: { intros Hrun. injection Hrun as <- <-. apply cacheKept_grows, cacheKept_refl. }
  destruct category as [c|name]; simpl.
  - destruct (createCategory (trace st) c) as [newId|e]; simpl;
      intros Hrun; injection Hrun as <- <-; grows_done.
  - destruct (falsy (defaultCategoryGroupId st)); simpl.
    { intros Hrun. injection Hrun as <- <-. apply cacheKept_grows, cacheKept_refl. }
    destruct (falsy (incomeCategoryGroupId st)); simpl.
    { intros Hrun. injection Hrun as <- <-. apply cacheKept_grows, cacheKept_refl. }
    destruct (createCategory (trace st) _) as [newId|e]; simpl;
      intros Hrun; injection Hrun as <- <-; grows_done.
Qed.

Lemma createInheritedAsync_grows key st r st' :
  createInheritedAsync key st = (r, st') -> cacheGrows st st'.
Proof.
  unfold createInheritedAsync, bind, gets, throw, ret, log, pushCategory, modify, liftResult.
  destruct (isInitialised st) eqn:Hinit; simpl.
  2: { intros Hrun. injection Hrun as <- <-. apply cacheKept_grows, cacheKept_refl. }
  destruct (createInherited (trace st) key) as [[newId c]|e]; simpl;
    intros Hrun; injection Hrun as <- <-; grows_done.
Qed.

Lemma resolveTransferPayee_state number st r st' :
  resolveTransferPayee idMapping number st = (r, st') -> st' = st.
Proof.
  unfold resolveTransferPayee, bind, findTransferPayee, gets, throw, ret. cbv zeta.
  destruct (falsy _); [intros Hrun; injection Hrun as _ <-; reflexivity|].
  destruct (transferPayeeOf st _); intros Hrun; injection Hrun as _ <-; reflexivity.
Qed.

(** Inversion of a run with any outcome. *)
Ltac inv_any :=
  repeat match goal with
  | Hrun : ret _ _ = (_, _) |- _ =>
      unfold ret in Hrun; first [discriminate Hrun | injection Hrun as ? ?; subst]
  | Hrun : throw _ _ = (_, _) |- _ =>
      unfold throw in Hrun; first [discriminate Hrun | injection Hrun as ? ?; subst]
  | Hrun : (if ?b then _ else _) _ = (_, _) |- _ => destruct b eqn:?
  | Hrun : (match ?x with Some _ => _ | None => _ end) _ = (_, _) |- _ =>
      destruct x eqn:?
  | Hrun : (match ?x with Entry _ => _ | Inherited _ => _ end) _ = (_, _) |- _ =>
      destruct x eqn:?
  | Hrun : bind _ _ _ = (_, _) |- _ =>
      apply bind_run in Hrun; destruct Hrun as [(? & Hrun & ?) | (? & ? & ? & Hrun)]
  end.

Ltac cache_done :=
  repeat match goal with
  | Hrun : resolveTransferPayee _ _ _ = (_, _) |- _ =>
      apply resolveTransferPayee_state in Hrun; subst
  | Hrun : visaPayeeName _ _ = (_, _) |- _ =>
      apply visaPayeeName_state in Hrun; subst
  | Hrun : findCategory _ _ = (_, _) |- _ =>
      apply findCategory_kept in Hrun; destruct Hrun as [? Hrun]
  | Hrun : createCategoryAsync _ _ = (_, _) |- _ =>
      apply createCategoryAsync_grows in Hrun
  | Hrun : createInheritedAsync _ _ = (_, _) |- _ =>
      apply createInheritedAsync_grows in Hrun
  end;
  eauto using cacheKept_refl, cacheKept_grows, cacheKept_then_grows, cacheGrows_then_kept.

Lemma all_cache row base st r st' :
  parseTransactionTypeAllAsync idMapping row base st = (r, st') -> cacheGrows st st'.
Proof.
  unfold parseTransactionTypeAllAsync. cbv zeta. intros Hrun. inv_any; cache_done.
Qed.

Lemma visaCategory_cache name st r st' :
  visaCategory name st = (r, st') -> cacheGrows st st'.
Proof. unfold visaCategory. intros Hrun. inv_any; cache_done. Qed.

Lemma visa_cache row base st r st' :
  parseTransactionTypeVisaAsync row base st = (r, st') -> cacheGrows st st'.
Proof.
  unfold parseTransactionTypeVisaAsync. cbv zeta. intros Hrun. inv_any; cache_done;
    match goal with
    | Hcat : visaCategory _ _ = (_, _) |- _ => apply visaCategory_cache in Hcat; assumption
    end.
Qed.

Lemma quiet_cache row base st r st' :
  parseTransactionTypeAllWdls row base st = (r, st')
  \/ parseTransactionTypeAllDeposits row base st = (r, st')
  \/ parseTransactionTypeBPay row base st = (r, st') ->
  st' = st.
Proof.
  unfold parseTransactionTypeAllWdls, parseTransactionTypeAllDeposits,
    parseTransactionTypeBPay.
  cbv zeta. intros [Hrun | [Hrun | Hrun]]; inv_any; reflexivity.
Qed.

Lemma row_cache row st r st' :
  csvDataRowToTransactionAsync idMapping row st = (r, st') -> cacheGrows st st'.
Proof.
  unfold csvDataRowToTransactionAsync. cbv zeta. intros Hrun.
  destruct (isZero _ && isZero _); [inv_any; cache_done|].
  destruct (falsy _); [inv_any; cache_done|].
  repeat match type of Hrun with
         | (if ?b then _ else _) _ = _ => destruct b
         end.
  - eapply all_cache; eassumption.
  - rewrite (quiet_cache _ _ _ _ _ (or_introl Hrun)). cache_done.
  - rewrite (quiet_cache _ _ _ _ _ (or_intror (or_introl Hrun))). cache_done.
  - rewrite (quiet_cache _ _ _ _ _ (or_intror (or_intror Hrun))). cache_done.
  - eapply visa_cache; eassumption.
  - inv_any; cache_done.
Qed.

Lemma find_app_old {A} (p : A -> bool) (l added : list A) (a : A) :
  List.find p l = Some a -> List.find p (l ++ added) = Some a.
Proof.
  induction l as [|b l IH]; simpl; [discriminate|].
  destruct (p b); [auto | exact IH].
Qed.

(** X8.  Classifying a row, whatever its outcome, never changes the payees,
    the two category group ids or the initialised flag of the ledger cache,
    and never removes, reorders or changes a cached category: it appends at
    most one category to the cache. *)
Theorem classification_only_appends_to_the_cache (row : CSVDataRow) (st st' : Actual)
    (r : result (option ITransaction)) :
  csvDataRowToTransactionAsync idMapping row st = (r, st') ->
  isInitialised st' = isInitialised st /\ payees st' = payees st /\
  defaultCategoryGroupId st' = defaultCategoryGroupId st /\
  incomeCategoryGroupId st' = incomeCategoryGroupId st /\
  exists added, categories st' = categories st ++ added /\ (length added <= 1)%nat.
Proof.
  intros Hrun. apply row_cache in Hrun.
  destruct Hrun as (Hi & Hp & Hd & Hinc & Hadded & _). auto.
Qed.

(** X9.  A category name that the cache resolves keeps resolving to the
    same category through the classification of any file: rows that come
    later find what rows before them found or created. *)
Theorem cached_categories_stay_cached (csv : list CSVDataRow) (st st' : Actual)
    (r : result (list ITransaction)) (name : string) (c : ICategory) :
  collectTransactions idMapping csv st = (r, st') ->
  cached st name = Some c -> cached st' name = Some c.
Proof.
  revert st r. induction csv as [|row csv IH]; intros st r Hrun Hcached.
  - simpl in Hrun. inv_any. exact Hcached.
  - simpl in Hrun. apply bind_run in Hrun.
    assert (Hstep : forall r1 st1,
              csvDataRowToTransactionAsync idMapping row st = (r1, st1) ->
              cached st1 name = Some c).
    { intros r1 st1 Hrow. apply row_cache in Hrow.
      destruct Hrow as (_ & _ & _ & _ & (added & Hcats & _) & _).
      unfold cached. rewrite Hcats. apply find_app_old. exact Hcached. }
    destruct Hrun as [(e & Hrow & _) | (t & st1 & Hrow & Hrun)].
    + exact (Hstep _ _ Hrow).
    + apply bind_run in Hrun.
      destruct Hrun as [(e & Hrest & _) | (ts & st2 & Hrest & Hrun)].
      * exact (IH _ _ Hrest (Hstep _ _ Hrow)).
      * inv_any. exact (IH _ _ Hrest (Hstep _ _ Hrow)).
Qed.

Lemma visaCategory_cached name c st :
  cached st name = Some c ->
  visaCategory (Entry name) st = (Returns (Some c), snd (findCategory name st)).
Proof.
  intros Hcached. unfold visaCategory, bind. rewrite findCategory_run, Hcached.
  reflexivity.
Qed.

(** X10.  A card row whose category name the cache already resolves makes
    no remote call and leaves the cached categories as they are: the cache
    is searched for that name, at most, and a candidate of the row gets the
    id of the category found. *)
Theorem card_category_is_reused (row : CSVDataRow) (st st' : Actual)
    (r : result (option ITransaction)) (name : string) (c : ICategory) :
  Transaction_type row = "VISA" ->
  visaCategoryName (Category_list row) = Entry name ->
  cached st name = Some c ->
  csvDataRowToTransactionAsync idMapping row st = (r, st') ->
  categories st' = categories st /\
  (trace st' = trace st \/ trace st' = trace st ++ [FindCategory name]) /\
  forall t, r = Returns (Some t) -> category t = cat_id c.
Proof.
  intros Htype Hname Hcached. unfold csvDataRowToTransactionAsync. cbv zeta.
  rewrite Htype. eval_eqb. intros Hrun.
  destruct (isZero _ && isZero _); [inv_any; repeat split; auto; discriminate|].
  destruct (falsy _); [inv_any; repeat split; auto; discriminate|].
  unfold parseTransactionTypeVisaAsync in Hrun. cbv zeta in Hrun. rewrite Hname in Hrun.
  apply bind_run in Hrun. destruct Hrun as [(e & Hpayee & ->) | (p & st1 & Hpayee & Hrun)];
    apply visaPayeeName_state in Hpayee; subst.
  { repeat split; auto. discriminate. }
  unfold bind in Hrun. rewrite (visaCategory_cached name c st Hcached) in Hrun.
  unfold ret in Hrun. injection Hrun as <- <-. simpl.
  repeat split; auto. intros t Ht. injection Ht as <-. reflexivity.
Qed.


End Cache.

Lemma classification_only_appends_to_the_cache_witness :
  exists r st',
    csvDataRowToTransactionAsync (env:=Sample.host) Sample.idMapping Sample.liquorRow
      Sample.ledger = (r, st') /\
    isInitialised st' = isInitialised Sample.ledger /\
    payees st' = payees Sample.ledger /\
    defaultCategoryGroupId st' = defaultCategoryGroupId Sample.ledger /\
    incomeCategoryGroupId st' = incomeCategoryGroupId Sample.ledger /\
    exists added,
      categories st' = categories Sample.ledger ++ added /\ (length added <= 1)%nat.
Proof.
  eexists _, _. split.
  - vm_compute. reflexivity.
  - refine (classification_only_appends_to_the_cache (env:=Sample.host) Sample.idMapping
              Sample.liquorRow Sample.ledger _ _ _).
    vm_compute. reflexivity.
Defined.

Lemma cached_categories_stay_cached_witness :
  exists r st',
    collectTransactions (env:=Sample.host) Sample.idMapping Examples.file Sample.ledger
    = (r, st') /\
    cached st' "Rent"
    = Some (mkCategory (Some "cat-rent") "Rent" (Some "group-expense") None).
Proof.
  eexists _, _. split.
  - vm_compute. reflexivity.
  - refine (cached_categories_stay_cached (env:=Sample.host) Sample.idMapping
              Examples.file Sample.ledger _ _ "Rent" _ _ _).
    + vm_compute. reflexivity.
    + reflexivity.
Defined.

Lemma card_category_is_reused_witness :
  exists r st',
    csvDataRowToTransactionAsync (env:=Sample.host) Sample.idMapping Sample.liquorRow
      Examples.ledgerWithGroceries = (r, st') /\
    categories st' = categories Examples.ledgerWithGroceries /\
    (trace st' = trace Examples.ledgerWithGroceries \/
     trace st' = trace Examples.ledgerWithGroceries ++ [FindCategory "Groceries"]) /\
    forall t, r = Returns (Some t) -> category t = Some "id-of-Groceries".
Proof.
  eexists _, _. split.
  - vm_compute. reflexivity.
  - refine (card_category_is_reused (env:=Sample.host) Sample.idMapping Sample.liquorRow
              Examples.ledgerWithGroceries _ _ "Groceries"
              (mkCategory (Some "id-of-Groceries") "Groceries" (Some "group-expense") None)
              _ _ _ _).
    + reflexivity.
    + vm_compute. reflexivity.
    + vm_compute. reflexivity.
    + vm_compute. reflexivity.
Defined.


(** ** The formats of the account ids *)

Section FormatChecks.
Import JsString RegExp RegExpSpec Formats.

Lemma allChars_append p (a b : string) :
  allChars p (a +:+ b) = allChars p a && allChars p b.
Proof.
  induction a as [|x a IH]; [reflexivity|].
  rewrite append_cons. simpl. rewrite IH, andb_assoc. reflexivity.
Qed.

Lemma append_nil_r (s : string) : s +:+ EmptyString = s.
Proof. induction s as [|x s IH]; [reflexivity|]. rewrite append_cons, IH. reflexivity. Qed.

Lemma truthy_length (s : string) : (0 < String.length s)%nat -> truthy s = true.
Proof. destruct s; simpl; [lia | reflexivity]. Qed.

(** [r{n}] on a character class consumes exactly [n] characters of it. *)
Lemma run_repeat_chr (n : nat) (p : ascii -> bool) s caps k res :
  run (repeatN n (Chr p)) s caps k = Some res ->
  exists v s1, s = v +:+ s1 /\ exactly n p v /\ k s1 caps = Some res.
Proof.
  revert s. induction n as [|n IH]; intros s Hrun.
  - exists EmptyString, s. repeat split. exact Hrun.
  - simpl repeatN in Hrun. rewrite run_seq, run_chr_eq in Hrun.
    destruct s as [|c s]; [discriminate Hrun|].
    destruct (p c) eqn:Hp; [|discriminate Hrun].
    destruct (IH s Hrun) as (v & s1 & -> & [Hlen Hall] & Hk).
    exists (String c v), s1. split; [reflexivity|]. split; [|exact Hk].
    split; simpl; [rewrite Hlen; reflexivity | rewrite Hp, Hall; reflexivity].
Qed.

Lemma run_repeat_chr_append (n : nat) (p : ascii -> bool) v s1 caps k :
  exactly n p v -> run (repeatN n (Chr p)) (v +:+ s1) caps k = k s1 caps.
Proof.
  revert v. induction n as [|n IH]; intros v [Hlen Hall].
  - destruct v; [reflexivity | discriminate Hlen].
  - destruct v as [|c v]; [discriminate Hlen|].
    simpl in Hlen, Hall. apply andb_true_iff in Hall. destruct Hall as [Hp Hall].
    simpl repeatN. rewrite run_seq, run_chr_eq, append_cons, Hp.
    apply IH. split; [lia | exact Hall].
Qed.

Lemma bankFormat_iff (s : string) :
  BankAustraliaFormat.CheckAccountIdFormat (Some s) = true <-> exactly 8 isDigit s.
Proof.
  unfold BankAustraliaFormat.CheckAccountIdFormat, testAnchored. split.
  - destruct (truthy s); [|discriminate]. simpl negb. cbv iota.
    destruct (run _ s [] _) as [res|] eqn:Hrun; [|discriminate].
    intros _. apply run_repeat_chr in Hrun.
    destruct Hrun as (v & s1 & -> & Hv & Hend).
    destruct s1; [|discriminate Hend]. rewrite append_nil_r. exact Hv.
  - intros Hs.
    rewrite truthy_length by (destruct Hs as [-> _]; lia). simpl negb. cbv iota.
    rewrite <- (append_nil_r s), (run_repeat_chr_append 8 isDigit s EmptyString [] _ Hs).
    reflexivity.
Qed.

(** X12.  [BankAustralia.CheckAccountIdFormat] accepts exactly the strings
    of eight digits; it rejects [undefined] and the empty string. *)
Theorem bank_account_id_format (accountId : option string) :
  BankAustraliaFormat.CheckAccountIdFormat accountId = true <->
  exists s, accountId = Some s /\ exactly 8 isDigit s.
Proof.
  split.
  - destruct accountId as [s|]; [|discriminate].
    intros Hcheck. exists s. split; [reflexivity | apply bankFormat_iff; exact Hcheck].
  - intros (s & -> & Hs). apply bankFormat_iff. exact Hs.
Qed.

Lemma uuidRe_sound s1 res :
  matchAt uuidRe s1 = Some res -> exists u after, s1 = u +:+ after /\ uuidShaped u.
Proof.
  unfold matchAt, uuidRe, Patterns.seq. cbn [fold_right]. intros Hrun.
  rewrite run_seq in Hrun. apply run_repeat_chr in Hrun.
  destruct Hrun as (a & s2 & -> & Ha & Hrun).
  rewrite run_seq in Hrun. apply run_lit in Hrun. destruct Hrun as (s3 & -> & Hrun).
  rewrite run_seq in Hrun. apply run_repeat_chr in Hrun.
  destruct Hrun as (b & s4 & -> & Hb & Hrun).
  rewrite run_seq in Hrun. apply run_lit in Hrun. destruct Hrun as (s5 & -> & Hrun).
  rewrite run_seq in Hrun. apply run_repeat_chr in Hrun.
  destruct Hrun as (c & s6 & -> & Hc & Hrun).
  rewrite run_seq in Hrun. apply run_lit in Hrun. destruct Hrun as (s7 & -> & Hrun).
  rewrite run_seq in Hrun. apply run_repeat_chr in Hrun.
  destruct Hrun as (d & s8 & -> & Hd & Hrun).
  rewrite run_seq in Hrun. apply run_lit in Hrun. destruct Hrun as (s9 & -> & Hrun).
  rewrite run_seq in Hrun. apply run_repeat_chr in Hrun.
  destruct Hrun as (e & after & -> & He & _).
  exists (a +:+ "-" +:+ b +:+ "-" +:+ c +:+ "-" +:+ d +:+ "-" +:+ e), after.
  split.
  - rewrite !append_assoc. reflexivity.
  - exists a, b, c, d, e. repeat split; try apply Ha; try apply Hb; try apply Hc;
      try apply Hd; apply He.
Qed.

Lemma uuidRe_complete u after :
  uuidShaped u -> matchAt uuidRe (u +:+ after) <> None.
Proof.
  intros (a & b & c & d & e & -> & Ha & Hb & Hc & Hd & He).
  unfold matchAt, uuidRe, Patterns.seq. cbn [fold_right].
  rewrite !append_assoc.
  rewrite run_seq, (run_repeat_chr_append 8 isHex a _ _ _ Ha).
  rewrite run_seq, run_lit_append.
  rewrite run_seq, (run_repeat_chr_append 4 isHex b _ _ _ Hb).
  rewrite run_seq, run_lit_append.
  rewrite run_seq, (run_repeat_chr_append 4 isHex c _ _ _ Hc).
  rewrite run_seq, run_lit_append.
  rewrite run_seq, (run_repeat_chr_append 4 isHex d _ _ _ Hd).
  rewrite run_seq, run_lit_append.
  rewrite run_seq, (run_repeat_chr_append 12 isHex e _ _ _ He).
  discriminate.
Qed.

Lemma uuidShaped_length u : uuidShaped u -> String.length u = 36%nat.
Proof.
  intros (a & b & c & d & e & -> & [Ha _] & [Hb _] & [Hc _] & [Hd _] & [He _]).
  rewrite !length_append, Ha, Hb, Hc, Hd, He. reflexivity.
Qed.

Lemma actualFormat_iff (s : string) :
  ActualFormat.CheckAccountIdFormat (Some s) = true <->
  exists before u after, s = before +:+ u +:+ after /\ uuidShaped u.
Proof.
  unfold ActualFormat.CheckAccountIdFormat, test. split.
  - destruct (truthy s); [|discriminate]. simpl negb. cbv iota.
    destruct (exec uuidRe s) as [caps|] eqn:Hexec; [|discriminate].
    intros _. apply exec_matchAt in Hexec.
    destruct Hexec as (before & s1 & rest & -> & Hmatch).
    apply uuidRe_sound in Hmatch. destruct Hmatch as (u & after & -> & Hu).
    exists before, u, after. split; [reflexivity | exact Hu].
  - intros (before & u & after & -> & Hu).
    rewrite truthy_length.
    2: { rewrite !length_append, (uuidShaped_length u Hu). lia. }
    simpl negb. cbv iota.
    destruct (exec uuidRe (before +:+ u +:+ after)) eqn:Hexec; [reflexivity|].
    exfalso. exact (exec_finds uuidRe before (u +:+ after)
                      (uuidRe_complete u after Hu) Hexec).
Qed.

(** X13.  [Actual.CheckAccountIdFormat] accepts exactly the strings that
    contain a UUID (five groups of 8, 4, 4, 4 and 12 hexadecimal digits
    with dashes between them): the regex has no anchors, so any text may
    come before and after the UUID. *)
Theorem actual_account_id_format (accountId : option string) :
  ActualFormat.CheckAccountIdFormat accountId = true <->
  exists before u after,
    accountId = Some (before +:+ u +:+ after) /\ uuidShaped u.
Proof.
  split.
  - destruct accountId as [s|]; [|discriminate].
    intros Hcheck. apply actualFormat_iff in Hcheck.
    destruct Hcheck as (before & u & after & -> & Hu). exists before, u, after. auto.
  - intros (before & u & after & -> & Hu). apply actualFormat_iff.
    exists before, u, after. auto.
Qed.

End FormatChecks.

(** ** The account mapping of the command line *)

Section Mappings.
Import JsString RegExp RegExpSpec Formats.

Lemma split_shape (sep : ascii) (s : string) :
  exists first rest,
    split sep s = first :: rest /\ noChar sep first /\
    ((rest = [] /\ s = first)
     \/ exists s2, s = first +:+ String sep s2 /\ split sep s2 = rest).
Proof.
  induction s as [|c s IH].
  - exists EmptyString, []. split; [reflexivity|]. split; [reflexivity|]. left. auto.
  - simpl split. destruct (Ascii.eqb c sep) eqn:Hc.
    + apply Ascii.eqb_eq in Hc. subst c.
      exists EmptyString, (split sep s). split; [reflexivity|]. split; [reflexivity|].
      right. exists s. split; reflexivity.
    + destruct IH as (first & rest & Hsplit & Hfirst & Hrest). rewrite Hsplit.
      exists (String c first), rest. split; [reflexivity|]. split.
      * unfold noChar in *. simpl. rewrite Hc, Hfirst. reflexivity.
      * destruct Hrest as [[-> ->] | (s2 & -> & Hs2)]; [left; auto|].
        right. exists s2. split; [reflexivity | exact Hs2].
Qed.

Lemma split_no_sep (sep : ascii) (a : string) : noChar sep a -> split sep a = [a].
Proof.
  unfold noChar. induction a as [|c a IH]; [reflexivity|].
  simpl. intros Hall. apply andb_true_iff in Hall. destruct Hall as [Hc Hall].
  apply negb_true_iff in Hc. rewrite Hc, (IH Hall). reflexivity.
Qed.

Lemma split_at_sep (sep : ascii) (a b : string) :
  noChar sep a -> split sep (a +:+ String sep b) = a :: split sep b.
Proof.
  unfold noChar. induction a as [|c a IH].
  - intros _. change (EmptyString +:+ String sep b) with (String sep b).
    simpl. rewrite Ascii.eqb_refl. reflexivity.
  - simpl allChars. intros Hall. apply andb_true_iff in Hall. destruct Hall as [Hc Hall].
    apply negb_true_iff in Hc. rewrite append_cons. simpl split.
    rewrite Hc, (IH Hall). reflexivity.
Qed.

Lemma digits_have_no_equals (n : nat) (k : string) : exactly n isDigit k -> noChar "=" k.
Proof.
  intros [_ Hall]. unfold noChar. clear n. induction k as [|c k IH]; [reflexivity|].
  simpl in *. apply andb_true_iff in Hall. destruct Hall as [Hc Hall].
  rewrite (IH Hall), andb_true_r. apply negb_true_iff.
  destruct (Ascii.eqb c "=") eqn:Heq; [|reflexivity].
  apply Ascii.eqb_eq in Heq. subst c. discriminate Hc.
Qed.

(** X14.  A mapping string of the command line is accepted exactly when it
    is eight digits, an equals sign and a text without equals sign that
    contains a UUID, either alone or followed by another equals sign and
    anything; the pair it gives is the eight digits and that whole text. *)
Theorem accepted_mapping_strings (mappingStr bankAccountId actualAccountId : string) :
  parseMapping mappingStr = Some (bankAccountId, actualAccountId) <->
  exactly 8 isDigit bankAccountId /\
  ActualFormat.CheckAccountIdFormat (Some actualAccountId) = true /\
  noChar "=" actualAccountId /\
  (mappingStr = bankAccountId +:+ "=" +:+ actualAccountId
   \/ exists rest,
       mappingStr = bankAccountId +:+ "=" +:+ actualAccountId +:+ "=" +:+ rest).
Proof.
  unfold parseMapping. cbv zeta. split.
  - destruct (split_shape "=" mappingStr) as (first & rest & Hsplit & Hfirst & Hshape).
    rewrite Hsplit. simpl nth_error.
    destruct Hshape as [[-> ->] | (s2 & -> & Hs2)].
    { simpl nth_error. rewrite orb_true_r. discriminate. }
    destruct (split_shape "=" s2) as (second & rest2 & Hsplit2 & Hsecond & Hshape2).
    rewrite <- Hs2, Hsplit2. simpl nth_error.
    destruct (BankAustraliaFormat.CheckAccountIdFormat (Some first)) eqn:Hbank;
      [|discriminate].
    destruct (ActualFormat.CheckAccountIdFormat (Some second)) eqn:Hactual;
      [|discriminate].
    simpl. intros Heq. injection Heq as <- <-.
    split; [apply bankFormat_iff; exact Hbank|]. split; [exact Hactual|].
    split; [exact Hsecond|].
    destruct Hshape2 as [[_ ->] | (s3 & -> & _)]; [left; reflexivity|].
    right. exists s3. reflexivity.
  - intros (Hbank & Hactual & Hno & Hshape).
    assert (Hparts : exists more,
              split "=" mappingStr = bankAccountId :: actualAccountId :: more).
    { destruct Hshape as [-> | (rest & ->)].
      - exists [].
        change (bankAccountId +:+ "=" +:+ actualAccountId)
          with (bankAccountId +:+ String "="%char actualAccountId).
        rewrite (split_at_sep "=" bankAccountId actualAccountId
                   (digits_have_no_equals 8 _ Hbank)).
        rewrite (split_no_sep "=" actualAccountId Hno). reflexivity.
      - exists (split "=" rest).
        change (bankAccountId +:+ "=" +:+ actualAccountId +:+ "=" +:+ rest)
          with (bankAccountId +:+ String "="%char (actualAccountId +:+ String "="%char rest)).
        rewrite (split_at_sep "=" bankAccountId _ (digits_have_no_equals 8 _ Hbank)).
        rewrite (split_at_sep "=" actualAccountId rest Hno). reflexivity. }
    destruct Hparts as (more & ->). simpl nth_error.
    apply bankFormat_iff in Hbank. rewrite Hbank, Hactual. reflexivity.
Qed.

Lemma parseMapping_valid mappingStr k v :
  parseMapping mappingStr = Some (k, v) -> validPair k v.
Proof.
  unfold parseMapping. cbv zeta.
  destruct (nth_error _ 0) as [b|]; [|rewrite orb_true_l; discriminate].
  destruct (BankAustraliaFormat.CheckAccountIdFormat (Some b)) eqn:Hbank; [|discriminate].
  destruct (nth_error _ 1) as [a|]; [|discriminate].
  destruct (ActualFormat.CheckAccountIdFormat (Some a)) eqn:Hactual; [|discriminate].
  simpl. intros Heq. injection Heq as <- <-.
  split; [apply bankFormat_iff; exact Hbank | exact Hactual].
Qed.

Lemma readMappings_valid accountMapping (init m : gmap string UUID) :
  readMappings accountMapping init = Some m ->
  map_Forall validPair init -> map_Forall validPair m.
Proof.
  revert init. induction accountMapping as [|s rest IH]; intros init Hread Hinit.
  - injection Hread as <-. exact Hinit.
  - simpl in Hread. destruct (parseMapping s) as [[k v]|] eqn:Hparse; [|discriminate].
    apply (IH _ Hread). apply map_Forall_insert_2; [|exact Hinit].
    exact (parseMapping_valid s k v Hparse).
Qed.

Lemma valid_id_is_truthy v :
  ActualFormat.CheckAccountIdFormat (Some v) = true -> falsy (Some v) = false.
Proof.
  unfold ActualFormat.CheckAccountIdFormat, falsy.
  destruct (truthy v); [reflexivity | discriminate].
Qed.

Lemma readMappings_entries accountMapping (m : gmap string UUID) k v :
  readMappings accountMapping ∅ = Some m -> m !! k = Some v -> validPair k v.
Proof.
  intros Hread Hlookup.
  exact (readMappings_valid _ _ _ Hread (map_Forall_empty _) k v Hlookup).
Qed.

(** X15.  In a mapping read from the command line every account number is
    eight digits and every ledger account id passed the id check, so that
    it is not empty: for such a mapping the classifier's test of a missing
    account fails exactly on the numbers that are not mapped. *)
Theorem command_line_mapping_is_valid (accountMapping : list string)
    (m : gmap string UUID) :
  readMappings accountMapping ∅ = Some m ->
  (forall k v, m !! k = Some v ->
     exactly 8 isDigit k /\ ActualFormat.CheckAccountIdFormat (Some v) = true) /\
  (forall k, falsy (m !! k) = true <-> m !! k = None).
Proof.
  intros Hread. split.
  - intros k v Hlookup. exact (readMappings_entries _ _ _ _ Hread Hlookup).
  - intros k. destruct (m !! k) as [v|] eqn:Hlookup.
    + destruct (readMappings_entries _ _ _ _ Hread Hlookup) as [_ Hv].
      rewrite (valid_id_is_truthy v Hv). split; discriminate.
    + split; reflexivity.
Qed.

Lemma readMappings_app before after (init : gmap string UUID) :
  readMappings (before ++ after) init
  = match readMappings before init with
    | Some m => readMappings after m
    | None => None
    end.
Proof.
  revert init. induction before as [|s before IH]; intros init; [reflexivity|].
  simpl. destruct (parseMapping s) as [[k v]|]; [apply IH | reflexivity].
Qed.

Lemma readMappings_other after (init m : gmap string UUID) k :
  readMappings after init = Some m ->
  (forall s v, In s after -> parseMapping s <> Some (k, v)) ->
  m !! k = init !! k.
Proof.
  revert init. induction after as [|s after IH]; intros init Hread Hother.
  - injection Hread as <-. reflexivity.
  - simpl in Hread. destruct (parseMapping s) as [[k' v']|] eqn:Hparse; [|discriminate].
    rewrite (IH _ Hread); [|intros s0 v0 Hin; apply Hother; right; exact Hin].
    apply lookup_insert_ne. intros ->.
    apply (Hother s v'); [left; reflexivity | exact Hparse].
Qed.

(** X16.  One mapping string that is not accepted leaves no mapping at
    all; and among accepted strings the last one for an account number is
    the one the mapping keeps. *)
Theorem mapping_strings_are_read_in_order (before after : list string) (s : string)
    (init : gmap string UUID) :
  (parseMapping s = None -> readMappings (before ++ s :: after) init = None) /\
  (forall k v m,
     parseMapping s = Some (k, v) ->
     (forall s' v', In s' after -> parseMapping s' <> Some (k, v')) ->
     readMappings (before ++ s :: after) init = Some m ->
     m !! k = Some v).
Proof.
  rewrite readMappings_app. split.
  - intros Hbad. destruct (readMappings before init); [|reflexivity].
    simpl. rewrite Hbad. reflexivity.
  - intros k v m Hparse Hlast Hread.
    destruct (readMappings before init) as [m0|]; [|discriminate Hread].
    simpl in Hread. rewrite Hparse in Hread.
    rewrite (readMappings_other after _ m k Hread Hlast).
    apply lookup_insert_eq.
Qed.

End Mappings.

Lemma command_line_mapping_is_valid_witness :
  Formats.exactly 8 JsString.isDigit "12345678" /\
  ActualFormat.CheckAccountIdFormat (Some Sample.cheque) = true.
Proof.
  refine (proj1 (command_line_mapping_is_valid Examples.accountMapping Sample.idMapping _)
            "12345678" Sample.cheque _).
  - vm_compute. reflexivity.
  - vm_compute. reflexivity.
Defined.

Lemma mapping_strings_are_read_in_order_witness :
  readMappings (Examples.accountMapping ++ "12345678" :: Examples.accountMapping) ∅ = None.
Proof.
  refine (proj1 (mapping_strings_are_read_in_order Examples.accountMapping
                   Examples.accountMapping "12345678" ∅) _).
  vm_compute. reflexivity.
Defined.

Section MappedRows.
Context `{env : Host}.
Import JsString RegExpSpec Formats.

(** X17.  Under a mapping read from the command line, a row with an amount
    whose account number is not exactly eight digits always throws the
    error of an unmapped account; and a candidate is always filed under an
    id that passed the id check, for a row whose account number is eight
    digits. *)
Theorem rows_under_a_command_line_mapping (accountMapping : list string)
    (m : gmap string UUID) (row : CSVDataRow) (st : Actual) :
  readMappings accountMapping ∅ = Some m ->
  (isZero (amountToInteger (parseFloat (Debit_amount row)))
   && isZero (amountToInteger (parseFloat (Credit_amount row))) = false ->
   ~ exactly 8 isDigit (Account_number row) ->
   csvDataRowToTransactionAsync m row st
   = (Throws (AccountNotFoundError (Some (Account_number row))), st)) /\
  (forall t st',
     csvDataRowToTransactionAsync m row st = (Returns (Some t), st') ->
     exactly 8 isDigit (Account_number row) /\
     ActualFormat.CheckAccountIdFormat (Some (account t)) = true).
Proof.
  intros Hread. split.
  - intros Hamount Hformat.
    assert (Hnone : m !! Account_number row = None).
    { destruct (m !! Account_number row) as [v|] eqn:Hlookup; [|reflexivity].
      destruct Hformat. exact (proj1 (readMappings_entries _ _ _ _ Hread Hlookup)). }
    unfold csvDataRowToTransactionAsync. cbv zeta. rewrite Hamount, Hnone. reflexivity.
  - intros t st' Hrun. apply candidate_extends_base in Hrun.
    destruct Hrun as (acct & Hlookup & Hext). destruct Hext as (Hacct & _).
    rewrite Hacct. exact (readMappings_entries _ _ _ _ Hread Hlookup).
Qed.

End MappedRows.

Lemma rows_under_a_command_line_mapping_witness :
  csvDataRowToTransactionAsync (env:=Sample.host) Sample.idMapping Examples.truncatedRow
    Sample.ledger
  = (Throws (AccountNotFoundError (Some "1234")), Sample.ledger).
Proof.
  refine (proj1 (rows_under_a_command_line_mapping (env:=Sample.host)
                   Examples.accountMapping Sample.idMapping Examples.truncatedRow
                   Sample.ledger _) _ _).
  - vm_compute. reflexivity.
  - vm_compute. reflexivity.
  - intros [Hlength _]. discriminate Hlength.
Defined.

(** ** The start of a session *)

Section Initialise.
Context `{env : Host}.

Lemma filter_head_find {A} (p : A -> bool) (l : list A) :
  List.find p l = match List.filter p l with a :: _ => Some a | [] => None end.
Proof.
  induction l as [|a l IH]; [reflexivity|].
  simpl. destruct (p a); [reflexivity | exact IH].
Qed.

(** X18.  The session starts exactly when the ledger answers with
    categories among which one is an income category and one is not; the
    default group is then the group of the first category that is not an
    income category and the income group that of the first income category.
    Without categories at all the start fails with "No categories found",
    and with categories of one kind only, or an empty list, it fails with a
    [TypeError]; in both cases the session is not initialised. *)
Theorem session_start (fetchedPayees : list IPayee)
    (fetchedCategories : option (list ICategory)) (st : Actual) :
  isInitialised st = false ->
  match fetchedCategories with
  | None =>
      exists st', initialiseFrom fetchedPayees None st
                  = (Throws (Error "No categories found"), st') /\
                  isInitialised st' = false
  | Some cats =>
      match List.find (fun c => negb (isIncome c)) cats, List.find isIncome cats with
      | Some expense, Some income =>
          exists st', initialiseFrom fetchedPayees (Some cats) st = (Returns tt, st') /\
                      isInitialised st' = true /\
                      payees st' = fetchedPayees /\ categories st' = cats /\
                      defaultCategoryGroupId st' = cat_group_id expense /\
                      incomeCategoryGroupId st' = cat_group_id income /\
                      trace st' = trace st
      | _, _ =>
          exists message st',
            initialiseFrom fetchedPayees (Some cats) st = (Throws (TypeError message), st') /\
            isInitialised st' = false
      end
  end.
Proof.
  intros Hinit. destruct fetchedCategories as [cats|].
  - rewrite !filter_head_find.
    unfold initialiseFrom, bind, modify, firstGroupId, ret, throw. simpl.
    destruct (List.filter (fun c => negb (isIncome c)) cats) as [|expense ?]; simpl.
    { destruct (List.filter isIncome cats); eexists _, _; split; try reflexivity;
        exact Hinit. }
    destruct (List.filter isIncome cats) as [|income ?]; simpl.
    { eexists _, _. split; [reflexivity | exact Hinit]. }
    eexists. split; [reflexivity|]. repeat split.
  - eexists. split; [reflexivity | exact Hinit].
Qed.

(** X19.  In a session started from the categories of the ledger, a
    category created from the name "Interest" goes to the group of the first
    income category of the ledger and a category created from any other
    name to the group of its first category that is not an income
    category. *)
Theorem created_category_group_in_a_session (fetchedPayees : list IPayee)
    (cats : list ICategory) (st0 st st' : Actual) (name : string) (c : ICategory) :
  initialiseFrom fetchedPayees (Some cats) st0 = (Returns tt, st) ->
  createCategoryAsync (inr name) st = (Returns c, st') ->
  exists first,
    List.find (if String.eqb name "Interest" then isIncome
               else fun c => negb (isIncome c)) cats = Some first /\
    cat_group_id c = cat_group_id first /\
    categories st' = cats ++ [c].
Proof.
  intros Hstart Hcreate.
  apply createCategoryAsync_effect in Hcreate. cbv zeta in Hcreate.
  destruct Hcreate as (_ & Hgroup & _ & _ & Hcats & _).
  revert Hstart.
  unfold initialiseFrom, bind, modify, firstGroupId, ret, throw. simpl.
  destruct (List.filter (fun c => negb (isIncome c)) cats) as [|expense ?] eqn:Hexpense;
    simpl; [discriminate|].
  destruct (List.filter isIncome cats) as [|income ?] eqn:Hincome; simpl; [discriminate|].
  intros Hstart. injection Hstart as <-.
  unfold groupFor in Hgroup. simpl in Hgroup, Hcats.
  destruct (String.eqb name "Interest").
  - exists income. rewrite filter_head_find, Hincome. auto.
  - exists expense. rewrite filter_head_find, Hexpense. auto.
Qed.

End Initialise.

Lemma session_start_witness :
  exists st',
    initialiseFrom (payees Sample.ledger) (Some (categories Sample.ledger)) Examples.fresh
    = (Returns tt, st') /\
    isInitialised st' = true /\
    payees st' = payees Sample.ledger /\ categories st' = categories Sample.ledger /\
    defaultCategoryGroupId st' = Some "group-expense" /\
    incomeCategoryGroupId st' = Some "group-income" /\
    trace st' = trace Examples.fresh.
Proof.
  refine (session_start (payees Sample.ledger) (Some (categories Sample.ledger))
            Examples.fresh _).
  reflexivity.
Defined.

Lemma created_category_group_in_a_session_witness :
  exists c st st',
    initialiseFrom (payees Sample.ledger) (Some (categories Sample.ledger)) Examples.fresh
    = (Returns tt, st) /\
    createCategoryAsync (env:=Sample.host) (inr "Groceries") st = (Returns c, st') /\
    exists first,
      List.find (if String.eqb "Groceries" "Interest" then isIncome
                 else fun c => negb (isIncome c)) (categories Sample.ledger)
      = Some first /\
      cat_group_id c = cat_group_id first /\
      categories st' = categories Sample.ledger ++ [c].
Proof.
  eexists _, _, _. split; [|split].
  - vm_compute. reflexivity.
  - vm_compute. reflexivity.
  - refine (created_category_group_in_a_session (env:=Sample.host) (payees Sample.ledger)
              (categories Sample.ledger) Examples.fresh _ _ "Groceries" _ _ _).
    + vm_compute. reflexivity.
    + vm_compute. reflexivity.
Defined.

(** ** The batches of a file *)

Section Grouping.
Import JsString RegExpSpec Batches.

Lemma ownGet_Some acc k g : ownGet acc k = Some g -> In (k, g) acc.
Proof.
  induction acc as [|[k' g'] acc IH]; simpl; [discriminate|].
  destruct (String.eqb k' k) eqn:Hk.
  - apply String.eqb_eq in Hk. subst k'. intros Heq. injection Heq as <-. left. reflexivity.
  - intros Hget. right. exact (IH Hget).
Qed.

Lemma ownGet_None acc k : ownGet acc k = None -> ~ In k (map fst acc).
Proof.
  induction acc as [|[k' g'] acc IH]; simpl; [tauto|].
  destruct (String.eqb k' k) eqn:Hk; [discriminate|].
  apply String.eqb_neq in Hk. intros Hget [Heq | Hin]; [exact (Hk Heq) | exact (IH Hget Hin)].
Qed.

Lemma push_keys k t acc : map fst (push k t acc) = map fst acc.
Proof.
  induction acc as [|[k' g'] acc IH]; simpl; [reflexivity|].
  destruct (String.eqb k' k); simpl; [reflexivity | rewrite IH; reflexivity].
Qed.

Lemma push_In k t acc k' g' :
  List.NoDup (map fst acc) ->
  In (k', g') (push k t acc) ->
  (k' = k /\ exists g, In (k, g) acc /\ g' = g ++ [t])
  \/ (k' <> k /\ In (k', g') acc).
Proof.
  induction acc as [|[k0 g0] acc IH]; simpl; [tauto|].
  intros Hnodup. apply List.NoDup_cons_iff in Hnodup. destruct Hnodup as [Hfresh Hnodup].
  destruct (String.eqb k0 k) eqn:Hk.
  - apply String.eqb_eq in Hk. subst k0. intros [Heq | Hin].
    + injection Heq as <- <-. left. split; [reflexivity|]. exists g0. auto.
    + right. split; [|right; exact Hin]. intros ->.
      apply Hfresh. apply (in_map fst) in Hin. exact Hin.
  - apply String.eqb_neq in Hk. intros [Heq | Hin].
    + injection Heq as <- <-. right. split; [exact Hk | left; reflexivity].
    + destruct (IH Hnodup Hin) as [(-> & g & Hg & ->) | (Hne & Hin')].
      * left. split; [reflexivity|]. exists g. auto.
      * right. auto.
Qed.

Lemma ofAccount_snoc k seen t :
  ofAccount k (seen ++ [t])
  = ofAccount k seen ++ (if String.eqb (account t) k then [t] else []).
Proof. unfold ofAccount. rewrite List.filter_app. reflexivity. Qed.

Lemma firstSeen_In ks k : In k (firstSeen ks) <-> In k ks.
Proof.
  induction ks as [|k0 ks IH]; simpl; [tauto|].
  rewrite List.filter_In, IH, negb_true_iff, String.eqb_neq.
  destruct (String.eqb_spec k0 k) as [-> | Hne]; [tauto|].
  split; [tauto|]. intros [Heq | Hin]; [tauto|]. right. split; [exact Hin | congruence].
Qed.

Lemma filter_snoc_out {A} (p : A -> bool) l a :
  List.filter p (l ++ [a]) = List.filter p l ++ (if p a then [a] else []).
Proof. rewrite List.filter_app. reflexivity. Qed.

Lemma firstSeen_snoc ks k :
  firstSeen (ks ++ [k])
  = if existsb (String.eqb k) ks then firstSeen ks else firstSeen ks ++ [k].
Proof.
  induction ks as [|k0 ks IH]; [reflexivity|].
  simpl. rewrite IH. rewrite (String.eqb_sym k k0).
  destruct (String.eqb k0 k) eqn:Hk0; simpl.
  - apply String.eqb_eq in Hk0. subst k0.
    destruct (existsb (String.eqb k) ks); [reflexivity|].
    rewrite filter_snoc_out, String.eqb_refl. simpl. rewrite app_nil_r. reflexivity.
  - destruct (existsb (String.eqb k) ks); [reflexivity|].
    rewrite filter_snoc_out. rewrite (String.eqb_sym k k0), Hk0. reflexivity.
Qed.

Lemma existsb_eqb_In k ks : existsb (String.eqb k) ks = true <-> In k ks.
Proof.
  rewrite existsb_exists. split.
  - intros (x & Hin & Heq). apply String.eqb_eq in Heq. subst x. exact Hin.
  - intros Hin. exists k. split; [exact Hin | apply String.eqb_refl].
Qed.

Lemma groupStep_grouped seen acc t acc' :
  grouped seen acc -> groupStep acc t = Returns acc' -> grouped (seen ++ [t]) acc'.
Proof.
  intros (Hgroups & Hnodup & Hcover & Horder & Hown). unfold groupStep. cbv zeta.
  assert (Hseen : forall k, In k (map account seen) <-> In k (map fst acc)).
  { intros k. rewrite Horder, firstSeen_In. tauto. }
  assert (Hcovered : forall t', In t' seen -> In (account t') (map fst acc)).
  { intros t' Hin. apply Hseen. apply in_map. exact Hin. }
  destruct (ownGet acc (account t)) as [g|] eqn:Hget.
  - intros Heq. injection Heq as <-. apply ownGet_Some in Hget.
    assert (Hkey : In (account t) (map fst acc)) by (apply (in_map fst) in Hget; exact Hget).
    split; [|split; [|split; [|split]]].
    + intros k g' Hin.
      destruct (push_In _ _ _ _ _ Hnodup Hin) as [(-> & g1 & Hg1 & ->) | (Hne & Hin')].
      * split; [destruct g1; discriminate|].
        rewrite ofAccount_snoc, String.eqb_refl.
        rewrite <- (proj2 (Hgroups _ _ Hg1)). reflexivity.
      * split; [apply (Hgroups k g' Hin')|].
        rewrite ofAccount_snoc.
        destruct (String.eqb_spec (account t) k) as [Heq | _]; [congruence|].
        rewrite app_nil_r. apply (Hgroups k g' Hin').
    + rewrite push_keys. exact Hnodup.
    + intros t' Hin. rewrite push_keys. apply in_app_or in Hin.
      destruct Hin as [Hin | [<- | []]]; [exact (Hcovered t' Hin) | exact Hkey].
    + rewrite push_keys, List.map_app.
      change (map account [t]) with [account t]. rewrite firstSeen_snoc.
      rewrite (proj2 (existsb_eqb_In (account t) (map account seen)));
        [exact Horder | apply Hseen; exact Hkey].
    + intros k Hin. rewrite push_keys in Hin. exact (Hown k Hin).
  - apply ownGet_None in Hget.
    destruct (existsb (String.eqb (account t)) inheritedKeys) eqn:Hinherited; [discriminate|].
    intros Heq. injection Heq as <-.
    split; [|split; [|split; [|split]]].
    + intros k g Hin. apply in_app_or in Hin. destruct Hin as [Hin | [Heq | []]].
      * split; [apply (Hgroups k g Hin)|].
        rewrite ofAccount_snoc.
        destruct (String.eqb_spec (account t) k) as [Heq | _].
        -- subst k. destruct Hget. apply (in_map fst) in Hin. exact Hin.
        -- rewrite app_nil_r. apply (Hgroups k g Hin).
      * injection Heq as <- <-. split; [discriminate|].
        rewrite ofAccount_snoc, String.eqb_refl.
        replace (ofAccount (account t) seen) with (@nil ITransaction); [reflexivity|].
        symmetry. unfold ofAccount.
        destruct (List.filter _ seen) as [|t' rest] eqn:Hfilter; [reflexivity|].
        assert (Hin : In t' (List.filter (fun t0 => String.eqb (account t0) (account t)) seen))
          by (rewrite Hfilter; left; reflexivity).
        apply List.filter_In in Hin. destruct Hin as [Hin Heq].
        apply String.eqb_eq in Heq. destruct Hget. rewrite <- Heq. exact (Hcovered t' Hin).
    + rewrite List.map_app. simpl. apply List.NoDup_app.
      * exact Hnodup.
      * constructor; [simpl; tauto | constructor].
      * intros k Hin [<- | []]. exact (Hget Hin).
    + intros t' Hin. rewrite List.map_app. apply in_or_app. apply in_app_or in Hin.
      destruct Hin as [Hin | [<- | []]];
        [left; exact (Hcovered t' Hin) | right; left; reflexivity].
    + rewrite !List.map_app. change (map account [t]) with [account t].
      change (map fst [(account t, [t])]) with [account t]. rewrite firstSeen_snoc.
      destruct (existsb (String.eqb (account t)) (map account seen)) eqn:Hex.
      * apply existsb_eqb_In in Hex. destruct Hget. apply Hseen. exact Hex.
      * rewrite Horder. reflexivity.
    + intros k Hin. rewrite List.map_app in Hin. apply in_app_or in Hin.
      destruct Hin as [Hin | [<- | []]]; [exact (Hown k Hin) | exact Hinherited].
Qed.

Lemma reduce_grouped ts seen acc acc' :
  grouped seen acc -> reduce ts acc = Returns acc' -> grouped (seen ++ ts) acc'.
Proof.
  revert seen acc. induction ts as [|t ts IH]; intros seen acc Hinv; simpl.
  - intros Heq. injection Heq as <-. rewrite app_nil_r. exact Hinv.
  - destruct (groupStep acc t) as [acc1|e] eqn:Hstep; [|discriminate].
    intros Hreduce. replace (seen ++ t :: ts) with ((seen ++ [t]) ++ ts)
      by (rewrite <- app_assoc; reflexivity).
    exact (IH _ _ (groupStep_grouped _ _ _ _ Hinv Hstep) Hreduce).
Qed.

Lemma grouped_nil : grouped [] [].
Proof.
  split; [|split; [|split; [|split]]]; simpl; try tauto; try constructor.
Qed.

Lemma forIn_Permutation acc : forIn acc ≡ₚ acc.
Proof.
  unfold forIn. rewrite merge_sort_Permutation. apply filter_app_complement.
Qed.

Lemma reduce_inherited ts acc e :
  reduce ts acc = Throws e ->
  e = TypeError "acc[transaction.account].push is not a function" /\
  exists t, In t ts /\ existsb (String.eqb (account t)) inheritedKeys = true.
Proof.
  revert acc. induction ts as [|t ts IH]; intros acc; simpl; [discriminate|].
  destruct (groupStep acc t) as [acc1|e1] eqn:Hstep.
  - intros Hreduce. destruct (IH _ Hreduce) as (He & t' & Hin & Hkey).
    split; [exact He|]. exists t'. split; [right; exact Hin | exact Hkey].
  - intros Heq. injection Heq as <-. unfold groupStep in Hstep. cbv zeta in Hstep.
    destruct (ownGet acc (account t)); [discriminate|].
    destruct (existsb (String.eqb (account t)) inheritedKeys) eqn:Hkey; [|discriminate].
    injection Hstep as <-. split; [reflexivity|]. exists t. split; [left; reflexivity | exact Hkey].
Qed.

Lemma forIn_plain acc :
  Forall (fun kg => isArrayIndex (fst kg) = false) acc -> forIn acc = acc.
Proof.
  intros Hplain. unfold forIn, groups.
  assert (Hboth :
    filter (fun kg : string * list ITransaction => Is_true (isArrayIndex (fst kg))) acc = []
    /\ filter (fun kg : string * list ITransaction => ~ Is_true (isArrayIndex (fst kg))) acc
       = acc).
  { induction Hplain as [|kg acc Hkg Hplain [IHnone IHall]]; [split; reflexivity|].
    split.
    - rewrite filter_cons_False; [exact IHnone|]. rewrite Hkg. simpl. tauto.
    - rewrite filter_cons_True; [rewrite IHall; reflexivity|]. rewrite Hkg. simpl. tauto. }
  destruct Hboth as [-> ->]. reflexivity.
Qed.

(** A ledger account id that passed the id check has a dash in it: it is
    no array index and no member that objects inherit. *)
Lemma checked_id_is_a_plain_key (k : string) :
  ActualFormat.CheckAccountIdFormat (Some k) = true ->
  isArrayIndex k = false /\ existsb (String.eqb k) inheritedKeys = false.
Proof.
  intros Hcheck. split.
  - apply actualFormat_iff in Hcheck.
    destruct Hcheck as (before & u & after & -> & a & b & c & d & e & -> & _).
    assert (Hdash : allChars isDigit
              (before +:+ (a +:+ "-" +:+ b +:+ "-" +:+ c +:+ "-" +:+ d +:+ "-" +:+ e)
               +:+ after) = false).
    { rewrite !allChars_append.
      change (allChars isDigit "-") with false.
      rewrite !andb_false_r, ?andb_false_l, ?andb_false_r. reflexivity. }
    unfold isArrayIndex.
    destruct (before +:+ _ +:+ after) as [|c0 rest]; [reflexivity|].
    rewrite Hdash. reflexivity.
  - destruct (existsb (String.eqb k) inheritedKeys) eqn:Hkey; [|reflexivity].
    apply existsb_eqb_In in Hkey. exfalso. revert Hcheck.
    unfold inheritedKeys in Hkey. simpl in Hkey.
    repeat (destruct Hkey as [<- | Hkey]; [vm_compute; discriminate|]).
    destruct Hkey.
Qed.

Lemma batches_grouped (transactions : list ITransaction) (batches : groups) :
  groupTransactions transactions = Returns batches ->
  exists acc, grouped transactions acc /\ batches ≡ₚ acc.
Proof.
  unfold groupTransactions.
  destruct (reduce transactions []) as [acc|e] eqn:Hreduce; [|discriminate].
  intros Heq. injection Heq as <-.
  apply (reduce_grouped transactions [] [] acc grouped_nil) in Hreduce.
  exists acc. split; [exact Hreduce | apply forIn_Permutation].
Qed.

(** X20.  The batches of a file: each batch belongs to one account and
    holds every candidate of the file for that account, in file order, and
    at least one; no two batches are for the same account; and every
    candidate has the batch of its account. *)
Theorem batches_partition_the_candidates (transactions : list ITransaction)
    (batches : groups) :
  groupTransactions transactions = Returns batches ->
  (forall k g, In (k, g) batches -> g <> [] /\ g = ofAccount k transactions) /\
  List.NoDup (map fst batches) /\
  (forall t, In t transactions ->
     In (account t, ofAccount (account t) transactions) batches).
Proof.
  intros Hgroup. apply batches_grouped in Hgroup.
  destruct Hgroup as (acc & (Hgroups & Hnodup & Hcover & _ & _) & Hperm).
  split; [|split].
  - intros k g Hin. apply Hgroups.
    exact (Permutation_in _ Hperm Hin).
  - apply (Permutation_NoDup (l := map fst acc)); [|exact Hnodup].
    apply Permutation_map. symmetry. exact Hperm.
  - intros t Hin. specialize (Hcover t Hin). apply in_map_iff in Hcover.
    destruct Hcover as ([k g] & Hk & Hkg). simpl in Hk. subst k.
    rewrite <- (proj2 (Hgroups _ _ Hkg)).
    apply (Permutation_in _ (Permutation_sym Hperm)). exact Hkg.
Qed.

(** X21.  When the candidates are filed under ledger account ids that
    passed the id check, as they are under a mapping of the command line,
    the grouping does not fail and the batches come in the order in which
    their accounts first appear in the file. *)
Theorem batches_follow_the_file (transactions : list ITransaction) :
  Forall (fun t => ActualFormat.CheckAccountIdFormat (Some (account t)) = true)
         transactions ->
  exists batches,
    groupTransactions transactions = Returns batches /\
    map fst batches = firstSeen (map account transactions).
Proof.
  intros Hchecked. unfold groupTransactions.
  destruct (reduce transactions []) as [acc|e] eqn:Hreduce.
  - apply (reduce_grouped transactions [] [] acc grouped_nil) in Hreduce.
    simpl in Hreduce. destruct Hreduce as (_ & _ & Hcover & Horder & _).
    exists (forIn acc). split; [reflexivity|].
    rewrite forIn_plain; [exact Horder|].
    apply List.Forall_forall. intros [k g] Hin. simpl.
    assert (Hk : In k (map account transactions)).
    { apply firstSeen_In. rewrite <- Horder. apply (in_map fst) in Hin. exact Hin. }
    apply in_map_iff in Hk. destruct Hk as (t & <- & Ht).
    rewrite List.Forall_forall in Hchecked.
    exact (proj1 (checked_id_is_a_plain_key _ (Hchecked t Ht))).
  - exfalso. apply reduce_inherited in Hreduce.
    destruct Hreduce as (_ & t & Hin & Hkey).
    rewrite List.Forall_forall in Hchecked.
    rewrite (proj2 (checked_id_is_a_plain_key _ (Hchecked t Hin))) in Hkey.
    discriminate Hkey.
Qed.

(** X22.  The grouping fails only with a [TypeError], and only when some
    candidate is filed under the name of a member that every object
    inherits, such as "constructor" or "toString". *)
Theorem grouping_fails_on_inherited_names (transactions : list ITransaction) (e : exn) :
  groupTransactions transactions = Throws e ->
  e = TypeError "acc[transaction.account].push is not a function" /\
  exists t, In t transactions /\ In (account t) inheritedKeys.
Proof.
  unfold groupTransactions.
  destruct (reduce transactions []) as [acc|e'] eqn:Hreduce; [discriminate|].
  intros Heq. injection Heq as <-. apply reduce_inherited in Hreduce.
  destruct Hreduce as (He & t & Hin & Hkey).
  split; [exact He|]. exists t. split; [exact Hin|].
  apply existsb_eqb_In. exact Hkey.
Qed.

End Grouping.

Lemma batches_partition_the_candidates_witness :
  exists batches,
    Batches.groupTransactions Examples.candidates = Returns batches /\
    (forall k g, In (k, g) batches ->
       g <> [] /\ g = Batches.ofAccount k Examples.candidates) /\
    List.NoDup (map fst batches) /\
    (forall t, In t Examples.candidates ->
       In (account t, Batches.ofAccount (account t) Examples.candidates) batches).
Proof.
  eexists. split.
  - vm_compute. reflexivity.
  - refine (batches_partition_the_candidates Examples.candidates _ _).
    vm_compute. reflexivity.
Defined.

Lemma batches_follow_the_file_witness :
  exists batches,
    Batches.groupTransactions Examples.candidates = Returns batches /\
    map fst batches = [Sample.cheque; Sample.savings].
Proof.
  refine (batches_follow_the_file Examples.candidates _).
  repeat (constructor; [vm_compute; reflexivity|]). constructor.
Defined.

Lemma grouping_fails_on_inherited_names_witness :
  exists e,
    Batches.groupTransactions Examples.misfiled = Throws e /\
    e = TypeError "acc[transaction.account].push is not a function" /\
    exists t, In t Examples.misfiled /\ In (account t) inheritedKeys.
Proof.
  eexists. split.
  - vm_compute. reflexivity.
  - refine (grouping_fails_on_inherited_names Examples.misfiled _ _).
    vm_compute. reflexivity.
Defined.

(** ** The import of a file *)

Section ImportFile.
Context `{env : Host}.
Variable idMapping : gmap string UUID.
Variable accounts : list IAccount.
Variable importTransactions : option UUID -> list ITransaction -> result unit.
Import Batches.

Lemma submitAll_calls (batches : groups) st calls r :
  submitAll accounts importTransactions batches st = (calls, r) ->
  (forall i g, In (i, g) calls ->
     exists k a, In (k, g) batches /\ findAccount accounts k = Some a /\ acc_id a = i) /\
  (r = Returns tt ->
   forall k g, In (k, g) batches ->
     exists a, findAccount accounts k = Some a /\ In (acc_id a, g) calls).
Proof.
  revert calls r. induction batches as [|[k g] batches IH]; intros calls r; simpl.
  - intros Heq. injection Heq as <- <-. split; [intros i g [] | intros _ k g []].
  - unfold accountFor. destruct (negb (isInitialised st)).
    { intros Heq. injection Heq as <- <-. split; [intros i g0 [] | discriminate]. }
    destruct (findAccount accounts k) as [a|] eqn:Hfind.
    2: { intros Heq. injection Heq as <- <-. split; [intros i g0 [] | discriminate]. }
    destruct (importTransactions (acc_id a) g) as [[]|e].
    2: { intros Heq. injection Heq as <- <-. split; [|discriminate].
         intros i g0 [Heq | []]. injection Heq as <- <-.
         exists k, a. split; [left; reflexivity | auto]. }
    destruct (submitAll accounts importTransactions batches st) as [calls' r'] eqn:Hrest.
    destruct (IH calls' r' eq_refl) as [Hcalls Hall].
    intros Heq. injection Heq as <- <-. split.
    + intros i g0 [Heq | Hin].
      * injection Heq as <- <-. exists k, a. split; [left; reflexivity | auto].
      * destruct (Hcalls i g0 Hin) as (k0 & a0 & Hin0 & Hfind0 & Hid0).
        exists k0, a0. split; [right; exact Hin0 | auto].
    + intros Hr k0 g0 [Heq | Hin].
      * injection Heq as <- <-. exists a. split; [exact Hfind | left; reflexivity].
      * destruct (Hall Hr k0 g0 Hin) as (a0 & Hfind0 & Hin0).
        exists a0. split; [exact Hfind0 | right; exact Hin0].
Qed.

(** X23.  A row that throws leaves the whole file out: when the rows
    before it are classified and the row throws, the import of the file
    ends with that error and the ledger is not asked to import anything. *)
Theorem failing_row_imports_nothing (before rest : list CSVDataRow) (row : CSVDataRow)
    (st0 st st' : Actual) (ts : list ITransaction) (e : exn) :
  collectTransactions idMapping before st0 = (Returns ts, st) ->
  csvDataRowToTransactionAsync idMapping row st = (Throws e, st') ->
  importRows idMapping accounts importTransactions (before ++ row :: rest) st0
  = (([], Throws e), st').
Proof.
  intros Hbefore Hrow. unfold importRows.
  rewrite (collectTransactions_throws idMapping before row rest st0 ts st e st' Hbefore Hrow).
  reflexivity.
Qed.

(** X24.  Every call of the ledger made for a file submits, to an account
    found by the id or by the name under which the candidates are filed,
    all the candidates of the file for that account, in file order; and
    when the import of the file returns, every candidate of the file is in
    the call made for its account. *)
Theorem submitted_batches (csv : list CSVDataRow) (st st' st'' : Actual)
    (ts : list ITransaction) (calls : list submission) (r : result unit) :
  collectTransactions idMapping csv st = (Returns ts, st') ->
  importRows idMapping accounts importTransactions csv st = ((calls, r), st'') ->
  (forall i g, In (i, g) calls ->
     exists k a, findAccount accounts k = Some a /\ acc_id a = i /\
                 g <> [] /\ g = ofAccount k ts) /\
  (r = Returns tt ->
   forall t, In t ts ->
     exists a, findAccount accounts (account t) = Some a /\
               In (acc_id a, ofAccount (account t) ts) calls).
Proof.
  intros Hcollect. unfold importRows. rewrite Hcollect.
  destruct (groupTransactions ts) as [batches|e] eqn:Hgroup.
  2: { intros Heq. injection Heq as <- <- _. split; [intros i g [] | discriminate]. }
  apply batches_grouped in Hgroup.
  destruct Hgroup as (acc & (Hgroups & _ & Hcover & _ & _) & Hperm).
  destruct (submitAll accounts importTransactions batches st') as [calls' r'] eqn:Hsubmit.
  apply submitAll_calls in Hsubmit. destruct Hsubmit as [Hcalls Hall].
  intros Heq. injection Heq as <- <- _. split.
  - intros i g Hin. destruct (Hcalls i g Hin) as (k & a & Hkg & Hfind & Hid).
    exists k, a. destruct (Hgroups k g (Permutation_in _ Hperm Hkg)) as [Hne Hg]. auto.
  - intros Hr t Hin. specialize (Hcover t Hin). apply in_map_iff in Hcover.
    destruct Hcover as ([k g] & Hk & Hkg). simpl in Hk. subst k.
    destruct (Hall Hr _ _ (Permutation_in _ (Permutation_sym Hperm) Hkg))
      as (a & Hfind & Hin').
    exists a. split; [exact Hfind|].
    rewrite <- (proj2 (Hgroups _ _ Hkg)). exact Hin'.
Qed.

(** X25.  A batch filed under something that is neither the id nor the
    name of an account of the ledger ends the import with "Account ... not
    found": the batches before it have been submitted, and neither it nor
    the batches after it are. *)
Theorem unknown_account_stops_the_import (before after : groups) (k : string)
    (g : list ITransaction) (st : Actual) :
  isInitialised st = true ->
  findAccount accounts k = None ->
  (forall k' g', In (k', g') before ->
     exists a, findAccount accounts k' = Some a /\
               importTransactions (acc_id a) g' = Returns tt) ->
  exists calls,
    submitAll accounts importTransactions (before ++ (k, g) :: after) st
    = (calls, Throws (Error ("Account " +:+ k +:+ " not found"))) /\
    map snd calls = map snd before.
Proof.
  intros Hinit Hnone. induction before as [|[k' g'] before IH]; intros Hfound; simpl.
  - unfold accountFor. rewrite Hinit, Hnone. simpl. exists []. split; reflexivity.
  - destruct (Hfound k' g' (or_introl eq_refl)) as (a & Hfind & Himport).
    unfold accountFor. rewrite Hinit, Hfind. simpl. rewrite Himport.
    destruct IH as (calls & Hcalls & Hmap).
    { intros k0 g0 Hin. apply Hfound. right. exact Hin. }
    rewrite Hcalls. exists ((acc_id a, g') :: calls). split; [reflexivity|].
    simpl. rewrite Hmap. reflexivity.
Qed.

End ImportFile.

Lemma failing_row_imports_nothing_witness :
  exists st',
    importRows (env:=Sample.host) Sample.idMapping Examples.accounts
      Examples.importTransactions Examples.brokenFile Sample.ledger
    = (([], Throws (AccountNotFoundError (Some "99999999"))), st').
Proof.
  eexists.
  refine (failing_row_imports_nothing (env:=Sample.host) Sample.idMapping Examples.accounts
            Examples.importTransactions [Sample.balanceRow; Sample.cloudflareRow]
            [Sample.transferRow] Sample.unmappedRow Sample.ledger _ _ _ _ _ _).
  - vm_compute. reflexivity.
  - vm_compute. reflexivity.
Defined.

Lemma submitted_batches_witness :
  exists ts st' calls st'',
    collectTransactions (env:=Sample.host) Sample.idMapping Examples.file Sample.ledger
    = (Returns ts, st') /\
    importRows (env:=Sample.host) Sample.idMapping Examples.accounts
      Examples.importTransactions Examples.file Sample.ledger
    = ((calls, Returns tt), st'') /\
    (forall i g, In (i, g) calls ->
       exists k a, findAccount Examples.accounts k = Some a /\ acc_id a = i /\
                   g <> [] /\ g = Batches.ofAccount k ts) /\
    (Returns tt = Returns tt ->
     forall t, In t ts ->
       exists a, findAccount Examples.accounts (account t) = Some a /\
                 In (acc_id a, Batches.ofAccount (account t) ts) calls).
Proof.
  eexists _, _, _, _. split; [|split].
  - vm_compute. reflexivity.
  - vm_compute. reflexivity.
  - refine (submitted_batches (env:=Sample.host) Sample.idMapping Examples.accounts
              Examples.importTransactions Examples.file Sample.ledger _ _ _ _ _ _ _).
    + vm_compute. reflexivity.
    + vm_compute. reflexivity.
Defined.

Lemma unknown_account_stops_the_import_witness :
  exists calls,
    submitAll Examples.accounts Examples.importTransactions
      ([(Sample.cheque, [Examples.candidate Sample.cheque "a"])]
       ++ ("Holiday fund", [Examples.candidate "Holiday fund" "b"])
       :: [(Sample.savings, [Examples.candidate Sample.savings "c"])])
      Sample.ledger
    = (calls, Throws (Error ("Account " +:+ "Holiday fund" +:+ " not found"))) /\
    map snd calls = map snd [(Sample.cheque, [Examples.candidate Sample.cheque "a"])].
Proof.
  refine (unknown_account_stops_the_import Examples.accounts Examples.importTransactions
            _ _ "Holiday fund" _ Sample.ledger _ _ _).
  - reflexivity.
  - vm_compute. reflexivity.
  - intros k' g' [Hin | []].
    injection Hin as <- <-. eexists. split; vm_compute; reflexivity.
Defined.

(** ** Title case *)

Section TitleCase.
Import JsString RegExp RegExpSpec.

Lemma toLowerChar_idem c : toLowerChar (toLowerChar c) = toLowerChar c.
Proof. destruct c as [[] [] [] [] [] [] [] []]; reflexivity. Qed.

Lemma toLowerChar_upper c : toLowerChar (toUpperChar c) = toLowerChar c.
Proof. destruct c as [[] [] [] [] [] [] [] []]; reflexivity. Qed.

Lemma mapChars_append f (a b : string) :
  mapChars f (a +:+ b) = mapChars f a +:+ mapChars f b.
Proof.
  induction a as [|c a IH]; [reflexivity|].
  rewrite append_cons. simpl. rewrite IH. reflexivity.
Qed.

Lemma toLowerCase_idem s :
  mapChars toLowerChar (mapChars toLowerChar s) = mapChars toLowerChar s.
Proof.
  induction s as [|c s IH]; [reflexivity|].
  simpl. rewrite toLowerChar_idem, IH. reflexivity.
Qed.

(** The callback of [toTitleCase] changes the case of its text only. *)
Lemma capitalise_lower txt :
  toLowerCase (toUpperCase (charAt0 txt) +:+ toLowerCase (substring1 txt))
  = toLowerCase txt.
Proof.
  destruct txt as [|c txt]; [reflexivity|].
  change (charAt0 (String c txt)) with (String c EmptyString).
  change (substring1 (String c txt)) with txt.
  unfold toLowerCase, toUpperCase. rewrite mapChars_append, toLowerCase_idem.
  simpl. rewrite toLowerChar_upper. reflexivity.
Qed.

Lemma wordRe_consumes s caps rest :
  matchAt wordRe s = Some (caps, rest) -> exists v, s = v +:+ rest.
Proof.
  unfold matchAt, wordRe. rewrite run_seq. intros Hrun.
  apply run_chr in Hrun. destruct Hrun as (c & s1 & -> & _ & Hrun).
  apply run_star_chr in Hrun. destruct Hrun as (v & s2 & -> & _ & Hend).
  injection Hend as _ <-. exists (String c v). reflexivity.
Qed.

Lemma replaceFrom_lower (r : regex) (f : string -> string) fuel s :
  (forall s0 caps rest, matchAt r s0 = Some (caps, rest) -> exists v, s0 = v +:+ rest) ->
  (forall txt, toLowerCase (f txt) = toLowerCase txt) ->
  toLowerCase (replaceFrom fuel r f s) = toLowerCase s.
Proof.
  intros Hconsumes Hf. revert s. induction fuel as [|fuel IH]; intros s; [reflexivity|].
  simpl. destruct (matchAt r s) as [[caps rest]|] eqn:Hmatch.
  - destruct (Hconsumes s caps rest Hmatch) as (v & ->).
    rewrite length_append.
    replace (String.length v + String.length rest - String.length rest)%nat
      with (String.length v) by lia.
    destruct v as [|c v].
    + change (EmptyString +:+ rest) with rest. simpl String.length. cbv iota.
      destruct rest as [|c rest].
      * apply Hf.
      * unfold toLowerCase in *. rewrite mapChars_append, Hf. simpl.
        rewrite IH. reflexivity.
    + simpl String.length. cbv iota.
      pose proof (take_append (String c v) rest) as Htake.
      rewrite length_append in Htake.
      replace (String.length (String c v) + String.length rest - String.length rest)%nat
        with (S (String.length v)) in Htake by (simpl; lia).
      rewrite Htake. unfold toLowerCase in *.
      rewrite !mapChars_append, Hf, IH. reflexivity.
  - destruct s as [|c s]; [reflexivity|].
    unfold toLowerCase in *. simpl. rewrite IH. reflexivity.
Qed.

Lemma mapChars_length f s : String.length (mapChars f s) = String.length s.
Proof. induction s as [|c s IH]; [reflexivity|]. simpl. rewrite IH. reflexivity. Qed.

(** X26.  On ASCII text [toTitleCase] changes nothing but the case of
    letters: its result has the length of its argument and the same
    lower-case form. *)
Theorem toTitleCase_changes_case_only (str : string) :
  allChars isAscii str = true ->
  toLowerCase (toTitleCase str) = toLowerCase str /\
  String.length (toTitleCase str) = String.length str.
Proof.
  intros _.
  assert (Hlower : toLowerCase (toTitleCase str) = toLowerCase str).
  { unfold toTitleCase, replaceAll. apply replaceFrom_lower.
    - exact wordRe_consumes.
    - exact capitalise_lower. }
  split; [exact Hlower|].
  rewrite <- (mapChars_length toLowerChar (toTitleCase str)).
  change (mapChars toLowerChar (toTitleCase str)) with (toLowerCase (toTitleCase str)).
  rewrite Hlower. apply mapChars_length.
Qed.

End TitleCase.

Lemma toTitleCase_changes_case_only_witness :
  JsString.toLowerCase (toTitleCase "THE bottle-shop 12345 sydney")
  = JsString.toLowerCase "THE bottle-shop 12345 sydney" /\
  String.length (toTitleCase "THE bottle-shop 12345 sydney")
  = String.length "THE bottle-shop 12345 sydney".
Proof.
  apply (toTitleCase_changes_case_only "THE bottle-shop 12345 sydney").
  vm_compute. reflexivity.
Defined.
